(** * Jarvis Live gateway: classifier, workflow engine, tool broker,
      search ranking, token issuance and session multiplexer.

    A shallow embedding of the Python sources under [_python/src] and the
    properties of the gateway specification that were checked against it.

    Conventions of the embedding:
    - Python [str] is [string]; the text functions work on its character
      list.  Characters are ASCII code points; code points of 128 and above are
      neither word characters, nor white space, nor cased.
    - Python [float] confidences and clock readings are exact rationals [Q];
      the relevance scores of the search results, whose sums are compared
      for equality and order, are binary64 floats; [datetime] values are
      integers, microseconds since the epoch.
    - A [dict] keyed by strings is a [gmap string _], or a list of entries
      in insertion order where the code depends on the order; a [dict] used
      as a record with optional keys is a Rocq record with [option] fields.
    - An exception is a value of a sum type; [try/except] is a [match]. *)

From Stdlib Require Import ZArith QArith Lqa List String Ascii Bool Lia Permutation Sorted
  SpecFloat.
From stdpp Require Import gmap strings list fin_maps sorting.

Local Open Scope string_scope.
Local Open Scope list_scope.

(** ** Text primitives ([str.lower], [str.strip], [in], [str.count], ...) *)

Module Text.

Definition chars (s : string) : list ascii := list_ascii_of_string s.
Definition text (l : list ascii) : string := string_of_list_ascii l.

Definition code (c : ascii) : nat := nat_of_ascii c.

Definition is_upper (c : ascii) : bool := (65 <=? code c)%nat && (code c <=? 90)%nat.
Definition is_lower (c : ascii) : bool := (97 <=? code c)%nat && (code c <=? 122)%nat.
Definition is_digit (c : ascii) : bool := (48 <=? code c)%nat && (code c <=? 57)%nat.

(** [\w]: letters, digits and the underscore. *)
Definition is_word (c : ascii) : bool :=
  is_upper c || is_lower c || is_digit c || (code c =? 95)%nat.

(** [\s] and [str.isspace]: tab, LF, VT, FF, CR, the separators 28..31, space. *)
Definition is_space (c : ascii) : bool :=
  ((9 <=? code c)%nat && (code c <=? 13)%nat)
  || ((28 <=? code c)%nat && (code c <=? 31)%nat)
  || (code c =? 32)%nat.

Definition lower_char (c : ascii) : ascii :=
  if is_upper c then ascii_of_nat (code c + 32) else c.

Definition lower_chars (l : list ascii) : list ascii := map lower_char l.

(** [s.lower()] *)
Definition lower (s : string) : string := text (lower_chars (chars s)).

Definition eqc (a b : ascii) : bool := Ascii.eqb a b.

(** [l] starts with [p]; on success the rest of [l] after [p]. *)
Fixpoint strip_prefix (p l : list ascii) : option (list ascii) :=
  match p, l with
  | [], _ => Some l
  | _ :: _, [] => None
  | a :: p', b :: l' => if eqc a b then strip_prefix p' l' else None
  end.

Definition starts_with (p l : list ascii) : bool :=
  match strip_prefix p l with Some _ => true | None => false end.

(** [p in l] on character lists *)
Fixpoint contains_chars (p l : list ascii) : bool :=
  starts_with p l || match l with [] => false | _ :: l' => contains_chars p l' end.

(** [needle in hay] *)
Definition contains (needle hay : string) : bool :=
  contains_chars (chars needle) (chars hay).

(** [l.count(p)] for a non-empty [p]: occurrences that do not overlap, found
    from the left. [fuel] bounds the scan; the length of [l] is enough. *)
Fixpoint count_chars (fuel : nat) (p l : list ascii) : nat :=
  match fuel with
  | O => O
  | S fuel' =>
      match l with
      | [] => O
      | _ :: l' =>
          match strip_prefix p l with
          | Some rest => S (count_chars fuel' p rest)
          | None => count_chars fuel' p l'
          end
      end
  end.

(** [hay.count(needle)], [needle] not empty *)
Definition count (needle hay : string) : nat :=
  count_chars (List.length (chars hay)) (chars needle) (chars hay).

Fixpoint lstrip_chars (l : list ascii) : list ascii :=
  match l with
  | c :: l' => if is_space c then lstrip_chars l' else l
  | [] => []
  end.

Definition strip_chars (l : list ascii) : list ascii :=
  rev (lstrip_chars (rev (lstrip_chars l))).

(** [s.strip()] *)
Definition strip (s : string) : string := text (strip_chars (chars s)).

(** [l.replace(old, new)], [old] not empty *)
Fixpoint replace_chars (fuel : nat) (old new l : list ascii) : list ascii :=
  match fuel with
  | O => l
  | S fuel' =>
      match l with
      | [] => []
      | c :: l' =>
          match strip_prefix old l with
          | Some rest => new ++ replace_chars fuel' old new rest
          | None => c :: replace_chars fuel' old new l'
          end
      end
  end.

(** [s.split()]: the maximal runs of characters that are not white space *)
Fixpoint split_ws (cur : list ascii) (l : list ascii) : list (list ascii) :=
  match l with
  | [] => match cur with [] => [] | _ => [rev cur] end
  | c :: l' =>
      if is_space c
      then match cur with [] => split_ws [] l' | _ => rev cur :: split_ws [] l' end
      else split_ws (c :: cur) l'
  end.

Definition split (s : string) : list string := map text (split_ws [] (chars s)).

(** Every white-space character of [l] is a space that follows a character
    that is not white space; [after_space] tells whether white space comes
    right before [l] (at the start of a text it stands for the edge). *)
Fixpoint single_spaced (after_space : bool) (l : list ascii) : bool :=
  match l with
  | [] => true
  | c :: l' =>
      if is_space c
      then eqc c " " && negb after_space && single_spaced true l'
      else single_spaced false l'
  end.

(** Whether [l] starts with white space *)
Definition starts_space (l : list ascii) : bool :=
  match l with c :: _ => is_space c | [] => false end.

(** A text in which white space occurs only as single spaces between
    other characters: none at the start, none at the end, no two in a row. *)
Definition tidy (s : string) : bool :=
  single_spaced true (chars s) && single_spaced true (rev (chars s)).

End Text.

(** ** Regular expressions (the part of Python's [re] the sources use)

    The patterns of the sources are kept as the strings they are written as
    and parsed by [parse]; [search] decides whether [re.search] finds a match.
    Only the existence of a match is modelled, so greedy and lazy quantifiers
    coincide and groups do not capture. *)

Module Re.
Import Text.

Inductive citem : Type :=
| CChar (c : ascii)
| CRange (lo hi : ascii)
| CSpace
| CDigit
| CWord.

Inductive regex : Type :=
| Eps
| Lit (c : ascii)
| Any                                  (* [.]: any character but a newline *)
| Cls (negated : bool) (items : list citem)
| Seq (r1 r2 : regex)
| Alt (r1 r2 : regex)
| Star (r : regex)
| Bound                                (* [\b] *)
| EndS.                                (* [$] *)

Definition Plus (r : regex) : regex := Seq r (Star r).
Definition Opt (r : regex) : regex := Alt r Eps.

Fixpoint power (r : regex) (n : nat) (tail : regex) : regex :=
  match n with
  | O => tail
  | S n' => Seq r (power r n' tail)
  end.

(** [r{lo,hi}] and [r{lo,}] *)
Definition Rep (r : regex) (lo : nat) (hi : option nat) : regex :=
  match hi with
  | None => power r lo (Star r)
  | Some h => power r lo (power (Opt r) (h - lo) Eps)
  end.

(** *** Parsing a pattern string *)

Definition escape_item (c : ascii) : citem :=
  if eqc c "d" then CDigit
  else if eqc c "s" then CSpace
  else if eqc c "w" then CWord
  else CChar c.

Definition escape_atom (c : ascii) : regex :=
  if eqc c "b" then Bound
  else match escape_item c with
       | CChar x => Lit x
       | it => Cls false [it]
       end.

Fixpoint parse_class (s : list ascii) (acc : list citem)
  : option (list citem * list ascii) :=
  match s with
  | [] => None
  | c :: rest =>
      if eqc c "]" then Some (rev acc, rest)
      else if eqc c "\" then
        match rest with
        | e :: rest' => parse_class rest' (escape_item e :: acc)
        | [] => None
        end
      else
        match rest with
        | d :: hi :: rest' =>
            if eqc d "-" && negb (eqc hi "]")
            then parse_class rest' (CRange c hi :: acc)
            else parse_class rest (CChar c :: acc)
        | _ => parse_class rest (CChar c :: acc)
        end
  end.

Fixpoint parse_nat (s : list ascii) (acc : option nat) : option nat * list ascii :=
  match s with
  | c :: rest =>
      if is_digit c
      then parse_nat rest (Some (10 * match acc with Some n => n | None => 0 end
                                 + (code c - 48)))
      else (acc, s)
  | [] => (acc, s)
  end.

(** The quantifier after an atom, if any; a trailing [?] (lazy) is dropped. *)
Definition parse_quant (r : regex) (s : list ascii) : regex * list ascii :=
  let lazy (p : regex * list ascii) :=
    match snd p with
    | q :: rest => if eqc q "?" then (fst p, rest) else p
    | [] => p
    end in
  match s with
  | c :: rest =>
      if eqc c "*" then lazy (Star r, rest)
      else if eqc c "+" then lazy (Plus r, rest)
      else if eqc c "?" then lazy (Opt r, rest)
      else if eqc c "{" then
        match parse_nat rest None with
        | (Some lo, c1 :: rest1) =>
            if eqc c1 "}" then lazy (Rep r lo (Some lo), rest1)
            else if eqc c1 "," then
              match parse_nat rest1 None with
              | (hi, c2 :: rest2) =>
                  if eqc c2 "}" then lazy (Rep r lo hi, rest2) else (r, s)
              | _ => (r, s)
              end
            else (r, s)
        | _ => (r, s)
        end
      else (r, s)
  | [] => (r, s)
  end.

Fixpoint parse_alt (fuel : nat) (s : list ascii) : option (regex * list ascii) :=
  match fuel with
  | O => None
  | S f =>
      match parse_seq f s with
      | Some (r1, rest) =>
          match rest with
          | c :: rest' =>
              if eqc c "|"
              then match parse_alt f rest' with
                   | Some (r2, rest2) => Some (Alt r1 r2, rest2)
                   | None => None
                   end
              else Some (r1, rest)
          | [] => Some (r1, rest)
          end
      | None => None
      end
  end
with parse_seq (fuel : nat) (s : list ascii) : option (regex * list ascii) :=
  match fuel with
  | O => None
  | S f =>
      match s with
      | [] => Some (Eps, s)
      | c :: _ =>
          if eqc c "|" || eqc c ")" then Some (Eps, s)
          else match parse_atom f s with
               | Some (a, rest) =>
                   let (q, rest1) := parse_quant a rest in
                   match parse_seq f rest1 with
                   | Some (r2, rest2) => Some (Seq q r2, rest2)
                   | None => None
                   end
               | None => None
               end
      end
  end
with parse_atom (fuel : nat) (s : list ascii) : option (regex * list ascii) :=
  match fuel with
  | O => None
  | S f =>
      match s with
      | [] => None
      | c :: rest =>
          if eqc c "(" then
            let body := match rest with
                        | q :: k :: rest' =>
                            if eqc q "?" && eqc k ":" then rest' else rest
                        | _ => rest
                        end in
            match parse_alt f body with
            | Some (r, c1 :: rest1) => if eqc c1 ")" then Some (r, rest1) else None
            | _ => None
            end
          else if eqc c "[" then
            match rest with
            | n :: rest' =>
                if eqc n "^"
                then match parse_class rest' [] with
                     | Some (items, rest1) => Some (Cls true items, rest1)
                     | None => None
                     end
                else match parse_class rest [] with
                     | Some (items, rest1) => Some (Cls false items, rest1)
                     | None => None
                     end
            | [] => None
            end
          else if eqc c "\" then
            match rest with
            | e :: rest' => Some (escape_atom e, rest')
            | [] => None
            end
          else if eqc c "." then Some (Any, rest)
          else if eqc c "$" then Some (EndS, rest)
          else if eqc c "*" || eqc c "+" || eqc c "?" then None
          else Some (Lit c, rest)
      end
  end.

(** [re.compile(pattern)]; [None] stands for [re.error]. *)
Definition parse (pattern : string) : option regex :=
  let s := chars pattern in
  match parse_alt (4 * List.length s + 4) s with
  | Some (r, []) => Some r
  | _ => None
  end.

(** *** Matching *)

(** A position in the subject: the character before it and what follows. *)
Definition pos : Type := option ascii * list ascii.

Definition word_before (p : pos) : bool :=
  match fst p with Some c => is_word c | None => false end.
Definition word_after (p : pos) : bool :=
  match snd p with c :: _ => is_word c | [] => false end.

(** [\b]: exactly one side is a word character *)
Definition at_boundary (p : pos) : bool := xorb (word_before p) (word_after p).

(** [$]: at the end, or before a final newline *)
Definition at_end (p : pos) : bool :=
  match snd p with
  | [] => true
  | [c] => (code c =? 10)%nat
  | _ => false
  end.

Definition item_has (it : citem) (c : ascii) : bool :=
  match it with
  | CChar x => eqc x c
  | CRange lo hi => (code lo <=? code c)%nat && (code c <=? code hi)%nat
  | CSpace => is_space c
  | CDigit => is_digit c
  | CWord => is_word c
  end.

Definition upper_char (c : ascii) : ascii :=
  if is_lower c then ascii_of_nat (code c - 32) else c.

Definition class_has (ignorecase : bool) (items : list citem) (c : ascii) : bool :=
  existsb (fun it => item_has it c
                     || (ignorecase && (item_has it (lower_char c)
                                        || item_has it (upper_char c)))) items.

Definition lit_eq (ignorecase : bool) (x c : ascii) : bool :=
  if ignorecase then eqc (lower_char x) (lower_char c) else eqc x c.

Definition advance (ok : ascii -> bool) (p : pos) : list pos :=
  match snd p with
  | c :: rest => if ok c then [(Some c, rest)] else []
  | [] => []
  end.

Definition left (p : pos) : nat := List.length (snd p).

(** Positions are suffixes of one subject, so the length left names them. *)
Fixpoint dedup (seen : list nat) (l : list pos) : list pos :=
  match l with
  | [] => []
  | p :: l' =>
      if existsb (Nat.eqb (left p)) seen then dedup seen l'
      else p :: dedup (left p :: seen) l'
  end.

(** All positions reached by repeating [step], each round consuming input. *)
Fixpoint iterate (step : pos -> list pos) (fuel : nat) (p : pos) : list pos :=
  p :: match fuel with
       | O => []
       | S f =>
           flat_map (iterate step f)
                    (filter (fun q => (left q <? left p)%nat) (step p))
       end.

(** The positions at which a match of [r] that starts at [p] can end. *)
Fixpoint ends (ignorecase : bool) (r : regex) (p : pos) : list pos :=
  match r with
  | Eps => [p]
  | Lit x => advance (lit_eq ignorecase x) p
  | Any => advance (fun c => negb (code c =? 10)%nat) p
  | Cls neg items => advance (fun c => xorb neg (class_has ignorecase items c)) p
  | Seq r1 r2 => dedup [] (flat_map (ends ignorecase r2) (ends ignorecase r1 p))
  | Alt r1 r2 => dedup [] (ends ignorecase r1 p ++ ends ignorecase r2 p)
  | Star r1 => dedup [] (iterate (ends ignorecase r1) (left p) p)
  | Bound => if at_boundary p then [p] else []
  | EndS => if at_end p then [p] else []
  end.

Definition matches_at (ignorecase : bool) (r : regex) (p : pos) : bool :=
  match ends ignorecase r p with [] => false | _ :: _ => true end.

Fixpoint search_from (ignorecase : bool) (r : regex)
         (prev : option ascii) (l : list ascii) : bool :=
  matches_at ignorecase r (prev, l)
  || match l with
     | [] => false
     | c :: l' => search_from ignorecase r (Some c) l'
     end.

(** [re.search(pattern, subject, flags)] as a truth value; a pattern that
    does not compile raises [re.error], here [None]. *)
Definition search (ignorecase : bool) (pattern subject : string) : option bool :=
  match parse pattern with
  | Some r => Some (search_from ignorecase r None (chars subject))
  | None => None
  end.

(** [re.sub(pattern, "", subject)] for a pattern whose matches have one
    possible end (a literal between two [\b]) and are not empty: the matches
    are found from the left and cut out. *)
Fixpoint delete_from (fuel : nat) (r : regex) (prev : option ascii)
         (l : list ascii) : list ascii :=
  match fuel with
  | O => l
  | S fuel' =>
      match l with
      | [] => []
      | c :: l' =>
          match ends false r (prev, l) with
          | q :: _ =>
              if (left q <? List.length l)%nat
              then delete_from fuel' r (fst q) (snd q)
              else c :: delete_from fuel' r (Some c) l'
          | [] => c :: delete_from fuel' r (Some c) l'
          end
      end
  end.

Definition delete_all (pattern : string) (l : list ascii) : list ascii :=
  match parse pattern with
  | Some r => delete_from (List.length l) r None l
  | None => l
  end.

(** [re.sub(r"\s+", " ", subject)]: every maximal run of white space
    becomes one space. *)
Fixpoint collapse_ws (in_run : bool) (l : list ascii) : list ascii :=
  match l with
  | [] => []
  | c :: l' =>
      if is_space c
      then if in_run then collapse_ws true l' else " "%char :: collapse_ws true l'
      else c :: collapse_ws false l'
  end.

End Re.

(** ** MD5 ([hashlib.md5], RFC 1321), for the cache key of the classifier *)

Module MD5.

Local Open Scope Z_scope.

Definition mask32 (x : Z) : Z := Z.land x 0xffffffff.

Definition rotl (x : Z) (c : Z) : Z :=
  mask32 (Z.lor (Z.shiftl x c) (Z.shiftr x (32 - c))).

Definition K : list Z :=
  [
    0xd76aa478; 0xe8c7b756; 0x242070db; 0xc1bdceee;
    0xf57c0faf; 0x4787c62a; 0xa8304613; 0xfd469501;
    0x698098d8; 0x8b44f7af; 0xffff5bb1; 0x895cd7be;
    0x6b901122; 0xfd987193; 0xa679438e; 0x49b40821;
    0xf61e2562; 0xc040b340; 0x265e5a51; 0xe9b6c7aa;
    0xd62f105d; 0x02441453; 0xd8a1e681; 0xe7d3fbc8;
    0x21e1cde6; 0xc33707d6; 0xf4d50d87; 0x455a14ed;
    0xa9e3e905; 0xfcefa3f8; 0x676f02d9; 0x8d2a4c8a;
    0xfffa3942; 0x8771f681; 0x6d9d6122; 0xfde5380c;
    0xa4beea44; 0x4bdecfa9; 0xf6bb4b60; 0xbebfbc70;
    0x289b7ec6; 0xeaa127fa; 0xd4ef3085; 0x04881d05;
    0xd9d4d039; 0xe6db99e5; 0x1fa27cf8; 0xc4ac5665;
    0xf4292244; 0x432aff97; 0xab9423a7; 0xfc93a039;
    0x655b59c3; 0x8f0ccc92; 0xffeff47d; 0x85845dd1;
    0x6fa87e4f; 0xfe2ce6e0; 0xa3014314; 0x4e0811a1;
    0xf7537e82; 0xbd3af235; 0x2ad7d2bb; 0xeb86d391 ].

Definition S : list Z :=
  [ 7; 12; 17; 22; 7; 12; 17; 22; 7; 12; 17; 22; 7; 12; 17; 22;
    5; 9; 14; 20; 5; 9; 14; 20; 5; 9; 14; 20; 5; 9; 14; 20;
    4; 11; 16; 23; 4; 11; 16; 23; 4; 11; 16; 23; 4; 11; 16; 23;
    6; 10; 15; 21; 6; 10; 15; 21; 6; 10; 15; 21; 6; 10; 15; 21 ].

Record state : Type := { A : Z; B : Z; C : Z; D : Z }.

Definition initial : state :=
  {| A := 0x67452301; B := 0xefcdab89; C := 0x98badcfe; D := 0x10325476 |}.

Definition not32 (x : Z) : Z := Z.lxor x 0xffffffff.

(** Round [i] of the compression of a block of sixteen words [M] *)
Definition round (M : list Z) (st : state) (i : nat) : state :=
  let iz := Z.of_nat i in
  let '(F, g) :=
    if iz <? 16 then
      (Z.lor (Z.land (B st) (C st)) (Z.land (not32 (B st)) (D st)), iz)
    else if iz <? 32 then
      (Z.lor (Z.land (D st) (B st)) (Z.land (not32 (D st)) (C st)),
       (5 * iz + 1) mod 16)
    else if iz <? 48 then
      (Z.lxor (B st) (Z.lxor (C st) (D st)), (3 * iz + 5) mod 16)
    else
      (Z.lxor (C st) (Z.lor (B st) (not32 (D st))), (7 * iz) mod 16) in
  let F := mask32 (F + A st + nth i K 0 + nth (Z.to_nat g) M 0) in
  {| A := D st; D := C st; C := B st;
     B := mask32 (B st + rotl F (nth i S 0)) |}.

Definition compress (st : state) (M : list Z) : state :=
  let st' := fold_left (round M) (seq 0 64) st in
  {| A := mask32 (A st + A st'); B := mask32 (B st + B st');
     C := mask32 (C st + C st'); D := mask32 (D st + D st') |}.

(** Little-endian bytes of a number, and back *)
Fixpoint le_bytes (n : nat) (x : Z) : list Z :=
  match n with
  | O => []
  | Datatypes.S n' => Z.land x 0xff :: le_bytes n' (Z.shiftr x 8)
  end.

Fixpoint le_word (bytes : list Z) : Z :=
  match bytes with
  | [] => 0
  | b :: bytes' => b + 256 * le_word bytes'
  end.

(** The message with its padding: the bit 1, zeros up to 56 modulo 64, and
    the length in bits on eight bytes. *)
Definition pad (message : list Z) : list Z :=
  let len := Z.of_nat (List.length message) in
  let zeros := Z.to_nat ((55 - len) mod 64) in
  message ++ [0x80] ++ repeat 0 zeros ++ le_bytes 8 (8 * len).

Fixpoint words (fuel : nat) (bytes : list Z) : list Z :=
  match fuel with
  | O => []
  | Datatypes.S fuel' =>
      match bytes with
      | [] => []
      | _ => le_word (firstn 4 bytes) :: words fuel' (skipn 4 bytes)
      end
  end.

Fixpoint blocks (fuel : nat) (ws : list Z) : list (list Z) :=
  match fuel with
  | O => []
  | Datatypes.S fuel' =>
      match ws with
      | [] => []
      | _ => firstn 16 ws :: blocks fuel' (skipn 16 ws)
      end
  end.

Definition digest (message : list Z) : list Z :=
  let bytes := pad message in
  let n := List.length bytes in
  let st := fold_left compress (blocks n (words n bytes)) initial in
  le_bytes 4 (A st) ++ le_bytes 4 (B st) ++ le_bytes 4 (C st) ++ le_bytes 4 (D st).

Definition hex_digit (d : Z) : ascii :=
  ascii_of_nat (Z.to_nat (if d <? 10 then 48 + d else 87 + d)).

Definition hex (bytes : list Z) : string :=
  Text.text (flat_map (fun b => [hex_digit (b / 16); hex_digit (b mod 16)]) bytes).

(** [hashlib.md5(s.encode()).hexdigest()] for a string of ASCII characters *)
Definition hexdigest (s : string) : string :=
  hex (digest (map (fun c => Z.of_nat (Text.code c)) (Text.chars s))).

End MD5.

(** ** Exceptions *)

(** The exceptions that the modelled code can raise. *)
Inductive exn : Type :=
| TypeError (msg : string)
| AttributeError (msg : string)
| RuntimeError (msg : string).

(** [exn + _] as a monad: [x ← m; k] runs [k] unless [m] raised. *)
#[global] Instance exn_bind : MBind (sum exn) :=
  fun A B (f : A -> exn + B) (m : exn + A) =>
    match m with
    | inl e => inl e
    | inr a => f a
    end.

(** ** Rational scores *)

(** [max(a, b)] on floats: [b] when it is greater, else [a] *)
Definition pymax (a b : Q) : Q := if Qle_bool b a then a else b.

Definition Qlt_bool (x y : Q) : bool := negb (Qle_bool y x).

(** [min(a, b)] on floats: [b] when it is less, else [a] *)
Definition pymin (a b : Q) : Q := if Qlt_bool b a then b else a.

(** ** The intent classifier ([ai/voice_classifier.py]) *)

Module Classifier.
Import Text.

Inductive CommandCategory : Type :=
| GENERAL_CONVERSATION
| DOCUMENT_GENERATION
| EMAIL_MANAGEMENT
| CALENDAR_SCHEDULING
| WEB_SEARCH
| SYSTEM_CONTROL
| FILE_MANAGEMENT
| TASK_MANAGEMENT
| WEATHER_INFO
| NEWS_BRIEFING
| CALCULATIONS
| TRANSLATIONS
| REMINDERS
| UNKNOWN.

#[global] Instance CommandCategory_eq_dec : EqDecision CommandCategory.
Proof. solve_decision. Defined.

(** The members in declaration order, as [for category in CommandCategory]
    visits them. *)
Definition all_categories : list CommandCategory :=
  [ GENERAL_CONVERSATION; DOCUMENT_GENERATION; EMAIL_MANAGEMENT;
    CALENDAR_SCHEDULING; WEB_SEARCH; SYSTEM_CONTROL; FILE_MANAGEMENT;
    TASK_MANAGEMENT; WEATHER_INFO; NEWS_BRIEFING; CALCULATIONS; TRANSLATIONS;
    REMINDERS; UNKNOWN ].

Definition value (c : CommandCategory) : string :=
  match c with
  | GENERAL_CONVERSATION => "general_conversation"
  | DOCUMENT_GENERATION => "document_generation"
  | EMAIL_MANAGEMENT => "email_management"
  | CALENDAR_SCHEDULING => "calendar_scheduling"
  | WEB_SEARCH => "web_search"
  | SYSTEM_CONTROL => "system_control"
  | FILE_MANAGEMENT => "file_management"
  | TASK_MANAGEMENT => "task_management"
  | WEATHER_INFO => "weather_info"
  | NEWS_BRIEFING => "news_briefing"
  | CALCULATIONS => "calculations"
  | TRANSLATIONS => "translations"
  | REMINDERS => "reminders"
  | UNKNOWN => "unknown"
  end.

(** [CommandCategory(name)]: the member with that value, if there is one. *)
Definition of_value (name : string) : option CommandCategory :=
  find (fun c => String.eqb (value c) name) all_categories.

Inductive IntentConfidence : Type := HIGH | MEDIUM | LOW | VERY_LOW.

(** A parameter value: a string, or what [re.findall] returns (a list of
    strings, or of tuples of strings for a pattern with several groups). *)
Inductive pyval : Type :=
| VStr (s : string)
| VStrs (l : list string)
| VTuples (l : list (list string)).

Record ClassificationResult : Type := {
  category : CommandCategory;
  intent : string;
  confidence : Q;
  parameters : gmap string pyval;
  context_used : bool;
  preprocessing_time : Q;
  classification_time : Q;
  suggestions : list string;
  raw_text : string;
  normalized_text : string
}.

Definition confidence_level (self : ClassificationResult) : IntentConfidence :=
  if Qlt_bool (8 # 10) (confidence self) then HIGH
  else if Qlt_bool (5 # 10) (confidence self) then MEDIUM
  else if Qlt_bool (3 # 10) (confidence self) then LOW
  else VERY_LOW.

Definition requires_confirmation (self : ClassificationResult) : bool :=
  Qlt_bool (confidence self) (7 # 10)
  || bool_decide (category self = UNKNOWN).

Record Interaction : Type := {
  i_timestamp : Q;
  i_user_input : string;
  i_bot_response : string;
  i_category : string;
  i_parameters : gmap string pyval
}.

Record ConversationContext : Type := {
  user_id : string;
  session_id : string;
  conversation_history : list Interaction;
  current_topic : option string;
  last_command_category : option CommandCategory;
  active_parameters : gmap string pyval;
  context_timestamp : Q;
  preferences : gmap string pyval
}.

Definition new_context (user session : string) (now : Q) : ConversationContext :=
  {| user_id := user; session_id := session; conversation_history := [];
     current_topic := None; last_command_category := None;
     active_parameters := ∅; context_timestamp := now; preferences := ∅ |}.

Record PatternGroup : Type := {
  patterns : list string;
  examples : list string;
  parameter_names : list string
}.

(** [_initialize_command_patterns] *)
Definition command_patterns (c : CommandCategory) : option (list PatternGroup) :=
  match c with
  | DOCUMENT_GENERATION => Some [
      {| patterns := [
           "\b(create|generate|make|write)\s+(document|doc|pdf|report|letter|memo)\b";
           "\bdocument\s+(about|for|on)\b";
           "\bwrite\s+me\s+a\b";
           "\bcreate\s+a\s+(pdf|word|doc)\b" ];
         examples := [
           "create a document about artificial intelligence";
           "generate a PDF report on sales data";
           "write me a letter to the customer";
           "make a document for the meeting" ];
         parameter_names := ["content_topic"; "format"; "template"; "audience"] |} ]
  | EMAIL_MANAGEMENT => Some [
      {| patterns := [
           "\b(send|compose|write)\s+(email|mail|message)\b";
           "\bemail\s+(to|about)\b";
           "\bsend\s+.*\s+to\s+[\w@.]+\b";
           "\bcompose\s+a\s+(message|mail)\b" ];
         examples := [
           "send an email to john@example.com";
           "compose a message about the project";
           "write an email to the team";
           "send mail to support" ];
         parameter_names :=
           ["recipient"; "subject"; "content"; "priority"; "attachments"] |} ]
  | CALENDAR_SCHEDULING => Some [
      {| patterns := [
           "\b(schedule|book|create|add)\s+(meeting|appointment|event)\b";
           "\bmeet\s+with\b";
           "\b(calendar|schedule)\s+(for|on)\b";
           "\bset\s+up\s+a\s+(meeting|call)\b" ];
         examples := [
           "schedule a meeting with the team";
           "book an appointment for tomorrow";
           "create an event for the conference";
           "meet with Sarah at 3 PM" ];
         parameter_names :=
           ["date_time"; "duration"; "attendees"; "location"; "agenda"] |} ]
  | WEB_SEARCH => Some [
      {| patterns := [
           "\b(search|find|look up|google)\s+(for|about)?\b";
           "\bwhat\s+is\b";
           "\bhow\s+to\b";
           "\btell\s+me\s+about\b" ];
         examples := [
           "search for Python tutorials";
           "what is machine learning";
           "find information about climate change";
           "look up the weather forecast" ];
         parameter_names := ["query"; "search_type"; "num_results"] |} ]
  | SYSTEM_CONTROL => Some [
      {| patterns := [
           "\b(open|close|launch|start|stop|quit)\s+(app|application|program)\b";
           "\b(increase|decrease|set)\s+(volume|brightness)\b";
           "\b(turn\s+(on|off)|enable|disable)\b";
           "\bsystem\s+(restart|shutdown)\b" ];
         examples := [
           "open the calculator app";
           "increase the volume";
           "turn off bluetooth";
           "close Safari" ];
         parameter_names := ["action"; "target"; "value"] |} ]
  | CALCULATIONS => Some [
      {| patterns := [
           "\b(calculate|compute|what\s+is)\s+[\d\+\-\*\/\s]+\b";
           "\b\d+\s*[\+\-\*\/]\s*\d+\b";
           "\bmath\s+(problem|calculation)\b";
           "\bconvert\s+\d+\b" ];
         examples := [
           "calculate 15 plus 27";
           "what is 100 divided by 4";
           "compute the square root of 64";
           "convert 100 USD to EUR" ];
         parameter_names := ["expression"; "operation"; "units"] |} ]
  | REMINDERS => Some [
      {| patterns := [
           "\b(remind|alert)\s+me\b";
           "\bset\s+(reminder|alarm)\b";
           "\bdont?\s+forget\b";
           "\bremember\s+to\b" ];
         examples := [
           "remind me to call mom";
           "set a reminder for the meeting";
           "don't forget to buy groceries";
           "alert me in 30 minutes" ];
         parameter_names := ["task"; "time"; "frequency"; "priority"] |} ]
  | GENERAL_CONVERSATION => Some [
      {| patterns := [
           "\b(hello|hi|hey|good\s+(morning|afternoon|evening))\b";
           "\bhow\s+are\s+you\b";
           "\bwhat\s+can\s+you\s+do\b";
           "\btell\s+me\s+a\s+(joke|story)\b" ];
         examples := [
           "hello there";
           "how are you doing";
           "what can you help me with";
           "tell me a joke" ];
         parameter_names := ["greeting_type"; "conversation_topic"] |} ]
  | _ => None
  end.

Definition filler_words : list string :=
  [ "um"; "uh"; "ah"; "like"; "you know"; "well"; "so"; "actually";
    "basically"; "totally"; "literally"; "right"; "okay"; "alright" ].

Definition contractions : list (string * string) :=
  [ ("won't", "will not"); ("can't", "cannot"); ("n't", " not");
    ("'re", " are"); ("'ve", " have"); ("'ll", " will"); ("'d", " would");
    ("'m", " am"); ("it's", "it is"); ("that's", "that is") ].

(** [preprocess_text] *)
Definition preprocess_text (text0 : string) : string :=
  let t := strip_chars (lower_chars (chars text0)) in
  let t := fold_left
             (fun t filler => Re.delete_all ("\b" ++ filler ++ "\b") t)
             filler_words t in
  let t := fold_left
             (fun t ce => replace_chars (List.length t) (chars (fst ce))
                                        (chars (snd ce)) t)
             contractions t in
  text (strip_chars (Re.collapse_ws false t)).

(** [_generate_suggestions] *)
Definition has_keyword (words keywords : list string) : bool :=
  existsb (fun word => existsb (String.eqb word) words) keywords.

Definition _generate_suggestions (normalized : string) : list string :=
  let keywords := split normalized in
  let s1 := if has_keyword ["create"; "make"; "generate"; "write"] keywords
            then [ "Try: 'Create a document about [topic]'";
                   "Try: 'Generate a PDF report on [subject]'" ] else [] in
  let s2 := if has_keyword ["send"; "email"; "mail"] keywords
            then [ "Try: 'Send an email to [recipient] about [subject]'";
                   "Try: 'Compose a message to the team'" ] else [] in
  let s3 := if has_keyword ["search"; "find"; "look"] keywords
            then [ "Try: 'Search for information about [topic]'";
                   "Try: 'Find details on [subject]'" ] else [] in
  let s4 := if has_keyword ["schedule"; "meeting"; "appointment"] keywords
            then [ "Try: 'Schedule a meeting with [person] tomorrow'";
                   "Try: 'Book an appointment for [date/time]'" ] else [] in
  let suggestions := s1 ++ s2 ++ s3 ++ s4 in
  let suggestions :=
    match suggestions with
    | [] => [ "Try being more specific about what you want to do";
              "Use action words like 'create', 'send', 'search', or 'schedule'";
              "Include details like recipients, topics, or dates" ]
    | _ => suggestions
    end in
  firstn 3 suggestions.

(** [calculate_pattern_confidence]: a pattern that matches counts 0.8; a
    pattern that does not compile is skipped. *)
Definition calculate_pattern_confidence (normalized : string)
           (c : CommandCategory) : Q :=
  match command_patterns c with
  | None => 0%Q
  | Some groups =>
      fold_left
        (fun max_confidence pattern =>
           match Re.search true pattern normalized with
           | Some true => pymax max_confidence (8 # 10)
           | _ => max_confidence
           end)
        (flat_map patterns groups) 0%Q
  end.

Record VoiceClassifier : Type := {
  context_cache : gmap string ConversationContext;
  classification_cache : gmap string ClassificationResult;
  cache_ttl : Q;
  total_classifications : nat;
  cache_hits : nat;
  classification_times : list Q
}.

(** [VoiceClassifier.__init__] *)
Definition init : VoiceClassifier :=
  {| context_cache := ∅; classification_cache := ∅; cache_ttl := 3600;
     total_classifications := 0; cache_hits := 0; classification_times := [] |}.

Section Oracles.

(** What the classifier takes from outside the repository:
    - [tfidf_max_similarity examples text] is the greatest cosine similarity
      of [text] to the [examples] under the TF-IDF vectorizer, and 0 when the
      vectorizer raises (the [except] branch of
      [calculate_similarity_confidence]);
    - [regex_parameters category text] is the dictionary that the branch of
      [extract_parameters] for [category] fills from its capture groups;
    - [clock k] is the value of the [k]-th reading of the wall clock
      ([time.time()], [datetime.now()]), in seconds. *)
Variable tfidf_max_similarity : list string -> string -> Q.
Variable regex_parameters : CommandCategory -> string -> gmap string pyval.
Variable clock : nat -> Q.

(** [extract_parameters]: five categories have a branch, the others leave
    the dictionary empty. *)
Definition extract_parameters (normalized : string) (c : CommandCategory)
  : gmap string pyval :=
  match c with
  | EMAIL_MANAGEMENT | DOCUMENT_GENERATION | CALENDAR_SCHEDULING
  | WEB_SEARCH | CALCULATIONS => regex_parameters c normalized
  | _ => ∅
  end.

(** [calculate_similarity_confidence] *)
Definition calculate_similarity_confidence (normalized : string)
           (c : CommandCategory) : Q :=
  match command_patterns c with
  | None => 0%Q
  | Some groups =>
      match flat_map examples groups with
      | [] => 0%Q
      | exs => tfidf_max_similarity exs normalized
      end
  end.

Definition cache_key (text0 user session : string) : string :=
  MD5.hexdigest text0 ++ "_" ++ user ++ "_" ++ session.

Definition context_key (user session : string) : string :=
  user ++ "_" ++ session.

(** The best match so far in the loop over the categories. *)
Record Best : Type := {
  best_category : CommandCategory;
  best_confidence : Q;
  best_parameters : gmap string pyval
}.

(** The score of one category: 0.6 pattern + 0.4 similarity, and 0.1 more
    when the context's last category is this one. *)
Definition combined_confidence (normalized : string) (use_context : bool)
           (context : ConversationContext) (c : CommandCategory) : Q :=
  let pattern_confidence := calculate_pattern_confidence normalized c in
  let similarity_confidence := calculate_similarity_confidence normalized c in
  let combined :=
    (pattern_confidence * (6 # 10) + similarity_confidence * (4 # 10))%Q in
  if use_context && bool_decide (last_command_category context = Some c)
  then (combined + (1 # 10))%Q
  else combined.

(** One round of [for category in CommandCategory] *)
Definition try_category (normalized : string) (use_context : bool)
           (context : ConversationContext) (best : Best) (c : CommandCategory)
  : Best :=
  if bool_decide (c = UNKNOWN) then best
  else
    let combined := combined_confidence normalized use_context context c in
    if Qlt_bool (best_confidence best) combined
    then {| best_category := c; best_confidence := combined;
            best_parameters := extract_parameters normalized c |}
    else best.

Definition best_match (normalized : string) (use_context : bool)
           (context : ConversationContext) : Best :=
  fold_left (try_category normalized use_context context) all_categories
            {| best_category := UNKNOWN; best_confidence := 0;
               best_parameters := ∅ |}.

(** The cached result under [key] when the freshness test of the cache
    passes at clock reading [now]. The test compares [now] less the
    [classification_time] of the cached result (the time the classification
    took) with [cache_ttl]. *)
Definition cache_lookup (self : VoiceClassifier) (key : string) (now : Q)
  : option ClassificationResult :=
  match classification_cache self !! key with
  | Some cached_result =>
      if Qlt_bool (now - classification_time cached_result) (cache_ttl self)
      then Some cached_result
      else None
  | None => None
  end.

(** [classify_command]. [k] is the number of clock readings taken so far;
    the result carries the number after the call. *)
Definition classify_command (self : VoiceClassifier) (k : nat)
           (text0 user session : string) (use_context : bool)
  : ClassificationResult * VoiceClassifier * nat :=
  let start_time := clock k in
  let key := cache_key text0 user session in
  match cache_lookup self key (clock (k + 1)) with
  | Some cached_result =>
      (cached_result,
       {| context_cache := context_cache self;
          classification_cache := classification_cache self;
          cache_ttl := cache_ttl self;
          total_classifications := total_classifications self;
          cache_hits := S (cache_hits self);
          classification_times := classification_times self |},
       k + 2)
  | None =>
      let k1 := match classification_cache self !! key with
                | Some _ => k + 2
                | None => k + 1
                end in
      (* preprocessing; [preprocess_text] reads the clock twice itself *)
      let preprocessing_start := clock k1 in
      let normalized := preprocess_text text0 in
      let preprocessing_time := (clock (k1 + 3) - preprocessing_start)%Q in
      (* get or create the conversation context *)
      let ckey := context_key user session in
      let '(context, k2) :=
        match context_cache self !! ckey with
        | Some context => (context, k1 + 4)
        | None => (new_context user session (clock (k1 + 4)), k1 + 5)
        end in
      (* classification *)
      let classification_start := clock k2 in
      let best := best_match normalized use_context context in
      let classification_time := (clock (k2 + 1) - classification_start)%Q in
      let total_time := (clock (k2 + 2) - start_time)%Q in
      let low := Qlt_bool (best_confidence best) (5 # 10) in
      let result :=
        {| category := best_category best;
           intent := value (best_category best) ++ "_intent";
           confidence := best_confidence best;
           parameters := best_parameters best;
           context_used := use_context;
           preprocessing_time := preprocessing_time;
           classification_time := classification_time;
           suggestions := if low then _generate_suggestions normalized else [];
           raw_text := text0;
           normalized_text := normalized |} in
      (* update the context, which the context cache holds *)
      let context' :=
        {| user_id := user_id context;
           session_id := session_id context;
           conversation_history := conversation_history context;
           current_topic := current_topic context;
           last_command_category := Some (best_category best);
           active_parameters := best_parameters best ∪ active_parameters context;
           context_timestamp := clock (k2 + 3);
           preferences := preferences context |} in
      (result,
       {| context_cache := <[ckey := context']> (context_cache self);
          classification_cache := <[key := result]> (classification_cache self);
          cache_ttl := cache_ttl self;
          total_classifications := S (total_classifications self);
          cache_hits := cache_hits self;
          classification_times := classification_times self ++ [total_time] |},
       k2 + 4)
  end.

End Oracles.

(** [l[-n:]] for an integer [n]: the last [n] elements; all of [l] for
    [n = 0] (the slice starts at index 0 then); and for a negative [n] what
    follows the first [-n] elements. *)
Definition slice_last {A : Type} (l : list A) (n : Z) : list A :=
  if (0 <? n)%Z then skipn (List.length l - Z.to_nat n) l
  else skipn (Z.to_nat (- n)) l.

(** [ConversationContext.add_interaction] at clock reading [now]: the
    interaction is appended with a copy of the active parameters, and the
    history is cut to its last 20 entries. *)
Definition add_interaction (self : ConversationContext) (now : Q)
           (user_input bot_response : string) (c : CommandCategory)
  : ConversationContext :=
  let history :=
    conversation_history self
    ++ [ {| i_timestamp := now; i_user_input := user_input;
            i_bot_response := bot_response; i_category := value c;
            i_parameters := active_parameters self |} ] in
  {| user_id := user_id self; session_id := session_id self;
     conversation_history :=
       if (20 <? List.length history)%nat then slice_last history 20
       else history;
     current_topic := current_topic self;
     last_command_category := last_command_category self;
     active_parameters := active_parameters self;
     context_timestamp := context_timestamp self;
     preferences := preferences self |}.

(** [ConversationContext.get_recent_context] *)
Definition get_recent_context (self : ConversationContext) (max_items : Z)
  : list Interaction :=
  match conversation_history self with
  | [] => []
  | history => slice_last history max_items
  end.

(** [ConversationContext.is_context_expired] at clock reading [now] *)
Definition is_context_expired (self : ConversationContext) (now : Q)
           (timeout_minutes : Z) : bool :=
  Qlt_bool (inject_Z timeout_minutes * 60) (now - context_timestamp self).

(** [VoiceClassifier.get_context] *)
Definition get_context (self : VoiceClassifier) (user session : string)
  : option ConversationContext :=
  context_cache self !! context_key user session.

Definition set_contexts (self : VoiceClassifier)
           (contexts : gmap string ConversationContext) : VoiceClassifier :=
  {| context_cache := contexts;
     classification_cache := classification_cache self;
     cache_ttl := cache_ttl self;
     total_classifications := total_classifications self;
     cache_hits := cache_hits self;
     classification_times := classification_times self |}.

(** [VoiceClassifier.update_context] *)
Definition update_context (self : VoiceClassifier) (now : Q)
           (user session user_input bot_response : string)
           (c : CommandCategory) : VoiceClassifier :=
  match context_cache self !! context_key user session with
  | Some context =>
      set_contexts self
        (<[context_key user session :=
             add_interaction context now user_input bot_response c]>
           (context_cache self))
  | None => self
  end.

(** [VoiceClassifier.clear_context] *)
Definition clear_context (self : VoiceClassifier) (user session : string)
  : VoiceClassifier :=
  set_contexts self (delete (context_key user session) (context_cache self)).

(** [VoiceClassifier.cleanup_expired_contexts] at clock reading [now] *)
Definition cleanup_expired_contexts (self : VoiceClassifier) (now : Q)
           (timeout_minutes : Z) : VoiceClassifier :=
  let expired_keys :=
    (List.filter (fun entry => is_context_expired (snd entry) now timeout_minutes)
                 (map_to_list (context_cache self))).*1 in
  set_contexts self
    (fold_left (fun contexts key => delete key contexts) expired_keys
               (context_cache self)).

(** The [cache_hit_rate] of [get_performance_metrics] *)
Definition cache_hit_rate (self : VoiceClassifier) : Q :=
  if (0 <? total_classifications self)%nat
  then (inject_Z (Z.of_nat (cache_hits self))
        / inject_Z (Z.of_nat (total_classifications self)))%Q
  else 0%Q.

(** What the loop over the categories [cs] leaves as the best match [b],
    for the scores the categories get: either no category scores above 0
    and [b] is the initial match (unknown, 0, no parameters); or [b] is the
    first category of [cs] with the greatest score, which is above 0: the
    categories before it score less, the ones after it do not score more. *)
Definition first_maximum (score : CommandCategory -> Q)
           (extract : CommandCategory -> gmap string pyval)
           (cs : list CommandCategory) (b : Best) : Prop :=
  (best_category b = UNKNOWN
   /\ best_confidence b = 0%Q
   /\ best_parameters b = ∅
   /\ Forall (fun c => c <> UNKNOWN -> (score c <= 0)%Q) cs)
  \/ (exists before after,
        cs = before ++ best_category b :: after
        /\ best_category b <> UNKNOWN
        /\ best_confidence b = score (best_category b)
        /\ (0 < score (best_category b))%Q
        /\ best_parameters b = extract (best_category b)
        /\ Forall (fun c => c <> UNKNOWN ->
                            (score c < score (best_category b))%Q) before
        /\ Forall (fun c => c <> UNKNOWN ->
                            (score c <= score (best_category b))%Q) after).

(** A result as [classify_command] computes it: the confidence lies between
    0 and 0.98, there are suggestions (at most three) exactly when the
    confidence is below 0.5, the normalized text is the raw text normalized,
    the intent is named after the category, and an unknown category comes
    with confidence 0 and without parameters. *)
Definition well_formed (r : ClassificationResult) : Prop :=
  (0 <= confidence r)%Q /\ (confidence r <= 98 # 100)%Q
  /\ (suggestions r <> [] <-> (confidence r < 5 # 10)%Q)
  /\ (List.length (suggestions r) <= 3)%nat
  /\ normalized_text r = preprocess_text (raw_text r)
  /\ intent r = (value (category r) ++ "_intent")%string
  /\ (category r = UNKNOWN -> confidence r = 0%Q /\ parameters r = ∅).

(** A property holds of every result in the classification cache. *)
Definition cached_all (P : ClassificationResult -> Prop)
           (self : VoiceClassifier) : Prop :=
  forall key r, classification_cache self !! key = Some r -> P r.

(** A request to [classify_command]: text, user, session, [use_context] *)
Definition Request : Type := string * string * string * bool.

(** The classifier and the clock position after a sequence of requests *)
Fixpoint classify_all (similarity : list string -> string -> Q)
         (captures : CommandCategory -> string -> gmap string pyval)
         (clock : nat -> Q) (self : VoiceClassifier) (k : nat)
         (requests : list Request) : VoiceClassifier * nat :=
  match requests with
  | [] => (self, k)
  | (text0, user, session, use_context) :: requests' =>
      let '(_, self', k') :=
        classify_command similarity captures clock self k
                         text0 user session use_context in
      classify_all similarity captures clock self' k' requests'
  end.

(** Every cached result is too old for the freshness test at the clock
    position [k]: the time to live is the initial one, and the time the
    classification took, plus the time to live, is not after the reading. *)
Definition stale (clock : nat -> Q) (self : VoiceClassifier) (k : nat) : Prop :=
  cache_ttl self = 3600%Q
  /\ forall key r,
      classification_cache self !! key = Some r ->
      (classification_time r + 3600 <= clock k)%Q.

(** *** Surroundings to run the classifier in

    [unfitted] is the similarity under a vectorizer that was never fitted
    ([initialize] was not awaited): the transformation raises and the
    [except] branch of [calculate_similarity_confidence] answers 0.0.
    [no_captures] stands for capture groups that find nothing.
    [wall_clock] is a clock that starts 1,700,000,000 seconds after the
    epoch, a time of the present day; a reading takes a
    millisecond. *)
Definition unfitted (exs : list string) (normalized : string) : Q := 0.
Definition no_captures (c : CommandCategory) (normalized : string)
  : gmap string pyval := ∅.
Definition wall_clock (k : nat) : Q :=
  (1700000000 + inject_Z (Z.of_nat k) / 1000)%Q.

End Classifier.

(** ** The workflow engine ([ai/advanced_voice_processor.py]) *)

Module Workflow.
Import Text.

Inductive CommandComplexity : Type :=
| SIMPLE | COMPOUND | SEQUENTIAL | CONDITIONAL | ITERATIVE.

Inductive WorkflowStatus : Type :=
| PENDING | RUNNING | WAITING_INPUT | COMPLETED | FAILED | CANCELLED.

Inductive ParameterType : Type :=
| LITERAL | CONTEXTUAL | INFERRED | PROMPTED | DEFAULT.

#[global] Instance CommandComplexity_eq_dec : EqDecision CommandComplexity.
Proof. solve_decision. Defined.
#[global] Instance WorkflowStatus_eq_dec : EqDecision WorkflowStatus.
Proof. solve_decision. Defined.
#[global] Instance ParameterType_eq_dec : EqDecision ParameterType.
Proof. solve_decision. Defined.

Definition complexity_value (c : CommandComplexity) : string :=
  match c with
  | SIMPLE => "simple" | COMPOUND => "compound" | SEQUENTIAL => "sequential"
  | CONDITIONAL => "conditional" | ITERATIVE => "iterative"
  end.

Definition status_value (s : WorkflowStatus) : string :=
  match s with
  | PENDING => "pending" | RUNNING => "running"
  | WAITING_INPUT => "waiting_input" | COMPLETED => "completed"
  | FAILED => "failed" | CANCELLED => "cancelled"
  end.

Record AdvancedParameter : Type := {
  name : string;
  value : option Classifier.pyval;
  type : ParameterType;
  confidence : Q;
  source : string;
  alternatives : list Classifier.pyval;
  validation_status : string;
  required : bool;
  description : string
}.

(** The constructor with the defaults of the dataclass. *)
Definition mk_parameter (n : string) (v : option Classifier.pyval)
           (t : ParameterType) (c : Q) (src descr : string) : AdvancedParameter :=
  {| name := n; value := v; type := t; confidence := c; source := src;
     alternatives := []; validation_status := "pending"; required := true;
     description := descr |}.

Record CommandStep : Type := {
  step_id : string;
  command : string;
  category : Classifier.CommandCategory;
  parameters : list (string * AdvancedParameter);
  dependencies : list string;
  step_status : WorkflowStatus;
  result : option string;
  error : option string;
  retry_count : nat;
  max_retries : nat;
  timeout_seconds : nat;
  started_at : option Q;
  completed_at : option Q
}.

Definition mk_step (id cmd : string) (cat : Classifier.CommandCategory)
           (params : list (string * AdvancedParameter)) : CommandStep :=
  {| step_id := id; command := cmd; category := cat; parameters := params;
     dependencies := []; step_status := PENDING; result := None; error := None;
     retry_count := 0; max_retries := 3; timeout_seconds := 30;
     started_at := None; completed_at := None |}.

Record MultiStepWorkflow : Type := {
  workflow_id : string;
  user_id : string;
  session_id : string;
  original_command : string;
  complexity : CommandComplexity;
  steps : list CommandStep;
  current_step : nat;
  status : WorkflowStatus;
  created_at : Q;
  updated_at : Q;
  completion_percentage : Q;
  total_estimated_time : Q;
  actual_time : Q
}.

(** [get_current_step] *)
Definition get_current_step (w : MultiStepWorkflow) : option CommandStep :=
  steps w !! current_step w.

(** [get_completed_steps] *)
Definition get_completed_steps (w : MultiStepWorkflow) : list CommandStep :=
  List.filter (fun step => bool_decide (step_status step = COMPLETED)) (steps w).

(** [get_pending_steps] *)
Definition get_pending_steps (w : MultiStepWorkflow) : list CommandStep :=
  List.filter (fun step => bool_decide (step_status step = PENDING)) (steps w).

Definition Qnat (n : nat) : Q := inject_Z (Z.of_nat n).

(** [update_progress]: [(completed / total) * 100], or 0 without steps. *)
Definition update_progress (w : MultiStepWorkflow) (now : Q) : MultiStepWorkflow :=
  let completed := List.length (get_completed_steps w) in
  let total := List.length (steps w) in
  {| workflow_id := workflow_id w; user_id := user_id w;
     session_id := session_id w; original_command := original_command w;
     complexity := complexity w; steps := steps w;
     current_step := current_step w; status := status w;
     created_at := created_at w; updated_at := now;
     completion_percentage :=
       if (0 <? total)%nat then (Qnat completed / Qnat total * 100)%Q else 0%Q;
     total_estimated_time := total_estimated_time w;
     actual_time := actual_time w |}.

Record IntentResolutionResult : Type := {
  primary_intent : string;
  intent_confidence : Q;
  alternative_intents : list (string * Q);
  intent_complexity : CommandComplexity;
  estimated_steps : nat;
  parameters_needed : list string;
  context_dependencies : list string;
  workflow_template : option string;
  resolution_time : Q
}.

(** [_initialize_workflow_templates]: the steps of each template, as
    (command, category value). *)
Definition workflow_templates (template : string)
  : option (list (string * string)) :=
  if String.eqb template "document_creation_workflow" then Some
    [ ("gather_document_requirements", "document_generation");
      ("create_document_outline", "document_generation");
      ("generate_document_content", "document_generation");
      ("format_document", "document_generation");
      ("review_and_finalize", "document_generation") ]
  else if String.eqb template "email_campaign_workflow" then Some
    [ ("define_email_audience", "email_management");
      ("create_email_template", "email_management");
      ("personalize_email_content", "email_management");
      ("schedule_email_delivery", "email_management");
      ("track_email_metrics", "email_management") ]
  else if String.eqb template "meeting_coordination_workflow" then Some
    [ ("identify_meeting_participants", "calendar_scheduling");
      ("find_available_time_slots", "calendar_scheduling");
      ("send_meeting_invites", "calendar_scheduling");
      ("prepare_meeting_agenda", "document_generation");
      ("setup_meeting_room", "system_control") ]
  else if String.eqb template "research_compilation_workflow" then Some
    [ ("define_research_scope", "web_search");
      ("conduct_web_research", "web_search");
      ("analyze_research_findings", "general_conversation");
      ("compile_research_report", "document_generation");
      ("create_presentation_summary", "document_generation") ]
  else None.

(** [any(re.search(pattern, text, re.IGNORECASE) for pattern in patterns)] *)
Definition any_search (patterns : list string) (text0 : string) : bool :=
  existsb (fun pattern =>
             match Re.search true pattern text0 with
             | Some b => b
             | None => false
             end) patterns.

(** [_analyze_command_complexity] *)
Definition _analyze_command_complexity (text0 : string) : CommandComplexity :=
  let sequential_patterns :=
    [ "\b(then|next|after|followed by|and then)\b";
      "\b(first|second|third|finally)\b";
      "\b(step by step|one by one)\b" ] in
  let conditional_patterns :=
    [ "\b(if|when|unless|provided that)\b";
      "\b(depending on|based on|in case)\b" ] in
  let compound_patterns :=
    [ "\b(and|also|plus|additionally)\b";
      "\b(both|all|multiple)\b" ] in
  let iterative_patterns :=
    [ "\b(for each|every|all|repeat)\b";
      "\b(loop|iterate|multiple times)\b" ] in
  if any_search sequential_patterns text0 then SEQUENTIAL
  else if any_search conditional_patterns text0 then CONDITIONAL
  else if any_search iterative_patterns text0 then ITERATIVE
  else if any_search compound_patterns text0 then COMPOUND
  else SIMPLE.

(** [_estimate_workflow_steps] *)
Definition _estimate_workflow_steps (text0 : string) (c : CommandComplexity)
  : nat :=
  let base_steps :=
    match c with
    | SIMPLE => 1 | COMPOUND => 2 | SEQUENTIAL => 3
    | CONDITIONAL => 3 | ITERATIVE => 4
    end in
  let step_count := base_steps in
  let step_count :=
    if contains "and" text0 then step_count + count "and" text0 else step_count in
  let step_count :=
    if contains "then" text0 then step_count + count "then" text0 else step_count in
  Nat.min step_count 10.

(** [_identify_required_parameters(self, category)] *)
Definition _identify_required_parameters (c : Classifier.CommandCategory)
  : list string :=
  match c with
  | Classifier.DOCUMENT_GENERATION => ["content_topic"; "format"]
  | Classifier.EMAIL_MANAGEMENT => ["recipient"; "subject"]
  | Classifier.CALENDAR_SCHEDULING => ["date_time"; "attendees"]
  | Classifier.WEB_SEARCH => ["query"]
  | Classifier.REMINDERS => ["task"; "time"]
  | Classifier.CALCULATIONS => ["expression"]
  | _ => []
  end.

(** A positional argument of a method call. *)
Inductive pyarg : Type :=
| PText (s : string)
| PCategory (c : Classifier.CommandCategory).

(** A call of [_identify_required_parameters] on positional arguments: the method is
    declared with one parameter besides [self], so any other number of
    positional arguments raises [TypeError] before the body runs. A string
    argument is looked up in the table as the category with that value (the
    enumeration is a [str] subclass), with [[]] as the default. *)
Definition call_identify_required_parameters (args : list pyarg)
  : exn + list string :=
  match args with
  | [PCategory c] => inr (_identify_required_parameters c)
  | [PText s] =>
      inr (match Classifier.of_value s with
           | Some c => _identify_required_parameters c
           | None => []
           end)
  | _ => inl (TypeError
                "_identify_required_parameters() takes 2 positional arguments")
  end.

(** [_get_required_parameters] *)
Definition _get_required_parameters (c : Classifier.CommandCategory)
  : exn + list string :=
  call_identify_required_parameters [PCategory c].

(** [_identify_context_dependencies] *)
Definition _identify_context_dependencies (text0 : string) : list string :=
  (if any_search ["\b(that|this|it|the previous|the last)\b"] text0
   then ["previous_interaction"] else [])
  ++ (if any_search ["\b(my|our|the current)\b"] text0
      then ["user_context"] else [])
  ++ (if any_search ["\b(continue|resume|follow up)\b"] text0
      then ["ongoing_workflow"] else []).

Definition template_keywords : list (string * list string) :=
  [ ("document_creation_workflow",
     ["create document"; "generate report"; "write document"]);
    ("email_campaign_workflow", ["email campaign"; "send emails"; "mass email"]);
    ("meeting_coordination_workflow",
     ["schedule meeting"; "coordinate meeting"; "organize meeting"]);
    ("research_compilation_workflow",
     ["research"; "compile information"; "gather data"]) ].

(** [_match_workflow_template] *)
Definition _match_workflow_template (text0 : string)
           (c : Classifier.CommandCategory) : option string :=
  let text_lower := lower text0 in
  option_map fst
    (find (fun entry => existsb (fun keyword => contains keyword text_lower)
                                (snd entry))
          template_keywords).

(** The first pattern of the table that matches, with its value: the
    [for pattern, value in table.items()] loops that stop at the first match. *)
Definition first_hint (table : list (string * string)) (text0 : string)
  : option string :=
  option_map snd (find (fun entry => any_search [fst entry] text0) table).

Definition inferred (n v : string) (c : Q) (src descr : string)
  : AdvancedParameter :=
  mk_parameter n (Some (Classifier.VStr v)) INFERRED c src descr.

(** [_infer_time_parameters] *)
Definition _infer_time_parameters (text0 : string) : list AdvancedParameter :=
  let time_patterns :=
    [ ("urgency",
       [ ("\b(urgent|asap|immediately|right away|now)\b", "high");
         ("\b(soon|quickly|fast)\b", "medium");
         ("\b(later|eventually|when convenient)\b", "low") ]);
      ("timeframe",
       [ ("\b(today|this morning|this afternoon|tonight)\b", "today");
         ("\b(tomorrow|next day)\b", "tomorrow");
         ("\b(next week|this week)\b", "this_week");
         ("\b(next month|this month)\b", "this_month") ]) ] in
  flat_map
    (fun entry =>
       match first_hint (snd entry) text0 with
       | Some v =>
           [ inferred (fst entry) v (6 # 10) "time_pattern_analysis"
                      ("Inferred " ++ fst entry ++ " from text pattern") ]
       | None => []
       end)
    time_patterns.

(** [_infer_document_format] *)
Definition _infer_document_format (text0 : string) : option AdvancedParameter :=
  let format_hints :=
    [ ("\b(pdf|portable document)\b", "pdf");
      ("\b(word|doc|docx|document)\b", "docx");
      ("\b(presentation|slides|ppt|powerpoint)\b", "pptx");
      ("\b(spreadsheet|excel|xlsx)\b", "xlsx");
      ("\b(markdown|md)\b", "md");
      ("\b(text|txt)\b", "txt") ] in
  option_map
    (fun format_type =>
       inferred "format" format_type (7 # 10) "format_pattern_analysis"
                ("Inferred document format: " ++ format_type))
    (first_hint format_hints text0).

(** [_infer_priority] *)
Definition _infer_priority (text0 : string) : option AdvancedParameter :=
  let priority_patterns :=
    [ ("\b(critical|urgent|emergency|asap|immediately)\b", "high");
      ("\b(important|priority|soon|quick)\b", "medium");
      ("\b(low priority|when convenient|later|eventually)\b", "low") ] in
  option_map
    (fun priority =>
       inferred "priority" priority (6 # 10) "priority_pattern_analysis"
                ("Inferred priority level: " ++ priority))
    (first_hint priority_patterns text0).

(** [_infer_audience] *)
Definition _infer_audience (text0 : string) : option AdvancedParameter :=
  let audience_patterns :=
    [ ("\b(team|colleagues|coworkers)\b", "internal_team");
      ("\b(client|customer|customer service)\b", "external_client");
      ("\b(management|boss|supervisor)\b", "management");
      ("\b(public|everyone|general)\b", "public");
      ("\b(technical|developer|engineer)\b", "technical") ] in
  option_map
    (fun audience =>
       inferred "audience" audience (5 # 10) "audience_pattern_analysis"
                ("Inferred target audience: " ++ audience))
    (first_hint audience_patterns text0).

Definition opt_list {A : Type} (o : option A) : list A :=
  match o with Some a => [a] | None => [] end.

(** [_infer_parameters] *)
Definition _infer_parameters (text0 : string) (c : Classifier.CommandCategory)
  : list AdvancedParameter :=
  (match c with
   | Classifier.CALENDAR_SCHEDULING | Classifier.REMINDERS =>
       _infer_time_parameters text0
   | _ => []
   end)
  ++ (match c with
      | Classifier.DOCUMENT_GENERATION => opt_list (_infer_document_format text0)
      | _ => []
      end)
  ++ opt_list (_infer_priority text0)
  ++ opt_list (_infer_audience text0).

(** [_extract_contextual_parameters(text, category, context)] as
    [_resolve_intelligent_parameters] calls it: [context] is the
    [ConversationContext] that [ContextManager.get_context] returns, a
    dataclass without a [get] method, so the first statement of the body,
    a call of [context.get], raises [AttributeError]. *)
Definition _extract_contextual_parameters (text0 : string)
           (c : Classifier.CommandCategory)
           (context : Classifier.ConversationContext)
  : exn + list AdvancedParameter :=
  inl (AttributeError "'ConversationContext' object has no attribute 'get'").

(** Decimal digits of a number, for [f"{i}"]. *)
Fixpoint digits (fuel n : nat) (acc : list ascii) : list ascii :=
  let acc' := ascii_of_nat (48 + n mod 10) :: acc in
  match fuel with
  | O => acc'
  | S fuel' => if (n <? 10)%nat then acc' else digits fuel' (n / 10) acc'
  end.

Definition str_nat (n : nat) : string := text (digits n n []).

Record AdvancedVoiceProcessor : Type := {
  voice_classifier : Classifier.VoiceClassifier;
  active_workflows : gmap string MultiStepWorkflow;
  total_commands : nat;
  multi_step_commands : nat;
  successful_workflows : nat;
  failed_workflows : nat
}.

Definition set_workflows (self : AdvancedVoiceProcessor)
           (ws : gmap string MultiStepWorkflow) : AdvancedVoiceProcessor :=
  {| voice_classifier := voice_classifier self; active_workflows := ws;
     total_commands := total_commands self;
     multi_step_commands := multi_step_commands self;
     successful_workflows := successful_workflows self;
     failed_workflows := failed_workflows self |}.

(** [AdvancedVoiceProcessor.__init__] *)
Definition new_processor (clf : Classifier.VoiceClassifier)
  : AdvancedVoiceProcessor :=
  {| voice_classifier := clf; active_workflows := ∅; total_commands := 0;
     multi_step_commands := 0; successful_workflows := 0;
     failed_workflows := 0 |}.

(** The steps of a workflow built from a template. No template step has a
    [parameters] key, so each step gets an empty parameter dictionary. A
    category value that names no category makes the constructor of the
    enumeration raise. *)
Fixpoint template_steps (wid : string) (i : nat) (defs : list (string * string))
  : exn + list CommandStep :=
  match defs with
  | [] => inr []
  | (cmd, cat) :: defs' =>
      match Classifier.of_value cat with
      | Some c =>
          rest ← template_steps wid (S i) defs';
          inr (mk_step (wid ++ "_step_" ++ str_nat i) cmd c [] :: rest)
      | None => inl (TypeError "not a valid CommandCategory")
      end
  end.

(** [{param.name: param for param in parameters}]: a later parameter
    replaces an earlier one of the same name, in the earlier one's place. *)
Fixpoint by_name (acc : list (string * AdvancedParameter))
         (params : list AdvancedParameter) : list (string * AdvancedParameter) :=
  match params with
  | [] => acc
  | p0 :: params' =>
      by_name
        (if existsb (fun e => String.eqb (fst e) (name p0)) acc
         then map (fun e => if String.eqb (fst e) (name p0)
                            then (name p0, p0) else e) acc
         else acc ++ [(name p0, p0)])
        params'
  end.

(** The steps of a workflow without a template *)
Definition dynamic_steps (wid intent0 : string) (n : nat)
           (params : list AdvancedParameter) : list CommandStep :=
  map (fun i => mk_step (wid ++ "_step_" ++ str_nat i)
                        ("step_" ++ str_nat i ++ "_" ++ intent0)
                        Classifier.GENERAL_CONVERSATION
                        (by_name [] params))
      (seq 0 n).

(** Truth of an optional string: neither [None] nor empty. *)
Definition is_set (o : option string) : bool :=
  match o with
  | Some t => negb (String.eqb t "")
  | None => false
  end.

(** [_detect_multi_step_workflow]. [fresh_id] is the [str(uuid.uuid4())] of
    the call and [now] the clock reading of the workflow's time stamps. *)
Definition _detect_multi_step_workflow (self : AdvancedVoiceProcessor)
           (fresh_id : string) (now : Q) (text0 : string)
           (intent_result : IntentResolutionResult)
           (params : list AdvancedParameter) (user session : string)
  : exn + (option MultiStepWorkflow * AdvancedVoiceProcessor) :=
  if (estimated_steps intent_result <=? 1)%nat
     && negb (is_set (workflow_template intent_result))
  then inr (None, self)
  else
    new_steps ←
      match (if is_set (workflow_template intent_result)
             then workflow_template intent_result else None)
              ≫= (fun t => workflow_templates t) with
      | Some defs => template_steps fresh_id 0 defs
      | None => inr (dynamic_steps fresh_id (primary_intent intent_result)
                                   (estimated_steps intent_result) params)
      end;
    let workflow :=
      {| workflow_id := fresh_id; user_id := user; session_id := session;
         original_command := text0;
         complexity := intent_complexity intent_result;
         steps := new_steps; current_step := 0; status := PENDING;
         created_at := now; updated_at := now; completion_percentage := 0;
         total_estimated_time := (Qnat (estimated_steps intent_result) * 30)%Q;
         actual_time := 0 |} in
    inr (Some workflow,
         set_workflows self (<[fresh_id := workflow]> (active_workflows self))).

Definition set_status (w : MultiStepWorkflow) (s : WorkflowStatus)
  : MultiStepWorkflow :=
  {| workflow_id := workflow_id w; user_id := user_id w;
     session_id := session_id w; original_command := original_command w;
     complexity := complexity w; steps := steps w;
     current_step := current_step w; status := s;
     created_at := created_at w; updated_at := updated_at w;
     completion_percentage := completion_percentage w;
     total_estimated_time := total_estimated_time w;
     actual_time := actual_time w |}.

(** [_execute_workflow]: the status reported, and the workflow (the object
    that [active_workflows] holds) marked pending with its progress updated. *)
Definition _execute_workflow (self : AdvancedVoiceProcessor) (now : Q)
           (workflow : option MultiStepWorkflow)
  : string * option MultiStepWorkflow * AdvancedVoiceProcessor :=
  match workflow with
  | None => ("completed", None, self)
  | Some w =>
      let w' := update_progress (set_status w PENDING) now in
      ("workflow_created", Some w',
       set_workflows self (<[workflow_id w := w']> (active_workflows self)))
  end.

Definition complete_step (step : CommandStep) (started completed : Q)
           (message : string) : CommandStep :=
  {| step_id := step_id step; command := command step;
     category := category step; parameters := parameters step;
     dependencies := dependencies step; step_status := COMPLETED;
     result := Some message; error := error step;
     retry_count := retry_count step; max_retries := max_retries step;
     timeout_seconds := timeout_seconds step;
     started_at := Some started; completed_at := Some completed |}.

(** What [continue_workflow] returns when it advances a step. *)
Record Progress : Type := {
  p_workflow_id : string;
  p_current_step : nat;
  p_total_steps : nat;
  p_completion_percentage : Q;
  p_status : string
}.

(** One advancement of a workflow: its current step is completed, the step
    index moves on, the progress is recomputed, and the workflow is marked
    completed when the index has reached the number of steps. *)
Definition advance (w : MultiStepWorkflow) (step : CommandStep)
           (started completed now : Q) : MultiStepWorkflow :=
  let step' := complete_step step started completed
                 ("Step " ++ str_nat (current_step w + 1) ++ " completed") in
  let w1 :=
    {| workflow_id := workflow_id w; user_id := user_id w;
       session_id := session_id w; original_command := original_command w;
       complexity := complexity w;
       steps := <[current_step w := step']> (steps w);
       current_step := current_step w + 1; status := status w;
       created_at := created_at w; updated_at := updated_at w;
       completion_percentage := completion_percentage w;
       total_estimated_time := total_estimated_time w;
       actual_time := actual_time w |} in
  let w2 := update_progress w1 now in
  if (List.length (steps w2) <=? current_step w2)%nat
  then set_status w2 COMPLETED
  else w2.

Section Processor.

(** What the processor takes from outside: the oracles of the classifier,
    the transformer pipeline [intent_classifier] when it was loaded (its
    labels with their scores, or the exception it raises), and the context
    that [ContextManager.get_context(user, session)] returns. *)
Variable tfidf_max_similarity : list string -> string -> Q.
Variable regex_parameters :
  Classifier.CommandCategory -> string -> gmap string Classifier.pyval.
Variable clock : nat -> Q.
Variable intent_classifier : option (string -> exn + list (string * Q)).
Variable get_context : string -> string -> option Classifier.ConversationContext.

(** [continue_workflow]. [k] counts the clock readings as in
    [Classifier.classify_command]. *)
Definition continue_workflow (self : AdvancedVoiceProcessor) (k : nat)
           (wid : string) (user_input : option string)
  : (string + Progress) * AdvancedVoiceProcessor * nat :=
  match active_workflows self !! wid with
  | None => (inl "Workflow not found", self, k)
  | Some workflow =>
      match get_current_step workflow with
      | None => (inl "No current step found", self, k)
      | Some step =>
          let w' := advance workflow step (clock k) (clock (k + 1))
                            (clock (k + 2)) in
          let finished := (List.length (steps w') <=? current_step w')%nat in
          (inr {| p_workflow_id := wid;
                  p_current_step := current_step w';
                  p_total_steps := List.length (steps w');
                  p_completion_percentage := completion_percentage w';
                  p_status := status_value (status w') |},
           {| voice_classifier := voice_classifier self;
              active_workflows := <[wid := w']> (active_workflows self);
              total_commands := total_commands self;
              multi_step_commands := multi_step_commands self;
              successful_workflows :=
                if finished then S (successful_workflows self)
                else successful_workflows self;
              failed_workflows := failed_workflows self |},
           k + 3)
      end
  end.

(** The [try] block of [_resolve_advanced_intent]. The call of
    [_identify_required_parameters] passes the text and the category. *)
Definition resolve_intent_body (k : nat) (text0 : string)
           (basic : Classifier.ClassificationResult)
  : exn + IntentResolutionResult :=
  scored ←
    match intent_classifier with
    | Some pipeline =>
        intent_scores ← pipeline text0;
        inr (match intent_scores with
             | (label, score) :: others => (label, score, firstn 2 others)
             | [] => (Classifier.intent basic, Classifier.confidence basic, [])
             end)
    | None => inr (Classifier.intent basic, Classifier.confidence basic, [])
    end;
  let '(primary, conf, alternatives0) := scored in
  let complexity0 := _analyze_command_complexity text0 in
  let estimated := _estimate_workflow_steps text0 complexity0 in
  needed ← call_identify_required_parameters
             [PText text0; PCategory (Classifier.category basic)];
  let deps := _identify_context_dependencies text0 in
  let template := _match_workflow_template text0 (Classifier.category basic) in
  inr {| primary_intent := primary; intent_confidence := conf;
         alternative_intents := alternatives0;
         intent_complexity := complexity0; estimated_steps := estimated;
         parameters_needed := needed; context_dependencies := deps;
         workflow_template := template;
         resolution_time := (clock (k + 1) - clock k)%Q |}.

(** [_resolve_advanced_intent]: the [try] block, and on any exception the
    fallback of the [except] branch. *)
Definition _resolve_advanced_intent (k : nat) (text0 : string)
           (basic : Classifier.ClassificationResult) : IntentResolutionResult :=
  match resolve_intent_body k text0 basic with
  | inr r => r
  | inl _ =>
      {| primary_intent := Classifier.intent basic;
         intent_confidence := Classifier.confidence basic;
         alternative_intents := [];
         intent_complexity := SIMPLE; estimated_steps := 1;
         parameters_needed := []; context_dependencies := [];
         workflow_template := None;
         resolution_time := (clock (k + 1) - clock k)%Q |}
  end.

(** [_resolve_intelligent_parameters]. The literal parameters are listed
    by name here; the code lists them as the dictionary of the
    classification holds them. [get_context] answers [None] only for a
    manager other than the [ContextManager] of the repository (see
    [Contexts.get_context]). *)
Definition _resolve_intelligent_parameters (text0 : string)
           (classification : Classifier.ClassificationResult)
           (user session : string) : exn + list AdvancedParameter :=
  let literal :=
    map (fun e => mk_parameter (fst e) (Some (snd e)) LITERAL (9 # 10)
                               "direct_extraction"
                               ("Directly extracted " ++ fst e))
        (map_to_list (Classifier.parameters classification)) in
  contextual ←
    match get_context user session with
    | Some context =>
        _extract_contextual_parameters
          text0 (Classifier.category classification) context
    | None => inr []
    end;
  let enhanced :=
    literal ++ contextual
    ++ _infer_parameters text0 (Classifier.category classification) in
  required_params ←
    _get_required_parameters (Classifier.category classification);
  inr (fold_left
         (fun acc required_param =>
            if existsb (fun p0 => String.eqb (name p0) required_param) acc
            then acc
            else acc ++ [ {| name := required_param; value := None;
                             type := PROMPTED; confidence := 0;
                             source := "requirement_analysis";
                             alternatives := [];
                             validation_status := "pending"; required := true;
                             description :=
                               "Required parameter: " ++ required_param |} ])
         required_params enhanced).

(** The parts of the dictionary that [process_advanced_command] returns. *)
Record Report : Type := {
  r_category : string;
  r_confidence : Q;
  r_complexity : string;
  r_estimated_steps : nat;
  r_workflow_id : option string;
  r_workflow_complexity : string;
  r_total_steps : nat;
  r_workflow_status : string;
  r_execution_status : string;
  r_requires_user_input : bool;
  r_multi_step : bool
}.

(** The outcome of [process_advanced_command]: the report, or the
    dictionary of the [except] branch with the exception and the fallback
    category. *)
Inductive Outcome : Type :=
| Processed (r : Report)
| Fallback (e : exn) (fallback_category : string).

(** [process_advanced_command] *)
Definition process_advanced_command (self : AdvancedVoiceProcessor) (k : nat)
           (fresh_id : string) (text0 user session : string)
           (use_context : bool)
  : Outcome * AdvancedVoiceProcessor * nat :=
  let '(basic, clf, k1) :=
    Classifier.classify_command tfidf_max_similarity
                                regex_parameters clock
                                (voice_classifier self) (k + 1)
                                text0 user session use_context in
  let self1 :=
    {| voice_classifier := clf; active_workflows := active_workflows self;
       total_commands := total_commands self;
       multi_step_commands := multi_step_commands self;
       successful_workflows := successful_workflows self;
       failed_workflows := failed_workflows self |} in
  let intent_result := _resolve_advanced_intent k1 text0 basic in
  let k2 := k1 + 2 in
  match
    enhanced ← _resolve_intelligent_parameters text0 basic user session;
    detected ← _detect_multi_step_workflow self1 fresh_id (clock k2) text0
                 intent_result enhanced user session;
    inr (enhanced, detected)
  with
  | inl e => (Fallback e (Classifier.value (Classifier.category basic)),
              self1, k2 + 1)
  | inr (enhanced, (workflow, self2)) =>
      let '(execution, workflow', self3) :=
        _execute_workflow self2 (clock (k2 + 1)) workflow in
      let multi :=
        match workflow' with
        | Some w => (1 <? List.length (steps w))%nat
        | None => false
        end in
      (Processed
         {| r_category := Classifier.value (Classifier.category basic);
            r_confidence := Classifier.confidence basic;
            r_complexity := complexity_value (intent_complexity intent_result);
            r_estimated_steps := estimated_steps intent_result;
            r_workflow_id := option_map workflow_id workflow';
            r_workflow_complexity :=
              match workflow' with
              | Some w => complexity_value (complexity w)
              | None => "simple"
              end;
            r_total_steps :=
              match workflow' with
              | Some w => List.length (steps w)
              | None => 1
              end;
            r_workflow_status :=
              match workflow' with
              | Some w => status_value (status w)
              | None => "completed"
              end;
            r_execution_status := execution;
            r_requires_user_input :=
              existsb (fun p0 => bool_decide (type p0 = PROMPTED)) enhanced;
            r_multi_step := multi |},
       {| voice_classifier := voice_classifier self3;
          active_workflows := active_workflows self3;
          total_commands := S (total_commands self3);
          multi_step_commands :=
            if multi then S (multi_step_commands self3)
            else multi_step_commands self3;
          successful_workflows := successful_workflows self3;
          failed_workflows := failed_workflows self3 |},
       k2 + 3)
  end.

End Processor.

(** A run of [continue_workflow] calls, one for each workflow id of a list,
    in order. *)
Fixpoint continue_all (clock : nat -> Q) (self : AdvancedVoiceProcessor)
         (k : nat) (ids : list string) : AdvancedVoiceProcessor * nat :=
  match ids with
  | [] => (self, k)
  | wid :: ids' =>
      let '(_, self', k') := continue_workflow clock self k wid None in
      continue_all clock self' k' ids'
  end.

(** The test of [get_completed_steps] *)
Definition completedb (step : CommandStep) : bool :=
  bool_decide (step_status step = COMPLETED).

Definition is_completed (step : CommandStep) : Prop :=
  step_status step = COMPLETED.
Definition is_pending (step : CommandStep) : Prop :=
  step_status step = PENDING.

(** A workflow before its first advancement, as the constructor with its
    defaults makes it: every step pending, the step index 0, the status
    pending, the completion 0. *)
Definition fresh (w : MultiStepWorkflow) : Prop :=
  Forall is_pending (steps w)
  /\ current_step w = 0%nat
  /\ status w = PENDING
  /\ (completion_percentage w == 0)%Q.

(** A workflow under way: its steps are completed up to the step index and
    pending from there on, it is marked completed exactly when no step
    is left, and its completion is the share of the completed steps times
    100. *)
Definition under_way (w : MultiStepWorkflow) : Prop :=
  exists done todo,
    steps w = done ++ todo
    /\ Forall is_completed done
    /\ Forall is_pending todo
    /\ current_step w = List.length done
    /\ (todo = [] <-> status w = COMPLETED)
    /\ (completion_percentage w
        == Qnat (List.length done) / Qnat (List.length (steps w)) * 100)%Q.

(** The command of the sequential scenario *)
Definition sequential_command : string :=
  "schedule a meeting with Sarah tomorrow then send the invite".

(** An intent resolution that asks for a plan of [n] steps without a
    template. *)
Definition plain_intent (n : nat) : IntentResolutionResult :=
  {| primary_intent := "unknown_intent"; intent_confidence := 0;
     alternative_intents := []; intent_complexity := SEQUENTIAL;
     estimated_steps := n; parameters_needed := []; context_dependencies := [];
     workflow_template := None; resolution_time := 0 |}.

(** A processor that holds one workflow of two steps, made by
    [_detect_multi_step_workflow] and [_execute_workflow]. *)
Definition two_step_processor : AdvancedVoiceProcessor :=
  match _detect_multi_step_workflow (new_processor Classifier.init) "wf-1" 0
          "first this then that" (plain_intent 2) [] "u1" "s1" with
  | inr (workflow, self) => (_execute_workflow self 0 workflow).2
  | inl _ => new_processor Classifier.init
  end.

Definition two_step_workflow : MultiStepWorkflow :=
  {| workflow_id := "wf-1"; user_id := "u1"; session_id := "s1";
     original_command := "first this then that"; complexity := SEQUENTIAL;
     steps := dynamic_steps "wf-1" "unknown_intent" 2 [];
     current_step := 0; status := PENDING; created_at := 0; updated_at := 0;
     completion_percentage := (Qnat 0 / Qnat 2 * 100)%Q;
     total_estimated_time := (Qnat 2 * 30)%Q; actual_time := 0 |}.

End Workflow.

(** ** The context manager ([ai/context_manager.py]) *)

Module Contexts.

(** A dictionary with string keys; the entries are in insertion order. *)
Definition Dict (V : Type) : Type := list (string * V).

(** [d.get(key)] *)
Fixpoint dict_get {V : Type} (d : Dict V) (key : string) : option V :=
  match d with
  | [] => None
  | (k, v) :: d' => if String.eqb k key then Some v else dict_get d' key
  end.

(** [d[key] = v]: a key that is present keeps its place. *)
Fixpoint dict_set {V : Type} (d : Dict V) (key : string) (v : V) : Dict V :=
  match d with
  | [] => [(key, v)]
  | (k, x) :: d' =>
      if String.eqb k key then (k, v) :: d' else (k, x) :: dict_set d' key v
  end.

(** [del d[key]] *)
Definition dict_del {V : Type} (d : Dict V) (key : string) : Dict V :=
  List.filter (fun entry => negb (String.eqb (fst entry) key)) d.

(** [sorted(l, key=key)]: ascending by key; entries of equal key keep the
    order they had. *)
Fixpoint insert_asc {A : Type} (key : A -> Q) (x : A) (l : list A) : list A :=
  match l with
  | [] => [x]
  | y :: l' =>
      if Qlt_bool (key y) (key x) then y :: insert_asc key x l' else x :: l
  end.

Definition sorted_asc {A : Type} (key : A -> Q) (l : list A) : list A :=
  fold_right (insert_asc key) [] l.

(** The state of a [ContextManager]. [redis_client] tells whether
    [initialize] connected a client. *)
Record ContextManager : Type := {
  redis_client : bool;
  local_cache : Dict Classifier.ConversationContext;
  max_local_cache_size : nat;
  cache_hits : nat;
  cache_misses : nat;
  redis_operations : nat
}.

(** [ContextManager()], before [initialize] *)
Definition init : ContextManager :=
  {| redis_client := false; local_cache := []; max_local_cache_size := 100;
     cache_hits := 0; cache_misses := 0; redis_operations := 0 |}.

Definition set_local_cache (self : ContextManager)
           (cache : Dict Classifier.ConversationContext) : ContextManager :=
  {| redis_client := redis_client self; local_cache := cache;
     max_local_cache_size := max_local_cache_size self;
     cache_hits := cache_hits self; cache_misses := cache_misses self;
     redis_operations := redis_operations self |}.

Definition count_cache_hit (self : ContextManager) : ContextManager :=
  {| redis_client := redis_client self; local_cache := local_cache self;
     max_local_cache_size := max_local_cache_size self;
     cache_hits := S (cache_hits self); cache_misses := cache_misses self;
     redis_operations := redis_operations self |}.

Definition count_cache_miss (self : ContextManager) : ContextManager :=
  {| redis_client := redis_client self; local_cache := local_cache self;
     max_local_cache_size := max_local_cache_size self;
     cache_hits := cache_hits self; cache_misses := S (cache_misses self);
     redis_operations := redis_operations self |}.

Definition count_redis_operation (self : ContextManager) : ContextManager :=
  {| redis_client := redis_client self; local_cache := local_cache self;
     max_local_cache_size := max_local_cache_size self;
     cache_hits := cache_hits self; cache_misses := cache_misses self;
     redis_operations := S (redis_operations self) |}.

(** [_get_context_key] *)
Definition _get_context_key (user_id session_id : string) : string :=
  ("context:" ++ user_id ++ ":" ++ session_id)%string.

(** [_manage_cache_size]: when the local cache holds more contexts than
    [max_local_cache_size], the oldest fifth of them is removed. *)
Definition _manage_cache_size (self : ContextManager) : ContextManager :=
  if (max_local_cache_size self <? List.length (local_cache self))%nat then
    let sorted_contexts :=
      sorted_asc (fun entry => Classifier.context_timestamp (snd entry))
                 (local_cache self) in
    let to_remove := (List.length sorted_contexts / 5)%nat in
    set_local_cache self
      (fold_left (fun cache entry => dict_del cache (fst entry))
                 (firstn to_remove sorted_contexts) (local_cache self))
  else self.

(** What the Redis client and [pickle.loads] make of a key in
    [get_context]: [redis_client.get] raises; there is no data under the
    key; the data is a context that [save_context] pickled (nothing else in
    the repository writes under a context key); or [pickle.loads] raises on
    the data. *)
Inductive RedisData : Type :=
| GetRaises (e : exn)
| NoData
| Pickled (context : Classifier.ConversationContext)
| LoadsRaises (e : exn).

Section Redis.

(** From outside the repository: the answer of the Redis server to the
    read of [get_context], and to the writes of [save_context] ([setex],
    [sadd] and [expire], of which one may raise). *)
Variable redis_get : string -> RedisData.
Variable redis_write : string -> Classifier.ConversationContext -> exn + unit.

(** [save_context] *)
Definition save_context (self : ContextManager)
           (context : Classifier.ConversationContext) : ContextManager :=
  let context_key :=
    (Classifier.user_id context ++ "_" ++ Classifier.session_id context)%string
  in
  let self1 :=
    _manage_cache_size
      (set_local_cache self (dict_set (local_cache self) context_key context)) in
  if redis_client self1 then
    match redis_write (_get_context_key (Classifier.user_id context)
                                        (Classifier.session_id context))
                      context with
    | inr _ => count_redis_operation self1
    | inl _ => self1
    end
  else self1.

(** [get_context]. [now] is the clock reading of the expiry test and [now']
    the one that a new context takes as its time stamp. *)
Definition get_context (self : ContextManager) (now now' : Q)
           (user_id session_id : string) (create_if_missing : bool)
  : option Classifier.ConversationContext * ContextManager :=
  let context_key := (user_id ++ "_" ++ session_id)%string in
  (* the local cache *)
  let cached :=
    match dict_get (local_cache self) context_key with
    | Some context =>
        let self1 := count_cache_hit self in
        if negb (Classifier.is_context_expired context now 30)
        then (Some context, self1)
        else (None,
              set_local_cache self1 (dict_del (local_cache self1) context_key))
    | None => (None, self)
    end in
  match cached with
  | (Some context, self1) => (Some context, self1)
  | (None, self1) =>
      (* Redis, when a client is connected *)
      let stored :=
        if redis_client self1 then
          match redis_get (_get_context_key user_id session_id) with
          | GetRaises _ => (None, self1)
          | NoData => (None, count_redis_operation self1)
          | LoadsRaises _ => (None, count_redis_operation self1)
          | Pickled context =>
              let self2 := count_redis_operation self1 in
              (Some context,
               _manage_cache_size
                 (set_local_cache
                    self2 (dict_set (local_cache self2) context_key context)))
          end
        else (None, self1) in
      match stored with
      | (Some context, self2) => (Some context, self2)
      | (None, self2) =>
          let self3 := count_cache_miss self2 in
          if create_if_missing then
            let context := Classifier.new_context user_id session_id now' in
            (Some context, save_context self3 context)
          else (None, self3)
      end
  end.

End Redis.

End Contexts.

(** ** Floating-point numbers ([float] in the search ranking) *)

(** The relevance scores of the search results are Python floats: IEEE 754
    binary64 numbers, added with rounding to nearest, ties to even. They are
    the specification floats of the Standard Library at precision 53 and
    exponent bound 1024: [S754_finite s m e] is [(-1)^s * m * 2^e]. *)
Module Float.

Definition float : Type := spec_float.
Definition prec : Z := 53.
Definition emax : Z := 1024.

(** [x + y] *)
Definition add (x y : float) : float := SFadd prec emax x y.

(** [x < y] and [x == y] *)
Definition ltb (x y : float) : bool := SFltb x y.
Definition eqb (x y : float) : bool := SFeqb x y.

(** [math.isnan(x)] *)
Definition is_nan (x : float) : bool :=
  match x with S754_nan => true | _ => false end.

(** The literals of the search server: for each decimal the nearest
    binary64 number.  0.1 is [0x1.999999999999ap-4], 0.2 is
    [0x1.999999999999ap-3], 0.5 is [0x1p-1], 0.8 is [0x1.999999999999ap-1],
    0.9 is [0x1.ccccccccccccdp-1], 0.95 is [0x1.e666666666666p-1] and 1.0 is
    [0x1p+0]. *)
Definition f0_1 : float := S754_finite false 7205759403792794 (-56).
Definition f0_2 : float := S754_finite false 7205759403792794 (-55).
Definition f0_5 : float := S754_finite false 4503599627370496 (-53).
Definition f0_9 : float := S754_finite false 8106479329266893 (-53).
Definition f1_0 : float := S754_finite false 4503599627370496 (-52).

(** A key that orders the floats other than NaN as [<] does, read
    lexicographically: the sign class, then the exponent, then the
    mantissa. *)
Definition order_key (x : float) : Z * Z * Z :=
  match x with
  | S754_zero _ | S754_nan => (0, 0, 0)
  | S754_infinity s => (if s then -2 else 2, 0, 0)
  | S754_finite s m e =>
      if s then (-1, - e, Z.neg m) else (1, e, Z.pos m)
  end%Z.

Definition lex_lt (a b : Z * Z * Z) : Prop :=
  (a.1.1 < b.1.1
   \/ (a.1.1 = b.1.1
       /\ (a.1.2 < b.1.2 \/ (a.1.2 = b.1.2 /\ a.2 < b.2))))%Z.

End Float.

(** ** Search ranking ([mcp/search_server.py]) *)

Module Search.
Import Text.

(** A result dictionary of a search provider; a key may be missing. *)
Record SearchResult : Type := {
  title : option string;
  url : option string;
  snippet : option string;
  source : option string;
  relevance_score : option Float.float
}.

(** [result.get(key, default)] *)
Definition get {A : Type} (field : option A) (default : A) : A :=
  match field with Some v => v | None => default end.

Definition authoritative_domains : list string :=
  ["wikipedia.org"; "britannica.com"; "gov"; "edu"].

Definition is_authoritative (result : SearchResult) : bool :=
  existsb (fun domain => contains domain (lower (get (url result) "")))
          authoritative_domains.

Definition query_in_title (query : string) (result : SearchResult) : bool :=
  contains (lower query) (lower (get (title result) "")).

(** The local function [rank_score] of [_rank_and_deduplicate]; each [+=]
    is a float addition. *)
Definition rank_score (query : string) (result : SearchResult) : Float.float :=
  let base_score := get (relevance_score result) Float.f0_5 in
  let base_score :=
    if is_authoritative result then Float.add base_score Float.f0_2
    else base_score in
  let base_score :=
    if query_in_title query result then Float.add base_score Float.f0_1
    else base_score in
  base_score.

(** The first loop of [_rank_and_deduplicate]: a result is kept when its URL
    is not empty and was not seen before. *)
Fixpoint unique_results (seen_urls : list string) (results : list SearchResult)
  : list SearchResult :=
  match results with
  | [] => []
  | result :: rest =>
      let u := get (url result) "" in
      if negb (String.eqb u "") && negb (existsb (String.eqb u) seen_urls)
      then result :: unique_results (u :: seen_urls) rest
      else unique_results seen_urls rest
  end.

(** [sorted(l, key=key, reverse=True)] for float keys: descending by key;
    results of equal key keep the order they had (the sort is stable). This
    is what the sort returns when the keys are comparable, that is, when none
    of them is NaN. *)
Fixpoint insert_desc {A : Type} (key : A -> Float.float) (x : A) (l : list A)
  : list A :=
  match l with
  | [] => [x]
  | y :: l' =>
      if Float.ltb (key x) (key y) then y :: insert_desc key x l' else x :: l
  end.

Definition sorted_desc {A : Type} (key : A -> Float.float) (l : list A)
  : list A :=
  fold_right (insert_desc key) [] l.

(** [_rank_and_deduplicate] *)
Definition _rank_and_deduplicate (results : list SearchResult) (query : string)
  : list SearchResult :=
  sorted_desc (rank_score query) (unique_results [] results).







(** The parts of the dictionary that [web_search] returns *)
Record SearchResponse : Type := {
  sr_query : string;
  sr_results : list SearchResult;
  sr_total_results : nat;
  sr_cached : bool
}.

(** The Redis server as the search server uses it: under a key, the time
    at which the entry expires and the value. The value is the response that
    was serialized with [json.dumps]; [json.loads] gives it back as it was
    (string keys, strings, floats and lists). *)
Definition Redis : Type := gmap string (Q * SearchResponse).

(** [redis_client.get(key)] at the time [now] of the server *)
Definition redis_get (store : Redis) (now : Q) (key : string)
  : option SearchResponse :=
  match store !! key with
  | Some (expires, value) => if Qlt_bool now expires then Some value else None
  | None => None
  end.


Definition cache_ttl : Q := 3600.




(** The URL by which results are told apart: the [url] entry, or the empty
    string when the dictionary has none. *)
Definition result_url (r : SearchResult) : string := get (url r) "".





(** [_calculate_confidence] *)
Definition _calculate_confidence (results : list SearchResult) : Q :=
  match results with
  | [] => 0
  | _ =>
      let authoritative_count :=
        List.length (List.filter is_authoritative results) in
      pymin 1 (Workflow.Qnat authoritative_count
               / Workflow.Qnat (List.length results) + (3 # 10))%Q
  end.

(** The results of the composite score [q] *)
Definition scoring (query : string) (q : Float.float)
           (results : list SearchResult) : list SearchResult :=
  List.filter (fun r => Float.eqb (rank_score query r) q) results.

(** The first result of a list that has the URL of [r] *)
Definition first_with_url (r : SearchResult) (results : list SearchResult)
  : option SearchResult :=
  find (fun x => String.eqb (result_url x) (result_url r)) results.

(** *** Results and requests to run the search with *)

(** A page as a provider lists it *)
Definition page (provider : string) (score : Float.float) (t u : string)
  : SearchResult :=
  {| title := Some t; url := Some u; snippet := Some t;
     source := Some provider; relevance_score := Some score |}.


End Search.

(** ** Token issuance and verification ([auth/jwt_auth.py],
       [api/auth_routes.py]) *)

Module Auth.
Import Text.

(** The claims of a token. [exp] and [iat] are in whole seconds since the
    epoch, as they are in an encoded token. *)
Record Payload : Type := {
  sub : option string;
  exp : Z;
  iat : Z;
  type : string
}.

(** How decoding fails: [jwt.ExpiredSignatureError], or another
    [jwt.PyJWTError]. *)
Inductive JwtError : Type := ExpiredSignatureError | InvalidTokenError.

(** [HTTPException(status_code, detail)] *)
Record HTTPException : Type := {
  status_code : nat;
  detail : string
}.

Definition JWT_EXPIRATION_HOURS : Z := 24.

(** A [datetime] is a number of microseconds since the epoch. *)
Definition microseconds_per_second : Z := 1000000.

(** [timedelta(hours=h)] *)
Definition hours (h : Z) : Z := h * 3600 * microseconds_per_second.

(** The whole seconds of a [datetime], which an encoded token stores. *)
Definition timestamp (t : Z) : Z := t / microseconds_per_second.

Record TokenResponse (Token : Type) : Type := {
  access_token : Token;
  token_type : string;
  expires_in : Z
}.
Arguments access_token {Token} _.
Arguments token_type {Token} _.
Arguments expires_in {Token} _.

Definition VALID_API_KEYS : gmap string string :=
  <["test_key_456" := "test_user"]> (<["demo_key_123" := "demo_user"]> ∅).

Definition env_api_keys : list (string * string) :=
  [ ("ANTHROPIC_API_KEY", "anthropic_user");
    ("OPENAI_API_KEY", "openai_user");
    ("ELEVENLABS_API_KEY", "elevenlabs_user");
    ("LIVEKIT_API_KEY", "livekit_user") ].

Definition env_keys : list string :=
  ["ANTHROPIC_API_KEY"; "OPENAI_API_KEY"; "ELEVENLABS_API_KEY"; "LIVEKIT_API_KEY"].

(** [s[:n]] *)
Definition prefix (n : nat) (s : string) : string := text (firstn n (chars s)).

(** [s.replace(old, "")] *)
Definition remove_all (old s : string) : string :=
  text (replace_chars (String.length s) (chars old) [] (chars s)).

Section Auth.

(** From outside the repository: the token type and the two functions of
    the JWT library with the signing key and algorithm fixed
    ([jwt.encode(payload, JWT_SECRET_KEY, algorithm=JWT_ALGORITHM)] and
    [jwt.decode(token, JWT_SECRET_KEY, algorithms=[JWT_ALGORITHM])], the
    latter at a clock reading in seconds), SHA-256, and the environment. *)
Variable Token : Type.
Variable jwt_encode : Payload -> Token.
Variable jwt_decode : Token -> Z -> JwtError + Payload.
Variable sha256_hexdigest : string -> string.
Variable getenv : string -> option string.

(** [os.getenv(name)] when it is set and not empty (the test of
    [if value := os.getenv(name)]) *)
Definition getenv_set (name : string) : option string :=
  match getenv name with
  | Some v => if String.eqb v "" then None else Some v
  | None => None
  end.

(** [APIKeyManager.hash_api_key] *)
Definition hash_api_key (api_key : string) : string := sha256_hexdigest api_key.

(** [EnhancedAPIKeyManager.get_valid_api_keys] *)
Definition get_valid_api_keys : gmap string string :=
  fold_left
    (fun valid_keys entry =>
       match getenv_set (fst entry) with
       | Some api_key =>
           let key_identifier :=
             (prefix 8 api_key ++ "_" ++ prefix 8 (hash_api_key api_key))%string in
           <[key_identifier := snd entry]> valid_keys
       | None => valid_keys
       end)
    env_api_keys VALID_API_KEYS.

(** The user of the first environment key whose value is the given key *)
Definition environment_user (api_key : string) : option string :=
  option_map
    (fun env_key => (remove_all "_api_key" (lower env_key) ++ "_user")%string)
    (find (fun env_key =>
             match getenv_set env_key with
             | Some env_value => String.eqb api_key env_value
             | None => false
             end) env_keys).

(** [EnhancedAPIKeyManager.validate_api_key]: the direct lookup, then the
    comparison with the values of the environment keys. *)
Definition validate_api_key (api_key : string) : option string :=
  match get_valid_api_keys !! api_key with
  | Some user_id =>
      if negb (String.eqb user_id "") then Some user_id
      else environment_user api_key
  | None => environment_user api_key
  end.

(** [JWTAuth.create_access_token]. [now1] and [now2] are the two readings
    of [datetime.utcnow()], the first for the expiry and the second for the
    issue time; the encoder stores both in whole seconds. *)
Definition create_access_token (now1 now2 : Z) (user_id : string)
           (expires_delta : option Z) : Token :=
  let expire :=
    match expires_delta with
    | Some delta =>
        if (delta =? 0)%Z then (now1 + hours JWT_EXPIRATION_HOURS)%Z
        else (now1 + delta)%Z
    | None => (now1 + hours JWT_EXPIRATION_HOURS)%Z
    end in
  jwt_encode {| sub := Some user_id; exp := timestamp expire;
                iat := timestamp now2; type := "access" |}.

(** [JWTAuth.verify_token] at the clock reading [now], in seconds *)
Definition verify_token (token : Token) (now : Z) : HTTPException + Payload :=
  match jwt_decode token now with
  | inr payload =>
      match sub payload with
      | Some _ => inr payload
      | None => inl {| status_code := 401;
                       detail := "Invalid authentication credentials" |}
      end
  | inl ExpiredSignatureError =>
      inl {| status_code := 401; detail := "Token has expired" |}
  | inl InvalidTokenError =>
      inl {| status_code := 401;
             detail := "Invalid authentication credentials" |}
  end.

(** The lifetime in hours that [generate_token] chooses *)
Definition expiration_hours (user_agent : option string) : Z :=
  match user_agent with
  | Some ua => if negb (String.eqb ua "") && contains "iOS" ua then 24 else 1
  | None => 1
  end.

(** [generate_token] *)
Definition generate_token (now1 now2 : Z) (api_key : string)
           (user_agent : option string)
  : HTTPException + TokenResponse Token :=
  match validate_api_key api_key with
  | None => inl {| status_code := 401; detail := "Invalid API key" |}
  | Some user_id =>
      if String.eqb user_id "" then
        inl {| status_code := 401; detail := "Invalid API key" |}
      else
        let h := expiration_hours user_agent in
        let expires_delta := hours h in
        let token := create_access_token now1 now2 user_id (Some expires_delta) in
        inr {| access_token := token; token_type := "bearer";
               expires_in := (h * 3600)%Z |}
  end.

(** [get_current_user], the dependency of the protected routes, at the
    clock reading [now] in seconds *)
Definition get_current_user (token : Token) (now : Z)
  : HTTPException + Payload :=
  verify_token token now.

(** [refresh_token] with its dependency: the bearer token is verified at
    [now]; [now1] and [now2] are the clock readings of
    [create_access_token], which is called without a lifetime. The response
    takes the default of [expires_in]. *)
Definition refresh_token (token : Token) (now now1 now2 : Z)
  : HTTPException + TokenResponse Token :=
  match get_current_user token now with
  | inl e => inl e
  | inr current_user =>
      match sub current_user with
      | Some user_id =>
          if String.eqb user_id "" then
            inl {| status_code := 401; detail := "Invalid token for refresh" |}
          else
            inr {| access_token := create_access_token now1 now2 user_id None;
                   token_type := "bearer";
                   expires_in := (JWT_EXPIRATION_HOURS * 3600)%Z |}
      | None =>
          inl {| status_code := 401; detail := "Invalid token for refresh" |}
      end
  end.

End Auth.

(** [user_agent and "iOS" in user_agent]: the client hint of a mobile
    client *)
Definition mentions_ios (user_agent : option string) : bool :=
  match user_agent with
  | Some ua => contains "iOS" ua
  | None => false
  end.

(** *** A codec and surroundings to run the functions with: a token is its
    payload; decoding refuses a token from its expiry on, and a token whose
    issue time lies ahead of the clock (the two refusals exclude each other
    for a token whose expiry is not before its issue time); the environment
    sets no key. *)
Definition plain_encode (payload : Payload) : Payload := payload.
Definition plain_decode (token : Payload) (now : Z) : JwtError + Payload :=
  if (exp token <=? now)%Z then inl ExpiredSignatureError
  else if (now <? iat token)%Z then inl InvalidTokenError
  else inr token.
Definition no_environment (name : string) : option string := None.
Definition no_hash (s : string) : string := s.

(** The key under which [get_valid_api_keys] lists the value of an
    environment key: its first 8 characters and the first 8 of its hash *)
Definition key_identifier (sha256_hexdigest : string -> string)
           (api_key : string) : string :=
  (prefix 8 api_key ++ "_" ++ prefix 8 (sha256_hexdigest api_key))%string.

(** The API keys that are accepted: the two built-in keys, and for each of
    the four environment keys that is set to a value that is not empty, the
    value itself and its identifier. *)
Definition accepted_key (sha256_hexdigest : string -> string)
           (getenv : string -> option string) (api_key : string) : Prop :=
  api_key = "demo_key_123" \/ api_key = "test_key_456"
  \/ exists env_key value,
       In env_key env_keys /\ getenv env_key = Some value /\ value <> ""
       /\ (api_key = value \/ api_key = key_identifier sha256_hexdigest value).

(** An environment in which the key of one provider is set *)
Definition openai_environment (name : string) : option string :=
  if String.eqb name "OPENAI_API_KEY" then Some "sk-test-0123456789" else None.

End Auth.

(** ** The session multiplexer ([api/websocket_manager.py]) *)

Module Sessions.

Record WebSocketConnection : Type := {
  client_id : string;
  connected_at : Q;
  last_activity : Q;
  message_count : nat;
  is_active : bool
}.

Record WebSocketManager : Type := {
  active_connections : gmap string WebSocketConnection;
  connection_groups : gmap string (list string)
}.

(** [WebSocketManager.__init__] *)
Definition new_manager : WebSocketManager :=
  {| active_connections := ∅; connection_groups := ∅ |}.

(** [members.remove(client_id)] when the client is a member: the first
    occurrence goes. *)
Fixpoint remove_first (client : string) (members : list string) : list string :=
  match members with
  | [] => []
  | m :: members' =>
      if String.eqb m client then members' else m :: remove_first client members'
  end.

Definition member (client : string) (members : list string) : bool :=
  existsb (String.eqb client) members.

Definition connected (self : WebSocketManager) (client : string) : bool :=
  bool_decide (is_Some (active_connections self !! client)).

(** [disconnect] *)
Definition disconnect (self : WebSocketManager) (client : string)
  : WebSocketManager :=
  if connected self client then
    {| active_connections := delete client (active_connections self);
       connection_groups := remove_first client <$> connection_groups self |}
  else self.

(** [WebSocketConnection.send_message] when the transport accepts the
    message *)
Definition sent (c : WebSocketConnection) (now : Q) : WebSocketConnection :=
  {| client_id := client_id c; connected_at := connected_at c;
     last_activity := now; message_count := S (message_count c);
     is_active := is_active c |}.

(** [send_personal_message]. [delivered] tells whether the transport accepts
    the message; when it raises, the client is disconnected. *)
Definition send_personal_message (self : WebSocketManager) (now : Q)
           (delivered : bool) (client : string) : bool * WebSocketManager :=
  match active_connections self !! client with
  | None => (false, self)
  | Some connection =>
      if delivered then
        (true,
         {| active_connections :=
              <[client := sent connection now]> (active_connections self);
            connection_groups := connection_groups self |})
      else (false, disconnect self client)
  end.

(** [connect]. [accepted] tells whether [websocket.accept()] returns;
    the welcome message follows the registration. *)
Definition connect (self : WebSocketManager) (now : Q)
           (accepted delivered : bool) (client : string)
  : bool * WebSocketManager :=
  if accepted then
    let connection :=
      {| client_id := client; connected_at := now; last_activity := now;
         message_count := 0; is_active := true |} in
    let self1 :=
      {| active_connections := <[client := connection]> (active_connections self);
         connection_groups := connection_groups self |} in
    (true, snd (send_personal_message self1 now delivered client))
  else (false, self).

(** A loop that sends to each client of a list and counts the deliveries;
    [delivered client] is the transport's answer for that client. *)
Definition send_each (self : WebSocketManager) (now : Q)
           (delivered : string -> bool) (clients : list string)
  : nat * WebSocketManager :=
  fold_left
    (fun acc client =>
       let '(ok, self') :=
         send_personal_message (snd acc) now (delivered client) client in
       (if ok then S (fst acc) else fst acc, self'))
    clients (O, self).

(** [list(self.active_connections.keys())] *)
Definition client_ids (self : WebSocketManager) : list string :=
  (map_to_list (active_connections self)).*1.

(** [broadcast_message] *)
Definition broadcast_message (self : WebSocketManager) (now : Q)
           (delivered : string -> bool) (exclude_clients : list string)
  : nat * WebSocketManager :=
  send_each self now delivered
            (List.filter (fun client => negb (member client exclude_clients))
                         (client_ids self)).

(** [send_to_group] *)
Definition send_to_group (self : WebSocketManager) (now : Q)
           (delivered : string -> bool) (group_name : string)
  : nat * WebSocketManager :=
  match connection_groups self !! group_name with
  | None => (O, self)
  | Some members => send_each self now delivered members
  end.

(** [add_to_group] *)
Definition add_to_group (self : WebSocketManager) (client group_name : string)
  : bool * WebSocketManager :=
  if connected self client then
    let members := default [] (connection_groups self !! group_name) in
    let members' :=
      if member client members then members else members ++ [client] in
    (true,
     {| active_connections := active_connections self;
        connection_groups := <[group_name := members']> (connection_groups self) |})
  else (false, self).

(** [remove_from_group] *)
Definition remove_from_group (self : WebSocketManager)
           (client group_name : string) : WebSocketManager :=
  match connection_groups self !! group_name with
  | Some members =>
      {| active_connections := active_connections self;
         connection_groups :=
           <[group_name := remove_first client members]> (connection_groups self) |}
  | None => self
  end.

(** [is_client_connected] *)
Definition is_client_connected (self : WebSocketManager) (client : string)
  : bool :=
  match active_connections self !! client with
  | Some connection => is_active connection
  | None => false
  end.

(** [ping_client] *)
Definition ping_client (self : WebSocketManager) (now : Q) (delivered : bool)
           (client : string) : bool * WebSocketManager :=
  if is_client_connected self client
  then (true, snd (send_personal_message self now delivered client))
  else (false, self).

(** [ping_all_clients] *)
Definition ping_all_clients (self : WebSocketManager) (now : Q)
           (delivered : string -> bool)
  : list (string * bool) * WebSocketManager :=
  fold_left
    (fun acc client =>
       let '(ok, self') := ping_client (snd acc) now (delivered client) client in
       (fst acc ++ [(client, ok)], self'))
    (client_ids self) ([], self).

(** One round of [_cleanup_inactive_connections]: the clients idle for more
    than 300 seconds are disconnected. *)
Definition cleanup_inactive (self : WebSocketManager) (current_time : Q)
  : WebSocketManager :=
  let inactive_clients :=
    (List.filter
       (fun entry => Qlt_bool 300 (current_time - last_activity (snd entry)))
       (map_to_list (active_connections self))).*1 in
  fold_left disconnect inactive_clients self.

(** [shutdown]: each client is sent the notice and disconnected. *)
Definition shutdown (self : WebSocketManager) (now : Q)
           (delivered : string -> bool) : WebSocketManager :=
  fold_left
    (fun self' client =>
       disconnect (snd (send_personal_message self' now (delivered client) client))
                  client)
    (client_ids self) self.

(** The operations of the manager as events; each carries the clock reading
    and what the transport answers. *)
Inductive op : Type :=
| Connect (now : Q) (accepted delivered : bool) (client : string)
| Disconnect (client : string)
| SendPersonal (now : Q) (delivered : bool) (client : string)
| Broadcast (now : Q) (delivered : string -> bool) (exclude : list string)
| SendToGroup (now : Q) (delivered : string -> bool) (group_name : string)
| AddToGroup (client group_name : string)
| RemoveFromGroup (client group_name : string)
| PingAll (now : Q) (delivered : string -> bool)
| Cleanup (now : Q)
| Shutdown (now : Q) (delivered : string -> bool).

Definition step (self : WebSocketManager) (o : op) : WebSocketManager :=
  match o with
  | Connect now accepted delivered client =>
      snd (connect self now accepted delivered client)
  | Disconnect client => disconnect self client
  | SendPersonal now delivered client =>
      snd (send_personal_message self now delivered client)
  | Broadcast now delivered exclude =>
      snd (broadcast_message self now delivered exclude)
  | SendToGroup now delivered group_name =>
      snd (send_to_group self now delivered group_name)
  | AddToGroup client group_name => snd (add_to_group self client group_name)
  | RemoveFromGroup client group_name =>
      remove_from_group self client group_name
  | PingAll now delivered => snd (ping_all_clients self now delivered)
  | Cleanup now => cleanup_inactive self now
  | Shutdown now delivered => shutdown self now delivered
  end.

Definition run (ops : list op) : WebSocketManager := fold_left step ops new_manager.

(** Every member of every group is a key of the registry of connections,
    and no group lists a client twice. *)
Definition consistent (self : WebSocketManager) : Prop :=
  forall group_name members,
    connection_groups self !! group_name = Some members ->
    NoDup members
    /\ forall client, client ∈ members ->
                      is_Some (active_connections self !! client).

End Sessions.

(** ** The tool broker ([mcp_bridge.py]) *)

Module Broker.

Definition Params : Type := list (string * string).
Definition Result : Type := string.

(** An attribute of a tool object: a coroutine method, or plain data. *)
Inductive Attribute : Type :=
| Method (body : Params -> exn + Result)
| Data.

(** A tool server object: its attributes by name ([getattr]), and whether
    its [initialize], [start] and [shutdown] return or raise. *)
Record Tool : Type := {
  attribute : string -> option Attribute;
  initializes : bool;
  starts : bool;
  stops : bool
}.

Record MCPServerStatus : Type := {
  name : string;
  status : string;
  last_ping : option Q;
  error_message : option string;
  capabilities : list string
}.

Record MCPBridge : Type := {
  servers : gmap string Tool;
  server_status : gmap string MCPServerStatus;
  initialization_complete : bool
}.

(** [MCPBridge.__init__] *)
Definition new_bridge : MCPBridge :=
  {| servers := ∅; server_status := ∅; initialization_complete := false |}.

(** The names and declared capabilities of [server_configs] *)
Definition server_configs : list (string * list string) :=
  [ ("document",
     ["generate_pdf"; "generate_docx"; "generate_markdown"; "extract_text"]);
    ("email", ["send_email"; "read_inbox"; "compose_email"; "manage_contacts"]);
    ("search", ["web_search"; "knowledge_query"; "fact_check"; "research"]);
    ("ai_providers",
     ["claude_chat"; "gpt_chat"; "gemini_chat"; "model_selection"]);
    ("voice",
     ["speech_to_text"; "text_to_speech"; "voice_synthesis"; "audio_processing"]) ].

Definition set_status (st : MCPServerStatus) (s : string) (ping : option Q)
           (err : option string) : MCPServerStatus :=
  {| name := name st; status := s; last_ping := ping; error_message := err;
     capabilities := capabilities st |}.

(** [initialize]. [instance n] is the object that the class of the tool
    named [n] constructs. A tool whose [initialize] raises ends the loop with
    the exception; the tools before it stay registered, and the bridge is not
    marked as initialized. *)
Fixpoint initialize_from (instance : string -> Tool)
         (configs : list (string * list string)) (self : MCPBridge)
  : MCPBridge * option exn :=
  match configs with
  | [] => ({| servers := servers self; server_status := server_status self;
              initialization_complete := true |}, None)
  | (server_name, caps) :: configs' =>
      let server_instance := instance server_name in
      if initializes server_instance then
        initialize_from instance configs'
          {| servers := <[server_name := server_instance]> (servers self);
             server_status :=
               <[server_name := {| name := server_name; status := "initialized";
                                   last_ping := None; error_message := None;
                                   capabilities := caps |}]>
                 (server_status self);
             initialization_complete := initialization_complete self |}
      else (self, Some (RuntimeError "initialize failed"))
  end.

Definition initialize (instance : string -> Tool) (self : MCPBridge)
  : MCPBridge * option exn :=
  initialize_from instance server_configs self.

(** [start_all_servers] *)
Definition start_all_servers (self : MCPBridge) (now : Q) : exn + MCPBridge :=
  if initialization_complete self then
    inr {| servers := servers self;
           server_status :=
             map_fold
               (fun server_name server statuses =>
                  alter (fun st =>
                           if starts server
                           then set_status st "running" (Some now) (error_message st)
                           else set_status st "error" (last_ping st)
                                           (Some "start failed"))
                        server_name statuses)
               (server_status self) (servers self);
           initialization_complete := initialization_complete self |}
  else inl (RuntimeError "MCP Bridge not initialized").

(** [shutdown] *)
Definition shutdown (self : MCPBridge) : MCPBridge :=
  {| servers := servers self;
     server_status :=
       map_fold
         (fun server_name server statuses =>
            if stops server
            then alter (fun st => set_status st "stopped" (last_ping st)
                                             (error_message st))
                       server_name statuses
            else statuses)
         (server_status self) (servers self);
     initialization_complete := initialization_complete self |}.

(** [str(e)] *)
Definition message (e : exn) : string :=
  match e with
  | TypeError msg | AttributeError msg | RuntimeError msg => msg
  end.

(** [server.ping()]: the attribute [ping] of the tool, called without
    arguments *)
Definition ping (server : Tool) : exn + Result :=
  match attribute server "ping" with
  | Some (Method body) => body []
  | Some Data => inl (TypeError "object is not callable")
  | None => inl (AttributeError "object has no attribute 'ping'")
  end.

(** [get_server_status] at clock reading [now]: the status returned, which
    is the record that [server_status] holds *)
Definition get_server_status (self : MCPBridge) (server_name : string) (now : Q)
  : option MCPServerStatus * MCPBridge :=
  match server_status self !! server_name with
  | None => (None, self)
  | Some st =>
      let st' :=
        match servers self !! server_name with
        | Some server =>
            match ping server with
            | inr _ => set_status st (status st) (Some now) (error_message st)
            | inl e => set_status st "error" (last_ping st) (Some (message e))
            end
        | None => st
        end in
      (Some st',
       {| servers := servers self;
          server_status := <[server_name := st']> (server_status self);
          initialization_complete := initialization_complete self |})
  end.

(** A call that reached a tool: the tool, the command and the parameters. *)
Definition Call : Type := string * string * Params.

(** [execute_command]: the outcome, and the calls made on tools. The
    [except] branch logs and raises the exception again. *)
Definition execute_command (self : MCPBridge) (server_name command : string)
           (params : Params) : (exn + Result) * list Call :=
  match servers self !! server_name with
  | None =>
      (inl (RuntimeError ("MCP server '" ++ server_name ++ "' not available")), [])
  | Some server =>
      match attribute server command with
      | None =>
          (inl (AttributeError ("Server '" ++ server_name
                                ++ "' does not support command '"
                                ++ command ++ "'")), [])
      | Some (Method body) => (body params, [(server_name, command, params)])
      | Some Data => (inl (TypeError "object is not callable"), [])
      end
  end.

(** *** Tools to run the bridge with: the tool of a name has the life-cycle
    methods and the capabilities declared for the name as coroutine methods
    that answer "ok", and [is_running] and [server_name] as data. *)
Definition sample_instance (server_name : string) : Tool :=
  let methods :=
    ["initialize"; "start"; "shutdown"; "ping"]
    ++ flat_map (fun config => if String.eqb (fst config) server_name
                               then snd config else [])
                server_configs in
  {| attribute :=
       fun a =>
         if existsb (String.eqb a) methods then Some (Method (fun _ => inr "ok"))
         else if existsb (String.eqb a) ["is_running"; "server_name"]
              then Some Data
              else None;
     initializes := true; starts := true; stops := true |}.

(** The status record that [initialize] makes for a tool *)
Definition initialized (server_name : string) (caps : list string)
  : MCPServerStatus :=
  {| name := server_name; status := "initialized"; last_ping := None;
     error_message := None; capabilities := caps |}.

(** What [start_all_servers] at [now] makes of the status record of a
    tool *)
Definition started (server : Tool) (now : Q) (st : MCPServerStatus)
  : MCPServerStatus :=
  if starts server then set_status st "running" (Some now) (error_message st)
  else set_status st "error" (last_ping st) (Some "start failed").

(** The error kinds of a dispatch *)
Definition is_runtime_error (e : exn) : Prop :=
  match e with RuntimeError _ => True | _ => False end.
Definition is_attribute_error (e : exn) : Prop :=
  match e with AttributeError _ => True | _ => False end.

End Broker.

(** * Properties *)

(** ** Comparisons of rationals *)

Lemma Qlt_bool_iff (x y : Q) : Qlt_bool x y = true <-> (x < y)%Q.
Proof.
  unfold Qlt_bool. rewrite negb_true_iff. split.
  - intros H. apply Qnot_le_lt. intros Hle.
    apply Qle_bool_iff in Hle. congruence.
  - intros H. destruct (Qle_bool y x) eqn:E; [|reflexivity].
    apply Qle_bool_iff in E. exfalso. exact (Qlt_not_le _ _ H E).
Qed.

Lemma Qlt_bool_false_iff (x y : Q) : Qlt_bool x y = false <-> (y <= x)%Q.
Proof.
  unfold Qlt_bool. rewrite negb_false_iff. apply Qle_bool_iff.
Qed.

(** ** Floats: the order of the numbers other than NaN *)

Module FloatFacts.
Import Float.

Lemma ltb_lex (x y : float) :
  is_nan x = false -> is_nan y = false ->
  (ltb x y = true <-> lex_lt (order_key x) (order_key y)).
Proof.
  unfold ltb, SFltb, lex_lt.
  destruct x as [sx|sx| |sx mx ex], y as [sy|sy| |sy my ey];
    try discriminate; intros _ _.
  9: { destruct sx, sy; cbn [SFcompare order_key fst snd];
         change (PosDef.Pos.compare_cont Eq mx my) with (Pos.compare mx my);
         destruct (Z.compare_spec ex ey); destruct (Pos.compare_spec mx my);
         cbn [CompOpp]; split; try discriminate; try reflexivity; try lia. }
  all: try (destruct sx); try (destruct sy); cbn;
    split; try discriminate; try reflexivity; try lia.
Qed.

Lemma eqb_lex (x y : float) :
  eqb x y = true
  <-> is_nan x = false /\ is_nan y = false /\ order_key x = order_key y.
Proof.
  unfold eqb, SFeqb.
  destruct x as [sx|sx| |sx mx ex], y as [sy|sy| |sy my ey].
  16: { destruct sx, sy; cbn [SFcompare order_key is_nan];
          change (PosDef.Pos.compare_cont Eq mx my) with (Pos.compare mx my);
          destruct (Z.compare_spec ex ey); destruct (Pos.compare_spec mx my);
          cbn [CompOpp]; split; try discriminate;
          try (intros (_ & _ & Hk);
               (discriminate Hk || (injection Hk; intros; lia)));
          intros _; repeat split; congruence. }
  all: try (destruct sx); try (destruct sy); cbn;
    split; try discriminate; try (intros (H1 & H2 & H3); congruence);
    intros; repeat split; reflexivity.
Qed.




Lemma eqb_not_ltb (x y q : float) :
  eqb x q = true -> eqb y q = true -> ltb x y = false.
Proof.
  intros H1 H2. apply eqb_lex in H1 as (Ex & _ & H1), H2 as (Ey & _ & H2).
  apply not_true_iff_false. rewrite ltb_lex by assumption.
  unfold lex_lt. rewrite H1, H2. lia.
Qed.

End FloatFacts.

(** ** Search ranking: the merged list of a web search *)

Module SearchFacts.
Import Search.

Lemma existsb_eqb_false (u : string) (seen : list string) :
  existsb (String.eqb u) seen = false -> u ∉ seen.
Proof.
  intros H Hin. apply not_true_iff_false in H. apply H.
  apply existsb_exists. exists u.
  split; [now apply list_elem_of_In | apply String.eqb_refl].
Qed.



Lemma unique_results_first (seen : list string) (results : list SearchResult)
      (r : SearchResult) :
  r ∈ unique_results seen results
  <-> (result_url r <> "" /\ (result_url r ∉ seen)
       /\ first_with_url r results = Some r).
Proof.
  unfold first_with_url.
  revert seen. induction results as [|x rest IH]; intros seen.
  - simpl. split; [intros H; now apply elem_of_nil in H|].
    intros (_ & _ & H). discriminate.
  - cbn [unique_results find]. fold (result_url x).
    destruct (negb (String.eqb (result_url x) "")
              && negb (existsb (String.eqb (result_url x)) seen)) eqn:E.
    + apply andb_true_iff in E as [E1 E2].
      apply negb_true_iff in E1, E2. apply String.eqb_neq in E1.
      apply existsb_eqb_false in E2.
      rewrite elem_of_cons, IH. split.
      * intros [-> | (H1 & H2 & H3)].
        -- now rewrite String.eqb_refl.
        -- rewrite elem_of_cons in H2.
           destruct (String.eqb_spec (result_url x) (result_url r)) as [Heq|Hne].
           ++ exfalso. apply H2. now left.
           ++ repeat split; auto.
      * intros (H1 & H2 & H3).
        destruct (String.eqb_spec (result_url x) (result_url r)) as [Heq|Hne].
        -- left. congruence.
        -- right. repeat split; auto. rewrite elem_of_cons.
           intros [H|H]; [now apply Hne | now apply H2].
    + assert (Hx : result_url x = "" \/ result_url x ∈ seen).
      { apply andb_false_iff in E as [E|E]; apply negb_false_iff in E.
        - left. now apply String.eqb_eq.
        - right. apply existsb_exists in E as (u & Hin & Hu).
          apply String.eqb_eq in Hu. subst u. now apply list_elem_of_In. }
      rewrite IH.
      destruct (String.eqb_spec (result_url x) (result_url r)) as [Heq|Hne].
      * split.
        -- intros (H1 & H2 & _). exfalso. rewrite <- Heq in *.
           destruct Hx; auto.
        -- intros (H1 & H2 & _). exfalso. rewrite <- Heq in *.
           destruct Hx; auto.
      * reflexivity.
Qed.

Section Sorting.
Context {A : Type} (key : A -> Float.float).

Lemma insert_desc_perm (x : A) (l : list A) : insert_desc key x l ≡ₚ x :: l.
Proof.
  induction l as [|y l IH]; simpl.
  - reflexivity.
  - destruct (Float.ltb (key x) (key y)).
    + rewrite IH. apply perm_swap.
    + reflexivity.
Qed.

Lemma sorted_desc_perm (l : list A) : sorted_desc key l ≡ₚ l.
Proof.
  induction l as [|x l IH]; simpl.
  - reflexivity.
  - unfold sorted_desc in *. simpl. rewrite insert_desc_perm. now constructor.
Qed.




End Sorting.






End SearchFacts.

(** ** The classifier *)

Module ClassifierFacts.
Import Classifier.

(** C7. The confidence level cuts the confidence range at 0.3, 0.5 and 0.8:
    very low up to 0.3, low above 0.3 up to 0.5, medium above 0.5 up to 0.8,
    high above 0.8; so every confidence has exactly one level, and each of
    the four levels is the level of a confidence between 0 and 1. *)
Theorem confidence_level_partition :
  (forall r : ClassificationResult,
      (confidence_level r = VERY_LOW <-> (confidence r <= 3 # 10)%Q)
      /\ (confidence_level r = LOW
          <-> (3 # 10 < confidence r)%Q /\ (confidence r <= 5 # 10)%Q)
      /\ (confidence_level r = MEDIUM
          <-> (5 # 10 < confidence r)%Q /\ (confidence r <= 8 # 10)%Q)
      /\ (confidence_level r = HIGH <-> (8 # 10 < confidence r)%Q))
  /\ (forall level : IntentConfidence,
         exists r, (0 <= confidence r)%Q /\ (confidence r <= 1)%Q
                   /\ confidence_level r = level).
Proof.
  split.
  - intros r. unfold confidence_level.
    destruct (Qlt_bool (8 # 10) (confidence r)) eqn:E8;
      [apply Qlt_bool_iff in E8 | apply Qlt_bool_false_iff in E8];
      (destruct (Qlt_bool (5 # 10) (confidence r)) eqn:E5;
       [apply Qlt_bool_iff in E5 | apply Qlt_bool_false_iff in E5]);
      (destruct (Qlt_bool (3 # 10) (confidence r)) eqn:E3;
       [apply Qlt_bool_iff in E3 | apply Qlt_bool_false_iff in E3]);
      repeat split; intros; try discriminate; try tauto; try lra;
        exfalso; lra.
  - intros level.
    set (at_ (c : Q) :=
           {| category := UNKNOWN; intent := ""; confidence := c;
              parameters := ∅; context_used := false; preprocessing_time := 0;
              classification_time := 0; suggestions := []; raw_text := "";
              normalized_text := "" |}).
    destruct level.
    + exists (at_ (9 # 10)). repeat split; simpl; try lra.
    + exists (at_ (6 # 10)). repeat split; simpl; try lra.
    + exists (at_ (4 # 10)). repeat split; simpl; try lra.
    + exists (at_ (1 # 10)). repeat split; simpl; try lra.
Qed.

(** C2. Two calls of [classify_command] in succession with the same
    arguments, on a clock of the present day: the second call is not served
    from the cache (no cache hit is counted, two classifications are), and it
    returns another confidence than the first, because the first call made
    its category the last category of the context. *)
Theorem repeated_classification_recomputed :
  let first :=
    classify_command unfitted no_captures wall_clock init 0
                     "hello" "u1" "s1" true in
  let second :=
    classify_command unfitted no_captures wall_clock first.1.2 first.2
                     "hello" "u1" "s1" true in
  is_Some (classification_cache first.1.2 !! cache_key "hello" "u1" "s1")
  /\ cache_hits second.1.2 = 0%nat
  /\ total_classifications second.1.2 = 2%nat
  /\ category first.1.1 = GENERAL_CONVERSATION
  /\ (confidence first.1.1 == 48 # 100)%Q
  /\ category second.1.1 = GENERAL_CONVERSATION
  /\ (confidence second.1.1 == 58 # 100)%Q.
Proof.
  vm_compute. repeat split; try reflexivity. eexists; reflexivity.
Qed.

(** Counterexample to C5: the call with [use_context = True] stores its
    result under the key that the call with [use_context = False] looks up.
    The second call finds that entry, and replaces it with its own result
    (on a clock of the present day the freshness test of the cache fails):
    after the two calls the cache holds one entry, not one for each
    flag. *)
Lemma cache_entry_shared_by_use_context :
  let first :=
    classify_command unfitted no_captures wall_clock init 0
                     "hello" "u1" "s1" true in
  let second :=
    classify_command unfitted no_captures wall_clock first.1.2 first.2
                     "hello" "u1" "s1" false in
  classification_cache first.1.2 !! cache_key "hello" "u1" "s1"
    = Some first.1.1
  /\ context_used first.1.1 = true
  /\ classification_cache second.1.2 !! cache_key "hello" "u1" "s1"
     = Some second.1.1
  /\ context_used second.1.1 = false
  /\ classification_cache second.1.2
     = {[ cache_key "hello" "u1" "s1" := second.1.1 ]}.
Proof.
  vm_compute. repeat split; reflexivity.
Qed.

(** Counterexample to C6: after a greeting was classified for the same user
    and session, the empty text is classified with the context boost of the
    last category, as general conversation with confidence 0.1. *)
Lemma empty_text_after_greeting :
  let first :=
    classify_command unfitted no_captures wall_clock init 0
                     "hello" "u1" "s1" true in
  let second :=
    classify_command unfitted no_captures wall_clock first.1.2 first.2
                     "" "u1" "s1" true in
  preprocess_text "" = ""
  /\ category second.1.1 = GENERAL_CONVERSATION
  /\ (confidence second.1.1 == 1 # 10)%Q.
Proof.
  vm_compute. repeat split; reflexivity.
Qed.

Section Classification.
Variable similarity : list string -> string -> Q.
Variable captures : CommandCategory -> string -> gmap string pyval.
Variable clock : nat -> Q.

Local Abbreviation classify := (classify_command similarity captures clock).

Lemma cache_lookup_Some (self : VoiceClassifier) (key : string) (now : Q)
      (r : ClassificationResult) :
  cache_lookup self key now = Some r -> classification_cache self !! key = Some r.
Proof.
  unfold cache_lookup. destruct (classification_cache self !! key) as [c|];
    [|discriminate].
  destruct (Qlt_bool _ _); [|discriminate]. now intros [= ->].
Qed.

(** The result of a call is the cache entry under its key afterwards, and
    the time to live is not changed. *)
Lemma classify_stores (self : VoiceClassifier) (k : nat)
      (text0 user session : string) (use_context : bool) :
  classification_cache (classify self k text0 user session use_context).1.2
    !! cache_key text0 user session
  = Some (classify self k text0 user session use_context).1.1
  /\ cache_ttl (classify self k text0 user session use_context).1.2
     = cache_ttl self.
Proof.
  unfold classify_command.
  destruct (cache_lookup self _ _) as [cached|] eqn:E.
  - simpl. split; [|reflexivity]. eapply cache_lookup_Some, E.
  - destruct (classification_cache self !! cache_key text0 user session);
      destruct (context_cache self !! context_key user session);
      simpl; (split; [apply lookup_insert_eq | reflexivity]).
Qed.

(** The two ways of a call. When the cache serves the call, the result is
    the cached one, a hit is counted and the cache is left as it was;
    otherwise the result is computed for the text and the [use_context] flag
    of the call, and is stored under the key of the call. *)
Lemma classify_cases (self : VoiceClassifier) (k : nat)
      (text0 user session : string) (use_context : bool) :
  let out := classify self k text0 user session use_context in
  match cache_lookup self (cache_key text0 user session) (clock (k + 1)) with
  | Some cached_result =>
      out.1.1 = cached_result
      /\ classification_cache out.1.2 = classification_cache self
      /\ cache_hits out.1.2 = S (cache_hits self)
      /\ total_classifications out.1.2 = total_classifications self
  | None =>
      context_used out.1.1 = use_context
      /\ raw_text out.1.1 = text0
      /\ classification_cache out.1.2
         = <[cache_key text0 user session := out.1.1]>
             (classification_cache self)
      /\ cache_hits out.1.2 = cache_hits self
      /\ total_classifications out.1.2 = S (total_classifications self)
  end.
Proof.
  intros out. subst out. unfold classify_command.
  destruct (cache_lookup self _ _) as [cached|] eqn:E.
  - simpl. repeat split; reflexivity.
  - destruct (classification_cache self !! cache_key text0 user session);
      destruct (context_cache self !! context_key user session);
      simpl; repeat split; reflexivity.
Qed.

(** C5, amended. The cache key is the digest of the text, followed by the
    user and the session; [use_context] has no part in it. So two calls for
    the same text, user and session use one cache entry, whatever their
    [use_context] flags: the result of the first call is stored under the
    key, and the second call looks that entry up. When the freshness test
    of the cache passes, the second call is served the result of the first;
    otherwise it computes a result for its own flag and replaces the entry
    with it. Either way the cache has the same keys after the second call as
    after the first, the other entries are as they were, and the entry under
    the key is the result of the second call. *)
Theorem cache_entry_ignores_use_context (self : VoiceClassifier) (k k' : nat)
        (text0 user session : string) (use_context1 use_context2 : bool) :
  let first := classify self k text0 user session use_context1 in
  let second := classify first.1.2 k' text0 user session use_context2 in
  cache_key text0 user session
  = (MD5.hexdigest text0 ++ "_" ++ user ++ "_" ++ session)%string
  /\ classification_cache first.1.2 !! cache_key text0 user session
     = Some first.1.1
  /\ classification_cache second.1.2 !! cache_key text0 user session
     = Some second.1.1
  /\ dom (classification_cache second.1.2)
     = dom (classification_cache first.1.2)
  /\ (forall key,
         key <> cache_key text0 user session ->
         classification_cache second.1.2 !! key
         = classification_cache first.1.2 !! key)
  /\ (if Qlt_bool (clock (k' + 1) - classification_time first.1.1)
                  (cache_ttl first.1.2)
      then second.1.1 = first.1.1
           /\ cache_hits second.1.2 = S (cache_hits first.1.2)
           /\ total_classifications second.1.2
              = total_classifications first.1.2
      else context_used second.1.1 = use_context2
           /\ raw_text second.1.1 = text0
           /\ cache_hits second.1.2 = cache_hits first.1.2
           /\ total_classifications second.1.2
              = S (total_classifications first.1.2)).
Proof.
  intros first second.
  destruct (classify_stores self k text0 user session use_context1)
    as [Hstored _].
  fold first in Hstored.
  destruct (classify_stores first.1.2 k' text0 user session use_context2)
    as [Hstored2 _].
  fold second in Hstored2.
  pose proof (classify_cases first.1.2 k' text0 user session use_context2)
    as Hcases.
  cbv zeta in Hcases. fold second in Hcases.
  unfold cache_lookup in Hcases. rewrite Hstored in Hcases.
  split; [reflexivity|]. split; [exact Hstored|]. split; [exact Hstored2|].
  destruct (Qlt_bool _ _).
  - destruct Hcases as (Hresult & Hcache & Hhits & Htotal).
    rewrite Hcache. repeat split; auto.
  - destruct Hcases as (Hused & Hraw & Hcache & Hhits & Htotal).
    rewrite Hcache. split; [|split].
    + apply dom_insert_lookup_L. eauto.
    + intros key Hkey. now rewrite lookup_insert_ne.
    + repeat split; auto.
Qed.

(** No pattern of any category matches the empty text. *)
Lemma empty_text_unmatched (c : CommandCategory) :
  calculate_pattern_confidence "" c = 0%Q.
Proof. destruct c; vm_compute; reflexivity. Qed.

Lemma suggestions_not_empty (normalized : string) :
  _generate_suggestions normalized <> []
  /\ (List.length (_generate_suggestions normalized) <= 3)%nat.
Proof.
  unfold _generate_suggestions.
  destruct (has_keyword _ _), (has_keyword _ _), (has_keyword _ _),
    (has_keyword _ _); simpl; split; (discriminate || lia).
Qed.

(** When no category scores above zero, the loop over the categories keeps
    its initial best match. *)
Lemma best_match_unscored (normalized : string) (use_context : bool)
      (context : ConversationContext) :
  (forall c, c <> UNKNOWN ->
             (combined_confidence similarity normalized use_context context c
              <= 0)%Q) ->
  best_match similarity captures normalized use_context context
  = {| best_category := UNKNOWN; best_confidence := 0; best_parameters := ∅ |}.
Proof.
  intros Hzero. unfold best_match.
  generalize all_categories as cs.
  induction cs as [|c cs IH]; simpl; [reflexivity|].
  rewrite <- IH at 2. f_equal.
  unfold try_category. case_bool_decide as Hc; [reflexivity|].
  simpl. now rewrite (proj2 (Qlt_bool_false_iff _ _) (Hzero c Hc)).
Qed.

(** C6, amended. A text whose normalized form is empty, or is matched by
    no pattern, and has no similarity to any category, is classified as
    unknown with confidence 0 and with suggestions (at most three), provided
    that the call is not served from the cache and that no context boost
    applies: [use_context] is off, or the context of the user and session
    has no last category yet or has unknown as its last category. *)
Theorem unrecognized_text_unknown (self : VoiceClassifier) (k : nat)
        (text0 user session : string) (use_context : bool) :
  (preprocess_text text0 = ""
   \/ forall c, (calculate_pattern_confidence (preprocess_text text0) c == 0)%Q) ->
  (forall c, (calculate_similarity_confidence
                similarity (preprocess_text text0) c == 0)%Q) ->
  cache_lookup self (cache_key text0 user session) (clock (k + 1)) = None ->
  (use_context = false
   \/ forall context,
       context_cache self !! context_key user session = Some context ->
       last_command_category context = None
       \/ last_command_category context = Some UNKNOWN) ->
  let r := (classify self k text0 user session use_context).1.1 in
  category r = UNKNOWN
  /\ confidence r = 0%Q
  /\ suggestions r <> []
  /\ (List.length (suggestions r) <= 3)%nat.
Proof.
  intros Hpattern Hsim Hmiss Hboost r. subst r.
  assert (Hp : forall c,
             (calculate_pattern_confidence (preprocess_text text0) c == 0)%Q).
  { destruct Hpattern as [-> | H]; [|exact H].
    intros c. now rewrite empty_text_unmatched. }
  assert (Hbest : forall context,
             (context_cache self !! context_key user session = Some context
              \/ context = new_context user session
                             (clock (match classification_cache self
                                             !! cache_key text0 user session with
                                     | Some _ => k + 2
                                     | None => k + 1
                                     end + 4))) ->
             best_match similarity captures (preprocess_text text0)
                        use_context context
             = {| best_category := UNKNOWN; best_confidence := 0;
                  best_parameters := ∅ |}).
  { intros context Hctx. apply best_match_unscored. intros c Hc.
    unfold combined_confidence.
    assert (Hoff : use_context
                   && bool_decide (last_command_category context = Some c)
                   = false).
    { destruct Hboost as [-> | Hlast]; [reflexivity|].
      apply andb_false_iff. right. apply bool_decide_eq_false.
      destruct Hctx as [Hctx | ->].
      - destruct (Hlast _ Hctx) as [E | E]; rewrite E; congruence.
      - simpl. congruence. }
    rewrite Hoff. specialize (Hp c). specialize (Hsim c). lra. }
  unfold classify_command. rewrite Hmiss.
  destruct (context_cache self !! context_key user session) as [context|] eqn:Ec;
    cbv beta iota zeta delta [fst snd category confidence suggestions];
    [rewrite (Hbest context) by (now left) | rewrite Hbest by (now right)];
    cbv beta iota delta [best_category best_confidence];
    change (Qlt_bool 0 (5 # 10)) with true; cbv iota;
    repeat split; apply suggestions_not_empty.
Qed.

(** On a clock that never runs backwards and reads at least an hour
    ([cache_ttl]) after the epoch, no call is served from the cache. *)
Section PresentDay.
Hypothesis clock_monotone : forall i j, (i <= j)%nat -> (clock i <= clock j)%Q.
Hypothesis clock_late : forall i, (3600 <= clock i)%Q.

Lemma stale_lookup (self : VoiceClassifier) (k k' : nat) (key : string) :
  stale clock self k -> (k <= k')%nat -> cache_lookup self key (clock k') = None.
Proof.
  intros [Httl Hold] Hk. unfold cache_lookup.
  destruct (classification_cache self !! key) as [r|] eqn:E; [|reflexivity].
  rewrite Httl.
  rewrite (proj2 (Qlt_bool_false_iff _ _)); [reflexivity|].
  pose proof (Hold key r E). pose proof (clock_monotone k k' Hk). lra.
Qed.

Lemma classify_stale (self : VoiceClassifier) (k : nat)
      (text0 user session : string) (use_context : bool) :
  stale clock self k ->
  stale clock (classify self k text0 user session use_context).1.2
        (classify self k text0 user session use_context).2
  /\ cache_hits (classify self k text0 user session use_context).1.2
     = cache_hits self.
Proof.
  intros Hstale. unfold classify_command.
  rewrite (stale_lookup self k (k + 1) _ Hstale) by lia.
  destruct Hstale as [Httl Hold].
  set (k1 := match classification_cache self !! cache_key text0 user session with
             | Some _ => (k + 2)%nat
             | None => (k + 1)%nat
             end).
  assert (Hk1 : (k <= k1)%nat) by (unfold k1; destruct (_ !! _); lia).
  destruct (context_cache self !! context_key user session) as [context|];
    cbv beta iota zeta delta [fst snd];
    (split; [split; [exact Httl|] | reflexivity]);
    intros key r Hr; cbn [classification_cache] in Hr;
    (destruct (decide (cache_key text0 user session = key)) as [<-|Hne];
     [ rewrite lookup_insert_eq in Hr; injection Hr as <-;
       cbn [classification_time]
     | rewrite lookup_insert_ne in Hr by exact Hne;
       pose proof (Hold key r Hr) ]).
  - pose proof (clock_late (k1 + 4)).
    pose proof (clock_monotone (k1 + 4 + 1) (k1 + 4 + 4) ltac:(lia)). lra.
  - pose proof (clock_monotone k (k1 + 4 + 4) ltac:(lia)). lra.
  - pose proof (clock_late (k1 + 5)).
    pose proof (clock_monotone (k1 + 5 + 1) (k1 + 5 + 4) ltac:(lia)). lra.
  - pose proof (clock_monotone k (k1 + 5 + 4) ltac:(lia)). lra.
Qed.

Lemma cache_never_serves (requests : list Request) :
  cache_hits (classify_all similarity captures clock init 0 requests).1 = 0%nat.
Proof.
  assert (Hinit : stale clock init 0).
  { split; [reflexivity|]. intros key r H. simpl in H.
    now rewrite lookup_empty in H. }
  change 0%nat with (cache_hits init) at 2.
  revert Hinit. generalize init as self. generalize 0%nat as k.
  induction requests as [|[[[text0 user] session] use_context] requests IH];
    intros k self Hstale; [reflexivity|].
  simpl.
  destruct (classify_stale self k text0 user session use_context Hstale)
    as [Hstale' Hhits].
  destruct (classify self k text0 user session use_context) as [[r self'] k'].
  simpl in Hstale', Hhits. rewrite <- Hhits. now apply IH.
Qed.

End PresentDay.

End Classification.

(** The text "Um uh" has an empty normalized form; the fresh classifier
    classifies it as unknown. *)
Lemma unrecognized_text_unknown_witness :
  preprocess_text "Um uh" = ""
  /\ category (classify_command unfitted no_captures wall_clock init 0
                                "Um uh" "u1" "s1" true).1.1 = UNKNOWN.
Proof.
  split; [reflexivity|].
  apply (unrecognized_text_unknown unfitted no_captures wall_clock init 0
                                   "Um uh" "u1" "s1" true).
  - left. reflexivity.
  - intros c. destruct c; reflexivity.
  - reflexivity.
  - right. intros context H. vm_compute in H. discriminate.
Defined.

End ClassifierFacts.

(** ** The workflow engine *)

Module WorkflowFacts.
Import Workflow.

(** The [try] block of [_resolve_advanced_intent] raises for every text:
    at the latest, the call of [_identify_required_parameters] with two
    arguments does. So the function answers with its fallback. *)
Lemma resolve_intent_falls_back (clock : nat -> Q)
      (intent_classifier : option (string -> exn + list (string * Q)))
      (k : nat) (text0 : string) (basic : Classifier.ClassificationResult) :
  _resolve_advanced_intent clock intent_classifier k text0 basic
  = {| primary_intent := Classifier.intent basic;
       intent_confidence := Classifier.confidence basic;
       alternative_intents := [];
       intent_complexity := SIMPLE; estimated_steps := 1;
       parameters_needed := []; context_dependencies := [];
       workflow_template := None;
       resolution_time := (clock (k + 1)%nat - clock k)%Q |}.
Proof.
  unfold _resolve_advanced_intent, resolve_intent_body.
  destruct intent_classifier as [pipeline|];
    [destruct (pipeline text0) as [e|[|[label score] others]]|]; reflexivity.
Qed.

(** C3. The sequential scenario. The text has a sequential marker and four
    estimated steps by the functions that analyse it, but the intent
    resolution of the processor answers with its fallback (simple, one step,
    no template), and [process_advanced_command] creates no workflow: it
    reports a simple command with status completed, or the error of the
    parameter resolution, and stores nothing in [active_workflows]. *)
Theorem sequential_command_creates_no_workflow :
  _analyze_command_complexity sequential_command = SEQUENTIAL
  /\ _estimate_workflow_steps sequential_command SEQUENTIAL = 4%nat
  /\ _match_workflow_template sequential_command Classifier.UNKNOWN = None
  /\ forall similarity captures clock intent_classifier get_context
            (self : AdvancedVoiceProcessor) (k : nat) (fresh_id : string),
      let out :=
        process_advanced_command similarity captures clock intent_classifier
                                 get_context self k fresh_id
                                 sequential_command "u2" "s2" true in
      active_workflows out.1.2 = active_workflows self
      /\ match out.1.1 with
         | Processed r =>
             r_complexity r = "simple"
             /\ r_estimated_steps r = 1%nat
             /\ r_workflow_id r = None
             /\ r_workflow_status r = "completed"
             /\ r_multi_step r = false
         | Fallback e _ =>
             e = AttributeError
                   "'ConversationContext' object has no attribute 'get'"
         end.
Proof.
  split; [vm_compute; reflexivity|].
  split; [vm_compute; reflexivity|].
  split; [vm_compute; reflexivity|].
  intros similarity captures clock intent_classifier get_context self k fresh_id.
  generalize sequential_command as text0. intros text0 out. subst out.
  unfold process_advanced_command.
  destruct (Classifier.classify_command _ _ _ _ _ _ _ _ _)
    as [[basic clf] k1].
  rewrite resolve_intent_falls_back.
  unfold _resolve_intelligent_parameters.
  destruct (get_context "u2" "s2") as [context|].
  - split; reflexivity.
  - unfold _get_required_parameters, call_identify_required_parameters.
    cbv beta iota zeta delta [mbind exn_bind _detect_multi_step_workflow
                              estimated_steps workflow_template is_set
                              Nat.leb negb andb _execute_workflow fst snd
                              active_workflows r_complexity r_estimated_steps
                              r_workflow_id r_workflow_status r_multi_step
                              intent_complexity complexity_value option_map].
    repeat split; reflexivity.
Qed.

Lemma filter_completed (done todo : list CommandStep) :
  Forall is_completed done -> Forall is_pending todo ->
  List.filter completedb (done ++ todo) = done.
Proof.
  intros Hdone Htodo. rewrite List.filter_app.
  assert (H1 : List.filter completedb done = done).
  { induction Hdone as [|x l Hx _ IH]; simpl; [reflexivity|].
    unfold completedb at 1. rewrite bool_decide_eq_true_2 by exact Hx.
    now rewrite IH. }
  assert (H2 : List.filter completedb todo = []).
  { induction Htodo as [|x l Hx _ IH]; simpl; [reflexivity|].
    unfold completedb at 1. rewrite bool_decide_eq_false_2; [exact IH|].
    unfold is_pending in Hx. rewrite Hx. discriminate. }
  rewrite H1, H2. apply app_nil_r.
Qed.

Lemma fresh_under_way (w : MultiStepWorkflow) :
  fresh w -> steps w <> [] -> under_way w.
Proof.
  intros (Hpending & Hcur & Hstatus & Hpct) Hsteps.
  exists [], (steps w). repeat split; try assumption.
  - constructor.
  - intros H. contradiction.
  - intros H. rewrite Hstatus in H. discriminate.
  - rewrite Hpct. change (Qnat (List.length (@nil CommandStep))) with 0%Q.
    unfold Qdiv. now rewrite !Qmult_0_l.
Qed.

Lemma advance_under_way (w : MultiStepWorkflow) (step : CommandStep)
      (started completed now : Q) :
  under_way w -> get_current_step w = Some step ->
  under_way (advance w step started completed now)
  /\ List.length (steps (advance w step started completed now))
     = List.length (steps w).
Proof.
  intros (done & todo & Hsteps & Hdone & Htodo & Hcur & Hstatus & Hpct) Hget.
  unfold get_current_step in Hget. rewrite Hsteps, Hcur in Hget.
  rewrite lookup_app_r in Hget by lia. rewrite Nat.sub_diag in Hget.
  destruct todo as [|s todo']; [discriminate|].
  simpl in Hget. injection Hget as ->.
  pose (message := ("Step " ++ str_nat (current_step w + 1) ++ " completed")%string).
  pose (done' := done ++ [complete_step step started completed message]).
  assert (Hins : <[current_step w :=
                     complete_step step started completed message]> (steps w)
                 = done' ++ todo').
  { rewrite Hsteps, Hcur. unfold done'. rewrite <- app_assoc. simpl.
    replace (List.length done) with (List.length done + 0)%nat at 1 by lia.
    now rewrite insert_app_r. }
  assert (Hdone' : Forall is_completed done').
  { unfold done'. apply Forall_app. split; [exact Hdone|].
    repeat constructor. }
  assert (Htodo' : Forall is_pending todo') by now inversion Htodo.
  assert (Hlen : List.length (done' ++ todo') = List.length (steps w)).
  { rewrite <- Hins. apply length_insert. }
  assert (Hlen' : List.length done' = (current_step w + 1)%nat).
  { unfold done'. rewrite length_app, Hcur. reflexivity. }
  unfold advance. fold message. unfold update_progress, get_completed_steps.
  cbn [steps current_step status completion_percentage].
  rewrite Hins. fold completedb.
  rewrite (filter_completed done' todo' Hdone' Htodo').
  assert (Hpos : (0 <? List.length (done' ++ todo'))%nat = true).
  { apply Nat.ltb_lt. rewrite length_app, Hlen'. lia. }
  rewrite Hpos.
  destruct (List.length (done' ++ todo') <=? current_step w + 1)%nat eqn:E.
  - apply Nat.leb_le in E. rewrite length_app, Hlen' in E.
    assert (todo' = []) as -> by (destruct todo'; [reflexivity | simpl in E; lia]).
    split; [|simpl; exact Hlen].
    exists done', []. simpl.
    repeat split; try assumption; try reflexivity; try (symmetry; exact Hlen').
  - apply Nat.leb_gt in E. rewrite length_app, Hlen' in E.
    split; [|simpl; exact Hlen].
    exists done', todo'. simpl.
    repeat split; try assumption; try reflexivity; try (symmetry; exact Hlen').
    + intros ->. simpl in E. lia.
    + intros Hc. apply Hstatus in Hc. discriminate.
Qed.

Lemma under_way_progress (w : MultiStepWorkflow) :
  under_way w ->
  (completion_percentage w
   == Qnat (List.length (get_completed_steps w))
      / Qnat (List.length (steps w)) * 100)%Q
  /\ (status w = COMPLETED <-> Forall is_completed (steps w)).
Proof.
  intros (done & todo & Hsteps & Hdone & Htodo & Hcur & Hstatus & Hpct).
  split.
  - unfold get_completed_steps. fold completedb.
    rewrite Hsteps at 1. now rewrite (filter_completed done todo Hdone Htodo).
  - rewrite <- Hstatus. split.
    + intros ->. rewrite Hsteps, app_nil_r. exact Hdone.
    + intros Hall. destruct todo as [|s todo']; [reflexivity|].
      rewrite Hsteps in Hall. apply Forall_app in Hall as [_ Hall].
      inversion Hall as [|? ? Hs _]; subst. inversion Htodo as [|? ? Hp _]; subst.
      unfold is_completed in Hs. unfold is_pending in Hp. congruence.
Qed.

Lemma continue_workflow_under_way (clock : nat -> Q)
      (self : AdvancedVoiceProcessor) (k : nat) (wid wid' : string)
      (user_input : option string) (w : MultiStepWorkflow) :
  active_workflows self !! wid = Some w -> under_way w ->
  exists w',
    active_workflows (continue_workflow clock self k wid' user_input).1.2 !! wid
    = Some w'
    /\ under_way w'
    /\ List.length (steps w') = List.length (steps w).
Proof.
  intros Hw Hinv. unfold continue_workflow.
  destruct (active_workflows self !! wid') as [w0|] eqn:E0; [|simpl; eauto].
  destruct (get_current_step w0) as [step|] eqn:Es; [|simpl; eauto].
  simpl. destruct (decide (wid' = wid)) as [->|Hne].
  - rewrite lookup_insert_eq. rewrite Hw in E0. injection E0 as <-.
    destruct (advance_under_way w step (clock k) (clock (k + 1)%nat)
                                (clock (k + 2)%nat) Hinv Es) as [H1 H2].
    eauto.
  - rewrite lookup_insert_ne by exact Hne. eauto.
Qed.

(** C4, amended. A workflow with at least one step, held by the processor
    and not yet advanced: after any sequence of [continue_workflow] calls
    (for this or other workflows) its completion percentage is the number of
    completed steps divided by the number of steps, times 100, and its status
    is completed if and only if every step is completed. *)
Theorem workflow_progress (clock : nat -> Q) (self : AdvancedVoiceProcessor)
        (k : nat) (wid : string) (w : MultiStepWorkflow) (ids : list string) :
  active_workflows self !! wid = Some w ->
  fresh w ->
  steps w <> [] ->
  exists w',
    active_workflows (continue_all clock self k ids).1 !! wid = Some w'
    /\ List.length (steps w') = List.length (steps w)
    /\ (completion_percentage w'
        == Qnat (List.length (get_completed_steps w'))
           / Qnat (List.length (steps w')) * 100)%Q
    /\ (status w' = COMPLETED <-> Forall is_completed (steps w')).
Proof.
  intros Hw Hfresh Hsteps.
  assert (Hinv : under_way w) by now apply fresh_under_way.
  clear Hfresh Hsteps.
  enough (exists w',
             active_workflows (continue_all clock self k ids).1 !! wid = Some w'
             /\ under_way w'
             /\ List.length (steps w') = List.length (steps w))
    as (w' & H1 & H2 & H3).
  { exists w'. destruct (under_way_progress w' H2). auto. }
  revert self k w Hw Hinv. induction ids as [|wid' ids IH]; intros self k w Hw Hinv.
  - simpl. eauto.
  - simpl.
    destruct (continue_workflow_under_way clock self k wid wid' None w Hw Hinv)
      as (w1 & Hw1 & Hinv1 & Hlen1).
    destruct (continue_workflow clock self k wid' None) as [[res self1] k1].
    simpl in Hw1.
    destruct (IH self1 k1 w1 Hw1 Hinv1) as (w' & H1 & H2 & H3).
    exists w'. repeat split; try assumption. congruence.
Qed.

(** The workflow of two steps, advanced twice: it is completed. *)
Lemma workflow_progress_witness :
  active_workflows two_step_processor !! "wf-1" = Some two_step_workflow
  /\ fresh two_step_workflow
  /\ steps two_step_workflow <> []
  /\ exists w',
      active_workflows
        (continue_all Classifier.wall_clock two_step_processor 0
                      ["wf-1"; "wf-1"]).1 !! "wf-1" = Some w'
      /\ List.length (steps w') = List.length (steps two_step_workflow)
      /\ (completion_percentage w'
          == Qnat (List.length (get_completed_steps w'))
             / Qnat (List.length (steps w')) * 100)%Q
      /\ (status w' = COMPLETED <-> Forall is_completed (steps w')).
Proof.
  assert (H1 : active_workflows two_step_processor !! "wf-1"
               = Some two_step_workflow) by (vm_compute; reflexivity).
  assert (H2 : fresh two_step_workflow).
  { repeat split; try reflexivity. repeat constructor. }
  assert (H3 : steps two_step_workflow <> []) by discriminate.
  split; [exact H1|]. split; [exact H2|]. split; [exact H3|].
  exact (workflow_progress Classifier.wall_clock two_step_processor 0 "wf-1"
                           two_step_workflow ["wf-1"; "wf-1"] H1 H2 H3).
Defined.

(** Counterexample to C4 as stated: the workflow of two steps after one
    advancement has one of two steps completed and a completion percentage
    of 50, which is not 1/2. *)
Lemma half_done_is_fifty :
  match active_workflows
          (continue_all Classifier.wall_clock two_step_processor 0 ["wf-1"]).1
          !! "wf-1" with
  | Some w =>
      List.length (get_completed_steps w) = 1%nat
      /\ List.length (steps w) = 2%nat
      /\ (completion_percentage w == 50)%Q
      /\ ~ (completion_percentage w
            == Qnat (List.length (get_completed_steps w))
               / Qnat (List.length (steps w)))%Q
  | None => False
  end.
Proof.
  vm_compute. repeat split; try reflexivity. intros H. discriminate H.
Qed.

End WorkflowFacts.

(** ** Token issuance and verification *)

Module AuthFacts.
Import Auth.

Lemma append_not_empty (a b : string) : b <> "" -> (a ++ b)%string <> "".
Proof. destruct a; simpl; [auto | discriminate]. Qed.

Section Tokens.
Variable Token : Type.
Variable jwt_encode : Payload -> Token.
Variable jwt_decode : Token -> Z -> JwtError + Payload.
Variable sha256_hexdigest : string -> string.
Variable getenv : string -> option string.

(** The contract of the JWT library that is used: under the same key and
    algorithm, a token decodes to the payload it was encoded from at every
    clock reading from its issue time [iat] on that is before its expiry
    [exp]. Nothing is assumed of a reading before the issue time, at which
    the library may refuse the token. *)
Hypothesis jwt_valid :
  forall payload now,
    (iat payload <= now < exp payload)%Z ->
    jwt_decode (jwt_encode payload) now = inr payload.

Lemma validate_api_key_not_empty (api_key user_id : string) :
  validate_api_key sha256_hexdigest getenv api_key = Some user_id ->
  String.eqb user_id "" = false.
Proof.
  unfold validate_api_key.
  assert (Henv : environment_user getenv api_key = Some user_id ->
                 String.eqb user_id "" = false).
  { unfold environment_user. destruct (find _ _); [|discriminate].
    intros [= <-]. apply String.eqb_neq. now apply append_not_empty. }
  destruct (get_valid_api_keys sha256_hexdigest getenv !! api_key) as [u|];
    [|exact Henv].
  destruct (negb (String.eqb u "")) eqn:E; [|exact Henv].
  intros [= <-]. now apply negb_true_iff.
Qed.

Lemma expiration_hours_cases (user_agent : option string) :
  expiration_hours user_agent = (if mentions_ios user_agent then 24 else 1)%Z.
Proof.
  destruct user_agent as [ua|]; [|reflexivity]. simpl.
  destruct (String.eqb_spec ua "") as [->|]; reflexivity.
Qed.

Lemma timestamp_after (now h : Z) :
  timestamp (now + hours h) = (timestamp now + h * 3600)%Z.
Proof.
  unfold timestamp, hours, microseconds_per_second.
  now rewrite Z.div_add by lia.
Qed.

(** C9. For a valid API key, [generate_token] issues a token and declares
    a lifetime of one hour, or of 24 hours when the user agent mentions iOS.
    Verifying the token at a time from its issue on and before its expiry
    yields the user id of the key as subject, and an expiry that is the
    whole seconds of the issue instant plus the declared lifetime: within a
    second of the instant plus the lifetime, and within a second of the
    issue time [iat] plus the lifetime when the two clock readings of the
    call are in order and less than a second apart. *)
Theorem token_round_trip (now1 now2 : Z) (api_key user_id : string)
        (user_agent : option string) :
  validate_api_key sha256_hexdigest getenv api_key = Some user_id ->
  exists response,
    generate_token Token jwt_encode sha256_hexdigest getenv
                   now1 now2 api_key user_agent = inr response
    /\ expires_in response
       = (if mentions_ios user_agent then 24 * 3600 else 3600)%Z
    /\ forall now,
        (timestamp now2 <= now < timestamp now1 + expires_in response)%Z ->
        exists payload,
          verify_token Token jwt_decode (access_token response) now
          = inr payload
          /\ sub payload = Some user_id
          /\ iat payload = timestamp now2
          /\ exp payload = (timestamp now1 + expires_in response)%Z
          /\ (now1 + expires_in response * 1000000 - 1000000
              < exp payload * 1000000
              <= now1 + expires_in response * 1000000)%Z
          /\ ((now1 <= now2 < now1 + 1000000)%Z ->
              (iat payload + expires_in response - 1 <= exp payload
               <= iat payload + expires_in response)%Z).
Proof.
  intros Hvalid. unfold generate_token. rewrite Hvalid.
  rewrite (validate_api_key_not_empty _ _ Hvalid).
  eexists. split; [reflexivity|]. cbn [expires_in access_token].
  rewrite expiration_hours_cases.
  set (h := (if mentions_ios user_agent then 24 else 1)%Z).
  assert (Hh : (h = 24 \/ h = 1)%Z)
    by (unfold h; destruct (mentions_ios user_agent); auto).
  split; [unfold h; destruct (mentions_ios user_agent); reflexivity|].
  intros now Hnow.
  unfold create_access_token.
  assert (Hdelta : (hours h =? 0)%Z = false).
  { apply Z.eqb_neq. unfold hours, microseconds_per_second. lia. }
  rewrite Hdelta, timestamp_after.
  unfold verify_token. rewrite jwt_valid by exact Hnow.
  cbn [sub]. eexists. split; [reflexivity|]. cbn [sub iat exp].
  repeat split; try reflexivity.
  - unfold timestamp, microseconds_per_second.
    pose proof (Z.mod_pos_bound now1 1000000 ltac:(lia)).
    pose proof (Z.div_mod now1 1000000 ltac:(lia)). lia.
  - unfold timestamp, microseconds_per_second.
    pose proof (Z.mod_pos_bound now1 1000000 ltac:(lia)).
    pose proof (Z.div_mod now1 1000000 ltac:(lia)). lia.
  - unfold timestamp, microseconds_per_second.
    assert (now1 / 1000000 <= now2 / 1000000)%Z
      by (apply Z.div_le_mono; lia).
    assert (now2 / 1000000 <= (now1 + 1 * 1000000) / 1000000)%Z
      by (apply Z.div_le_mono; lia).
    rewrite Z.div_add in * by lia. lia.
  - unfold timestamp, microseconds_per_second.
    assert (now1 / 1000000 <= now2 / 1000000)%Z
      by (apply Z.div_le_mono; lia).
    lia.
Qed.

End Tokens.

Lemma plain_round_trip (payload : Payload) (now : Z) :
  (iat payload <= now < exp payload)%Z ->
  plain_decode (plain_encode payload) now = inr payload.
Proof.
  intros [Hiat Hexp]. unfold plain_decode, plain_encode.
  apply Z.leb_gt in Hexp. apply Z.ltb_ge in Hiat. now rewrite Hexp, Hiat.
Qed.

(** The demo key, presented by an iOS client: the token lasts 24 hours, and
    is verified a minute after the issue. *)
Lemma token_round_trip_witness :
  validate_api_key no_hash no_environment "demo_key_123" = Some "demo_user"
  /\ exists response,
      generate_token Payload plain_encode no_hash no_environment
                     1700000000123456 1700000000123999 "demo_key_123"
                     (Some "JarvisLive/1.0 (iOS 17.2)") = inr response
      /\ expires_in response = 86400%Z
      /\ exists payload,
          verify_token Payload plain_decode (access_token response) 1700000060
          = inr payload
          /\ sub payload = Some "demo_user"
          /\ exp payload = 1700086400%Z.
Proof.
  assert (Hkey : validate_api_key no_hash no_environment "demo_key_123"
                 = Some "demo_user") by (vm_compute; reflexivity).
  split; [exact Hkey|].
  destruct (token_round_trip Payload plain_encode plain_decode no_hash
              no_environment plain_round_trip
              1700000000123456 1700000000123999 "demo_key_123" "demo_user"
              (Some "JarvisLive/1.0 (iOS 17.2)") Hkey)
    as (response & Hresponse & Hlifetime & Hverify).
  exists response. split; [exact Hresponse|]. split; [exact Hlifetime|].
  destruct (Hverify 1700000060%Z) as (payload & Hpayload & Hsub & _ & Hexp & _).
  { rewrite Hlifetime. vm_compute. split; [discriminate | reflexivity]. }
  exists payload. split; [exact Hpayload|]. split; [exact Hsub|].
  rewrite Hexp, Hlifetime. reflexivity.
Defined.

End AuthFacts.

(** ** The session multiplexer *)

Module SessionFacts.
Import Sessions.

Lemma remove_first_subset (client x : string) (members : list string) :
  x ∈ remove_first client members -> x ∈ members.
Proof.
  induction members as [|m members IH]; simpl; [auto|].
  destruct (String.eqb m client).
  - intros H. now apply elem_of_cons; right.
  - intros [->|H]%elem_of_cons; apply elem_of_cons; auto.
Qed.

Lemma remove_first_NoDup (client : string) (members : list string) :
  NoDup members -> NoDup (remove_first client members).
Proof.
  induction 1 as [|m members Hm Hnd IH]; simpl; [constructor|].
  destruct (String.eqb m client); [exact Hnd|].
  constructor; [|exact IH]. intros H. apply Hm. eapply remove_first_subset, H.
Qed.

Lemma remove_first_gone (client : string) (members : list string) :
  NoDup members -> client ∉ remove_first client members.
Proof.
  induction 1 as [|m members Hm Hnd IH]; simpl.
  - apply not_elem_of_nil.
  - destruct (String.eqb_spec m client) as [->|Hne]; [exact Hm|].
    intros [E|H]%elem_of_cons; [congruence | contradiction].
Qed.

Lemma member_elem_of (client : string) (members : list string) :
  member client members = true <-> client ∈ members.
Proof.
  unfold member. rewrite existsb_exists. split.
  - intros (x & Hin & E). apply String.eqb_eq in E as ->.
    now apply list_elem_of_In.
  - intros H. exists client. split; [now apply list_elem_of_In|].
    apply String.eqb_refl.
Qed.

Lemma new_manager_consistent : consistent new_manager.
Proof. intros g members H. simpl in H. now rewrite lookup_empty in H. Qed.

Lemma disconnect_consistent (self : WebSocketManager) (client : string) :
  consistent self -> consistent (disconnect self client).
Proof.
  intros Hinv. unfold disconnect. destruct (connected self client); [|exact Hinv].
  intros g members Hg. simpl in *. rewrite lookup_fmap in Hg.
  destruct (connection_groups self !! g) as [members0|] eqn:E; [|discriminate].
  simpl in Hg. injection Hg as <-. destruct (Hinv g members0 E) as [Hnd Hin].
  split; [now apply remove_first_NoDup|].
  intros c Hc. rewrite lookup_delete_ne.
  - apply Hin. eapply remove_first_subset, Hc.
  - intros ->. now apply (remove_first_gone c members0).
Qed.

(** After [disconnect], no group lists the client. *)
Lemma disconnect_leaves_groups (self : WebSocketManager) (client : string) :
  consistent self ->
  forall group_name members,
    connection_groups (disconnect self client) !! group_name = Some members ->
    client ∉ members.
Proof.
  intros Hinv g members Hg. unfold disconnect, connected in Hg.
  case_bool_decide as Hc.
  - simpl in Hg. rewrite lookup_fmap in Hg.
    destruct (connection_groups self !! g) as [members0|] eqn:E; [|discriminate].
    simpl in Hg. injection Hg as <-.
    apply remove_first_gone. now apply (Hinv g members0).
  - intros Hin. apply Hc. now apply (Hinv g members).
Qed.

Lemma send_consistent (self : WebSocketManager) (now : Q) (delivered : bool)
      (client : string) :
  consistent self ->
  consistent (send_personal_message self now delivered client).2.
Proof.
  intros Hinv. unfold send_personal_message.
  destruct (active_connections self !! client) as [connection|] eqn:E;
    [|exact Hinv].
  destruct delivered; simpl; [|now apply disconnect_consistent].
  intros g members Hg. simpl in *. destruct (Hinv g members Hg) as [Hnd Hin].
  split; [exact Hnd|]. intros c Hc.
  destruct (decide (client = c)) as [->|Hne].
  - rewrite lookup_insert_eq. eauto.
  - rewrite lookup_insert_ne by exact Hne. now apply Hin.
Qed.

Lemma connect_consistent (self : WebSocketManager) (now : Q)
      (accepted delivered : bool) (client : string) :
  consistent self -> consistent (connect self now accepted delivered client).2.
Proof.
  intros Hinv. unfold connect. destruct accepted; [|exact Hinv].
  cbn [snd]. apply send_consistent.
  intros g members Hg. simpl in *. destruct (Hinv g members Hg) as [Hnd Hin].
  split; [exact Hnd|]. intros c Hc.
  destruct (decide (client = c)) as [->|Hne].
  - rewrite lookup_insert_eq. eauto.
  - rewrite lookup_insert_ne by exact Hne. now apply Hin.
Qed.

Lemma send_each_consistent (now : Q) (delivered : string -> bool)
      (clients : list string) (self : WebSocketManager) :
  consistent self -> consistent (send_each self now delivered clients).2.
Proof.
  unfold send_each. generalize 0%nat as count. revert self.
  induction clients as [|c clients IH]; intros self count Hinv; [exact Hinv|].
  simpl. pose proof (send_consistent self now (delivered c) c Hinv) as H.
  destruct (send_personal_message self now (delivered c) c) as [ok self'].
  now apply IH.
Qed.

Lemma add_to_group_consistent (self : WebSocketManager)
      (client group_name : string) :
  consistent self -> consistent (add_to_group self client group_name).2.
Proof.
  intros Hinv. unfold add_to_group, connected. case_bool_decide as Hc;
    [|exact Hinv].
  intros g members Hg. simpl in *.
  destruct (decide (group_name = g)) as [->|Hne].
  - rewrite lookup_insert_eq in Hg. injection Hg as <-.
    destruct (connection_groups self !! g) as [members0|] eqn:E; simpl.
    + destruct (Hinv g members0 E) as [Hnd Hin].
      destruct (member client members0) eqn:Em; [auto|]. split.
      * apply NoDup_app. repeat split; [exact Hnd | | apply NoDup_singleton].
        intros x Hx Hx'. apply list_elem_of_singleton in Hx' as ->.
        apply member_elem_of in Hx. congruence.
      * intros c [H|H]%elem_of_app; [now apply Hin|].
        now apply list_elem_of_singleton in H as ->.
    + split; [apply NoDup_singleton|].
      intros c H. now apply list_elem_of_singleton in H as ->.
  - rewrite lookup_insert_ne in Hg by exact Hne. exact (Hinv g members Hg).
Qed.

Lemma remove_from_group_consistent (self : WebSocketManager)
      (client group_name : string) :
  consistent self -> consistent (remove_from_group self client group_name).
Proof.
  intros Hinv. unfold remove_from_group.
  destruct (connection_groups self !! group_name) as [members0|] eqn:E;
    [|exact Hinv].
  intros g members Hg. simpl in *.
  destruct (decide (group_name = g)) as [->|Hne].
  - rewrite lookup_insert_eq in Hg. injection Hg as <-.
    destruct (Hinv g members0 E) as [Hnd Hin].
    split; [now apply remove_first_NoDup|].
    intros c Hc. apply Hin. eapply remove_first_subset, Hc.
  - rewrite lookup_insert_ne in Hg by exact Hne. exact (Hinv g members Hg).
Qed.

Lemma ping_all_consistent (now : Q) (delivered : string -> bool)
      (self : WebSocketManager) :
  consistent self -> consistent (ping_all_clients self now delivered).2.
Proof.
  unfold ping_all_clients. generalize (client_ids self) as clients.
  intros clients Hinv.
  change (consistent (([] : list (string * bool), self)).2) in Hinv.
  revert Hinv. generalize ([] : list (string * bool), self) as acc.
  induction clients as [|c clients IH]; intros acc Hinv; [exact Hinv|].
  simpl. apply IH.
  assert (H : consistent (ping_client acc.2 now (delivered c) c).2).
  { unfold ping_client. destruct (is_client_connected acc.2 c); [|exact Hinv].
    cbn [snd]. now apply send_consistent. }
  now destruct (ping_client acc.2 now (delivered c) c) as [ok self'].
Qed.

Lemma disconnect_all_consistent (clients : list string)
      (self : WebSocketManager) :
  consistent self -> consistent (fold_left disconnect clients self).
Proof.
  revert self. induction clients as [|c clients IH]; intros self Hinv;
    [exact Hinv|].
  simpl. apply IH. now apply disconnect_consistent.
Qed.

Lemma shutdown_consistent (now : Q) (delivered : string -> bool)
      (self : WebSocketManager) :
  consistent self -> consistent (shutdown self now delivered).
Proof.
  unfold shutdown. generalize (client_ids self) as clients. intros clients.
  revert self. induction clients as [|c clients IH]; intros self Hinv;
    [exact Hinv|].
  simpl. apply IH. apply disconnect_consistent. now apply send_consistent.
Qed.

Lemma step_consistent (self : WebSocketManager) (o : op) :
  consistent self -> consistent (step self o).
Proof.
  intros Hinv. destruct o; simpl.
  - now apply connect_consistent.
  - now apply disconnect_consistent.
  - now apply send_consistent.
  - now apply send_each_consistent.
  - unfold send_to_group. destruct (connection_groups self !! group_name);
      [now apply send_each_consistent | exact Hinv].
  - now apply add_to_group_consistent.
  - now apply remove_from_group_consistent.
  - now apply ping_all_consistent.
  - now apply disconnect_all_consistent.
  - now apply shutdown_consistent.
Qed.

Lemma run_consistent (ops : list op) : consistent (run ops).
Proof.
  unfold run. generalize new_manager_consistent. generalize new_manager.
  induction ops as [|o ops IH]; intros self Hinv; [exact Hinv|].
  simpl. apply IH. now apply step_consistent.
Qed.

(** C10. After any sequence of operations of the manager (connect,
    disconnect, personal, broadcast and group sends, group changes, pings,
    the janitor's round, shutdown), every client in the member list of any
    group is a key of the registry of active connections. Adding an
    unconnected client to a group is refused and changes nothing; a
    disconnection removes the client from every group; and a send that the
    transport fails is such a disconnection. *)
Theorem groups_hold_connected_clients (ops : list op) :
  let self := run ops in
  (forall group_name members client,
      connection_groups self !! group_name = Some members ->
      client ∈ members ->
      is_Some (active_connections self !! client))
  /\ (forall client group_name,
         active_connections self !! client = None ->
         add_to_group self client group_name = (false, self))
  /\ (forall client group_name members,
         connection_groups (disconnect self client) !! group_name
         = Some members ->
         client ∉ members)
  /\ (forall now client,
         is_Some (active_connections self !! client) ->
         send_personal_message self now false client
         = (false, disconnect self client)).
Proof.
  intros self. pose proof (run_consistent ops) as Hinv. fold self in Hinv.
  repeat split.
  - intros g members c Hg Hc. now apply (Hinv g members Hg).
  - intros c g Hc. unfold add_to_group, connected.
    rewrite bool_decide_eq_false_2; [reflexivity|].
    rewrite Hc. now intros [? ?].
  - intros c g members. now apply disconnect_leaves_groups.
  - intros now c [connection Hc]. unfold send_personal_message.
    now rewrite Hc.
Qed.

End SessionFacts.

(** ** The tool broker *)

Module BrokerFacts.
Import Broker.

(** Counterexample to C1: the bridge is initialized, started and shut down,
    so the recorded status of the search tool is stopped; a dispatch of
    [web_search] to it still calls the tool's method and returns its
    answer. *)
Lemma stopped_tool_is_reached :
  match start_all_servers (initialize sample_instance new_bridge).1 0 with
  | inr started =>
      let stopped := shutdown started in
      (status <$> server_status started !! "search") = Some "running"
      /\ (status <$> server_status stopped !! "search") = Some "stopped"
      /\ execute_command stopped "search" "web_search" [("query", "x")]
         = (inr "ok", [("search", "web_search", [("query", "x")])])
  | inl _ => False
  end.
Proof. vm_compute. repeat split; reflexivity. Qed.

(** C1, amended. A dispatch fails with a [RuntimeError] when the tool name
    is not registered and with an [AttributeError] when the tool object has
    no attribute named as the command; the two kinds differ, and in both
    cases no tool method is called. The recorded status is not consulted:
    two bridges with the same tools answer a dispatch alike whatever their
    status records, and a registered tool's method is called, and its outcome
    returned, whatever the status. *)
Theorem dispatch_outcomes (server_name command : string) (params : Params) :
  (forall self,
      servers self !! server_name = None ->
      exists e, execute_command self server_name command params = (inl e, [])
                /\ is_runtime_error e /\ ~ is_attribute_error e)
  /\ (forall self server,
         servers self !! server_name = Some server ->
         attribute server command = None ->
         exists e, execute_command self server_name command params = (inl e, [])
                   /\ is_attribute_error e /\ ~ is_runtime_error e)
  /\ (forall self self',
         servers self = servers self' ->
         execute_command self server_name command params
         = execute_command self' server_name command params)
  /\ (forall self server body,
         servers self !! server_name = Some server ->
         attribute server command = Some (Method body) ->
         execute_command self server_name command params
         = (body params, [(server_name, command, params)])).
Proof.
  repeat split.
  - intros self H. unfold execute_command. rewrite H.
    eexists. split; [reflexivity|]. simpl. tauto.
  - intros self server H Hattr. unfold execute_command. rewrite H, Hattr.
    eexists. split; [reflexivity|]. simpl. tauto.
  - intros self self' H. unfold execute_command. now rewrite H.
  - intros self server body H Hattr. unfold execute_command.
    now rewrite H, Hattr.
Qed.

End BrokerFacts.

(** ** The normalized text *)

Module TextExtra.
Import Text.

Lemma single_spaced_weaken (l : list ascii) :
  single_spaced true l = true -> single_spaced false l = true.
Proof.
  destruct l as [|c l]; simpl; [auto|].
  destruct (is_space c); [|auto]. rewrite andb_false_r. discriminate.
Qed.

Lemma single_spaced_start (l : list ascii) :
  single_spaced true l = true -> starts_space l = false.
Proof.
  destruct l as [|c l]; simpl; [auto|].
  destruct (is_space c); [|auto]. rewrite andb_false_r. discriminate.
Qed.

Lemma single_spaced_strengthen (l : list ascii) :
  single_spaced false l = true -> starts_space l = false ->
  single_spaced true l = true.
Proof.
  destruct l as [|c l]; simpl; [auto|]. intros H E. rewrite E in *. exact H.
Qed.

Lemma lstrip_no_start (l : list ascii) :
  starts_space l = false -> lstrip_chars l = l.
Proof. destruct l as [|c l]; simpl; [auto|]. now intros ->. Qed.

Lemma collapse_single_spaced (b : bool) (l : list ascii) :
  single_spaced b (Re.collapse_ws b l) = true.
Proof.
  revert b. induction l as [|c l IH]; intros b; simpl; [reflexivity|].
  destruct (is_space c) eqn:E.
  - destruct b; [apply IH|]. simpl. now rewrite IH.
  - simpl. rewrite E. apply IH.
Qed.

Lemma lstrip_single_spaced (b : bool) (l : list ascii) :
  single_spaced b l = true -> single_spaced true (lstrip_chars l) = true.
Proof.
  destruct l as [|c l]; simpl; [auto|].
  destruct (is_space c) eqn:E.
  - intros H. apply andb_true_iff in H as [_ H].
    rewrite lstrip_no_start; [exact H | now apply single_spaced_start].
  - intros H. simpl. now rewrite E.
Qed.

Lemma single_spaced_app (b : bool) (l1 l2 : list ascii) :
  single_spaced b (l1 ++ l2)
  = single_spaced b l1
    && single_spaced (match rev l1 with c :: _ => is_space c | [] => b end) l2.
Proof.
  revert b. induction l1 as [|c l1 IH]; intros b; simpl; [reflexivity|].
  assert (E : match rev l1 ++ [c] with x :: _ => is_space x | [] => b end
              = match rev l1 with x :: _ => is_space x | [] => is_space c end)
    by (destruct (rev l1); reflexivity).
  rewrite E. destruct (is_space c) eqn:Ec.
  - rewrite IH. now rewrite !andb_assoc.
  - now rewrite IH.
Qed.

Lemma rev_single_spaced (b : bool) (l : list ascii) :
  single_spaced b l = true -> single_spaced false (rev l) = true.
Proof.
  revert b. induction l as [|c l IH]; intros b H; simpl; [reflexivity|].
  rewrite single_spaced_app. simpl in H.
  rewrite rev_involutive. destruct (is_space c) eqn:E.
  - apply andb_true_iff in H as [H1 H2]. apply andb_true_iff in H1 as [H1 _].
    rewrite (IH _ H2). simpl. rewrite E, H1.
    pose proof (single_spaced_start l H2) as Hs.
    destruct l as [|x l']; simpl in *; [reflexivity | now rewrite Hs].
  - rewrite (IH _ H). simpl. now rewrite E.
Qed.

Lemma lstrip_suffix (l : list ascii) :
  exists dropped, l = dropped ++ lstrip_chars l.
Proof.
  induction l as [|c l [d IH]]; simpl; [now exists []|].
  destruct (is_space c); [|now exists []].
  exists (c :: d). simpl. now rewrite <- IH.
Qed.

Lemma rev_lstrip_start (l : list ascii) :
  starts_space l = false ->
  starts_space (rev (lstrip_chars (rev l))) = false.
Proof.
  intros H. destruct (lstrip_suffix (rev l)) as [d E].
  apply (f_equal (@rev ascii)) in E. rewrite rev_involutive, rev_app_distr in E.
  destruct (rev (lstrip_chars (rev l))) as [|x r]; [reflexivity|].
  simpl in E. subst l. exact H.
Qed.

Lemma strip_collapse_tidy (l : list ascii) :
  single_spaced true (strip_chars (Re.collapse_ws false l)) = true
  /\ single_spaced true (rev (strip_chars (Re.collapse_ws false l))) = true.
Proof.
  unfold strip_chars.
  set (a := lstrip_chars (Re.collapse_ws false l)).
  assert (Ha : single_spaced true a = true)
    by (eapply lstrip_single_spaced, collapse_single_spaced).
  assert (Hx : single_spaced true (lstrip_chars (rev a)) = true)
    by (eapply lstrip_single_spaced, rev_single_spaced, Ha).
  split.
  - apply single_spaced_strengthen.
    + eapply rev_single_spaced, Hx.
    + apply rev_lstrip_start. now apply single_spaced_start.
  - now rewrite rev_involutive.
Qed.

(** X1. The normalized text that [preprocess_text] returns, for any input,
    has white space only as single spaces between other characters: none at
    its start or end, no two in a row, and no tab or newline. *)
Theorem preprocess_text_tidy (text0 : string) :
  tidy (Classifier.preprocess_text text0) = true.
Proof.
  unfold tidy, Classifier.preprocess_text, text, chars.
  rewrite String.list_ascii_of_string_of_list_ascii.
  apply andb_true_iff. apply strip_collapse_tidy.
Qed.

End TextExtra.

(** ** More on the classifier *)

Module ClassifierExtra.
Import Classifier.

Section Scoring.
Variable similarity : list string -> string -> Q.
Variable captures : CommandCategory -> string -> gmap string pyval.
Variable normalized : string.
Variable use_context : bool.
Variable context : ConversationContext.

Local Abbreviation score :=
  (combined_confidence similarity normalized use_context context).
Local Abbreviation extract := (extract_parameters captures normalized).
Local Abbreviation try :=
  (try_category similarity captures normalized use_context context).

Lemma try_category_first_maximum (cs : list CommandCategory) (b : Best)
      (c : CommandCategory) :
  first_maximum score extract cs b ->
  first_maximum score extract (cs ++ [c]) (try b c).
Proof.
  intros Hinv. unfold try_category. case_bool_decide as Hc.
  - subst c. destruct Hinv as [(H1 & H2 & H3 & H4) | (l1 & l2 & H)].
    + left. repeat split; try assumption.
      apply Forall_app. split; [exact H4|]. repeat constructor. congruence.
    + right. destruct H as (E & H1 & H2 & H3 & H4 & H5 & H6).
      exists l1, (l2 ++ [UNKNOWN]). rewrite E at 1.
      rewrite <- app_assoc. repeat split; try assumption.
      apply Forall_app. split; [exact H6|]. repeat constructor. congruence.
  - destruct (Qlt_bool (best_confidence b) (score c)) eqn:E.
    + apply Qlt_bool_iff in E. right. exists cs, []. simpl.
      destruct Hinv as [(H1 & H2 & H3 & H4) | (l1 & l2 & H)].
      * rewrite H2 in E. repeat split; try assumption; [|constructor].
        eapply Forall_impl; [exact H4|]. intros a Ha Hne. simpl in Ha.
        specialize (Ha Hne). lra.
      * destruct H as (E0 & H1 & H2 & H3 & H4 & H5 & H6). rewrite H2 in E.
        repeat split; try assumption; [lra | | constructor].
        rewrite E0. apply Forall_app. split.
        -- eapply Forall_impl; [exact H5|]. intros a Ha Hne. simpl in Ha.
           specialize (Ha Hne). lra.
        -- constructor; [intros _; exact E|].
           eapply Forall_impl; [exact H6|]. intros a Ha Hne. simpl in Ha.
           specialize (Ha Hne). lra.
    + apply Qlt_bool_false_iff in E.
      destruct Hinv as [(H1 & H2 & H3 & H4) | (l1 & l2 & H)].
      * left. repeat split; try assumption.
        apply Forall_app. split; [exact H4|]. repeat constructor.
        intros _. rewrite H2 in E. exact E.
      * right. destruct H as (E0 & H1 & H2 & H3 & H4 & H5 & H6).
        exists l1, (l2 ++ [c]). rewrite E0 at 1. rewrite <- app_assoc.
        repeat split; try assumption.
        apply Forall_app. split; [exact H6|]. repeat constructor.
        intros _. rewrite H2 in E. exact E.
Qed.

Lemma fold_first_maximum (cs pre : list CommandCategory) (b : Best) :
  first_maximum score extract pre b ->
  first_maximum score extract (pre ++ cs) (fold_left try cs b).
Proof.
  revert pre b. induction cs as [|c cs IH]; intros pre b Hinv; simpl.
  - now rewrite app_nil_r.
  - replace (pre ++ c :: cs) with ((pre ++ [c]) ++ cs)
      by now rewrite <- app_assoc.
    apply IH. now apply try_category_first_maximum.
Qed.

Lemma best_match_selects :
  first_maximum score extract all_categories
                (best_match similarity captures normalized use_context context).
Proof.
  unfold best_match. apply (fold_first_maximum all_categories []).
  left. repeat split. constructor.
Qed.

(** X2. The loop of [classify_command] over the categories selects the
    first category, in declaration order, among those with the greatest
    combined score, provided that score is above 0; its confidence is that
    score and its parameters are the ones extracted for it. The result is
    unknown, with confidence 0 and no parameters, exactly when no category
    scores above 0; there is no other threshold. *)
Theorem best_match_first_maximum :
  first_maximum score extract all_categories
                (best_match similarity captures normalized use_context context)
  /\ (best_category
        (best_match similarity captures normalized use_context context)
      = UNKNOWN
      <-> forall c, c <> UNKNOWN -> (score c <= 0)%Q).
Proof.
  pose proof best_match_selects as H.
  split; [exact H|].
  destruct H as [(H1 & H2 & H3 & H4) | (l1 & l2 & E & H1 & H2 & H3 & H4 & H5)].
  - split; [|intros _; exact H1]. intros _ c Hc.
    rewrite Forall_forall in H4. apply H4; [|exact Hc].
    destruct c; unfold all_categories; set_solver.
  - split; [intros Hu; contradiction|].
    intros Hall. specialize (Hall _ H1). lra.
Qed.

Lemma pattern_confidence_values (c : CommandCategory) :
  calculate_pattern_confidence normalized c = 0%Q
  \/ calculate_pattern_confidence normalized c = (8 # 10)%Q.
Proof.
  unfold calculate_pattern_confidence.
  destruct (command_patterns c) as [groups|]; [|now left].
  enough (H : forall l acc,
             acc = 0%Q \/ acc = (8 # 10)%Q ->
             fold_left
               (fun max_confidence pattern =>
                  match Re.search true pattern normalized with
                  | Some true => pymax max_confidence (8 # 10)
                  | _ => max_confidence
                  end) l acc = 0%Q
             \/ fold_left
                  (fun max_confidence pattern =>
                     match Re.search true pattern normalized with
                     | Some true => pymax max_confidence (8 # 10)
                     | _ => max_confidence
                     end) l acc = (8 # 10)%Q)
    by (apply H; now left).
  intros l. induction l as [|p l IH]; intros acc Hacc; simpl; [exact Hacc|].
  apply IH. destruct (Re.search true p normalized) as [[|]|]; try exact Hacc.
  right. destruct Hacc as [-> | ->]; reflexivity.
Qed.

Hypothesis similarity_range :
  forall exs t, (0 <= similarity exs t)%Q /\ (similarity exs t <= 1)%Q.

Lemma score_range (c : CommandCategory) :
  (0 <= score c)%Q /\ (score c <= 98 # 100)%Q.
Proof.
  unfold combined_confidence.
  assert (Hs : (0 <= calculate_similarity_confidence similarity normalized c)%Q
               /\ (calculate_similarity_confidence similarity normalized c <= 1)%Q).
  { unfold calculate_similarity_confidence.
    destruct (command_patterns c) as [groups|]; [|split; lra].
    destruct (flat_map examples groups); [split; lra|].
    apply similarity_range. }
  destruct Hs as [Hs1 Hs2].
  destruct (pattern_confidence_values c) as [-> | ->];
    destruct (use_context && _); split; lra.
Qed.

Lemma best_match_range :
  (0 <= best_confidence
          (best_match similarity captures normalized use_context context))%Q
  /\ (best_confidence
        (best_match similarity captures normalized use_context context)
      <= 98 # 100)%Q.
Proof.
  destruct best_match_selects as [(H1 & H2 & H3 & H4) | H].
  - rewrite H2. split; lra.
  - destruct H as (l1 & l2 & E & H1 & H2 & H3 & H4 & H5). rewrite H2.
    apply score_range.
Qed.

End Scoring.

Section Served.
Variable similarity : list string -> string -> Q.
Variable captures : CommandCategory -> string -> gmap string pyval.
Variable clock : nat -> Q.

Local Abbreviation classify := (classify_command similarity captures clock).
Local Abbreviation classify_all' := (classify_all similarity captures clock).

Hypothesis similarity_range :
  forall exs t, (0 <= similarity exs t)%Q /\ (similarity exs t <= 1)%Q.

Lemma best_match_well_formed (text0 : string) (use_context : bool)
      (context : ConversationContext) (pt ct : Q) :
  let best :=
    best_match similarity captures (preprocess_text text0) use_context context in
  well_formed
    {| category := best_category best;
       intent := value (best_category best) ++ "_intent";
       confidence := best_confidence best;
       parameters := best_parameters best;
       context_used := use_context;
       preprocessing_time := pt;
       classification_time := ct;
       suggestions :=
         if Qlt_bool (best_confidence best) (5 # 10)
         then _generate_suggestions (preprocess_text text0) else [];
       raw_text := text0;
       normalized_text := preprocess_text text0 |}.
Proof.
  intros best. unfold well_formed. cbn [category intent confidence parameters
    suggestions raw_text normalized_text].
  destruct (best_match_range similarity captures (preprocess_text text0)
              use_context context similarity_range) as [H0 H1].
  fold best in H0, H1.
  split; [exact H0|]. split; [exact H1|].
  destruct (ClassifierFacts.suggestions_not_empty (preprocess_text text0))
    as [Hne Hlen].
  split; [|split; [|split; [reflexivity|split; [reflexivity|]]]].
  - destruct (Qlt_bool (best_confidence best) (5 # 10)) eqn:E.
    + apply Qlt_bool_iff in E. tauto.
    + apply Qlt_bool_false_iff in E. split; [congruence | intros; lra].
  - destruct (Qlt_bool _ _); [exact Hlen | simpl; lia].
  - intros Hu.
    destruct (best_match_selects similarity captures
                (preprocess_text text0) use_context context)
      as [(H2 & H3 & H4 & _) | (l1 & l2 & _ & Hne' & _)].
    + fold best in H3, H4. now split.
    + fold best in Hne'. contradiction.
Qed.

Lemma classify_well_formed (self : VoiceClassifier) (k : nat)
      (text0 user session : string) (use_context : bool) :
  cached_all well_formed self ->
  well_formed (classify self k text0 user session use_context).1.1
  /\ cached_all well_formed
       (classify self k text0 user session use_context).1.2.
Proof.
  intros Hinv. unfold classify_command.
  destruct (cache_lookup self _ _) as [cached|] eqn:E.
  - apply ClassifierFacts.cache_lookup_Some in E.
    cbn [fst snd]. split; [exact (Hinv _ _ E) | exact Hinv].
  - destruct (context_cache self !! context_key user session) as [context|];
      cbv beta iota zeta delta [fst snd];
      (split; [apply best_match_well_formed|]);
      intros key r Hr; cbn [classification_cache] in Hr;
      (destruct (decide (cache_key text0 user session = key)) as [<-|Hne];
       [ rewrite lookup_insert_eq in Hr; injection Hr as <-;
         apply best_match_well_formed
       | rewrite lookup_insert_ne in Hr by exact Hne; exact (Hinv _ _ Hr) ]).
Qed.

Lemma classify_all_well_formed (requests : list Request) :
  forall (k : nat) (self : VoiceClassifier),
    cached_all well_formed self ->
    cached_all well_formed (classify_all' self k requests).1.
Proof.
  induction requests as [|[[[t u] s0] uc] requests IH]; intros k self Hinv.
  - exact Hinv.
  - simpl. destruct (classify_well_formed self k t u s0 uc Hinv) as [_ Hinv'].
    destruct (classify self k t u s0 uc) as [[r self'] k'].
    simpl in Hinv'. now apply IH.
Qed.

Lemma init_well_formed : cached_all well_formed init.
Proof. intros key r H. simpl in H. now rewrite lookup_empty in H. Qed.

(** X3. Every result that [classify_command] returns, after any sequence
    of earlier requests to a new classifier and whether it is computed or
    served from the cache, is well formed: its confidence lies between 0 and
    0.98, it has suggestions (at most three) exactly when the confidence is
    below 0.5, its normalized text is its raw text normalized, its intent is
    named after its category, and the unknown category comes with confidence
    0 and no parameters. The similarity backend is taken to answer within
    0 and 1. *)
Theorem classify_returns_well_formed (requests : list Request)
        (text0 user session : string) (use_context : bool) :
  well_formed
    (classify (classify_all' init 0 requests).1 (classify_all' init 0 requests).2
              text0 user session use_context).1.1.
Proof.
  apply classify_well_formed, classify_all_well_formed, init_well_formed.
Qed.

(** X4. For the results that [classify_command] returns, confirmation is
    required exactly when the confidence is below 0.7: the unknown category
    adds nothing, since it comes with confidence 0. So a result of high
    confidence never requires confirmation, a result of low or very low
    confidence always does, and so does every result that carries
    suggestions. *)
Theorem confirmation_follows_confidence (requests : list Request)
        (text0 user session : string) (use_context : bool) :
  let r :=
    (classify (classify_all' init 0 requests).1 (classify_all' init 0 requests).2
              text0 user session use_context).1.1 in
  requires_confirmation r = Qlt_bool (confidence r) (7 # 10)
  /\ (confidence_level r = HIGH -> requires_confirmation r = false)
  /\ (confidence_level r = LOW \/ confidence_level r = VERY_LOW ->
      requires_confirmation r = true)
  /\ (suggestions r <> [] -> requires_confirmation r = true).
Proof.
  intros r.
  assert (Hwf : well_formed r)
    by apply classify_well_formed, classify_all_well_formed, init_well_formed.
  clearbody r.
  destruct Hwf as (H0 & H1 & Hsug & _ & _ & _ & Hunknown).
  assert (Hreq : requires_confirmation r = Qlt_bool (confidence r) (7 # 10)).
  { unfold requires_confirmation.
    destruct (Qlt_bool (confidence r) (7 # 10)) eqn:E; [reflexivity|].
    apply Qlt_bool_false_iff in E. simpl.
    apply bool_decide_eq_false_2. intros Hu.
    destruct (Hunknown Hu) as [Hc _]. rewrite Hc in E. lra. }
  split; [exact Hreq|]. rewrite Hreq. unfold confidence_level.
  destruct (Qlt_bool (8 # 10) (confidence r)) eqn:E8;
    [apply Qlt_bool_iff in E8 | apply Qlt_bool_false_iff in E8];
    (destruct (Qlt_bool (5 # 10) (confidence r)) eqn:E5;
     [apply Qlt_bool_iff in E5 | apply Qlt_bool_false_iff in E5]);
    (destruct (Qlt_bool (3 # 10) (confidence r)) eqn:E3;
     [apply Qlt_bool_iff in E3 | apply Qlt_bool_false_iff in E3]);
    (split; [intros H; try discriminate H;
             apply not_true_iff_false; rewrite Qlt_bool_iff; lra|]);
    (split; [intros [H|H]; try discriminate H; apply Qlt_bool_iff; lra|]);
    intros H; apply Hsug in H; apply Qlt_bool_iff; lra.
Qed.

End Served.

(** The greeting, asked of a new classifier whose similarity backend answers
    0: the result is well formed. *)
Lemma classify_returns_well_formed_witness :
  (forall exs t, (0 <= unfitted exs t)%Q /\ (unfitted exs t <= 1)%Q)
  /\ well_formed
       (classify_command unfitted no_captures wall_clock init 0
                         "hello" "u1" "s1" true).1.1.
Proof.
  assert (H : forall exs t, (0 <= unfitted exs t)%Q /\ (unfitted exs t <= 1)%Q).
  { intros exs t. unfold unfitted. split; [apply Qle_refl | discriminate]. }
  split; [exact H|].
  exact (classify_returns_well_formed unfitted no_captures wall_clock H []
           "hello" "u1" "s1" true).
Defined.

Lemma confirmation_follows_confidence_witness :
  (forall exs t, (0 <= unfitted exs t)%Q /\ (unfitted exs t <= 1)%Q)
  /\ requires_confirmation
       (classify_command unfitted no_captures wall_clock init 0
                         "hello" "u1" "s1" true).1.1
     = Qlt_bool (confidence
                   (classify_command unfitted no_captures wall_clock init 0
                                     "hello" "u1" "s1" true).1.1) (7 # 10).
Proof.
  assert (H : forall exs t, (0 <= unfitted exs t)%Q /\ (unfitted exs t <= 1)%Q).
  { intros exs t. unfold unfitted. split; [apply Qle_refl | discriminate]. }
  split; [exact H|].
  exact (proj1 (confirmation_follows_confidence unfitted no_captures wall_clock
                  H [] "hello" "u1" "s1" true)).
Defined.

Section Counting.
Variable similarity : list string -> string -> Q.
Variable captures : CommandCategory -> string -> gmap string pyval.
Variable clock : nat -> Q.

Local Abbreviation classify := (classify_command similarity captures clock).

Lemma classify_counts (self : VoiceClassifier) (k : nat)
      (text0 user session : string) (use_context : bool) :
  let self' := (classify self k text0 user session use_context).1.2 in
  (cache_hits self' + total_classifications self'
   = S (cache_hits self + total_classifications self))%nat
  /\ (Z.of_nat (List.length (classification_times self'))
      - Z.of_nat (total_classifications self')
      = Z.of_nat (List.length (classification_times self))
        - Z.of_nat (total_classifications self))%Z
  /\ ((total_classifications self = 0%nat ->
       classification_cache self = ∅ /\ cache_hits self = 0%nat) ->
      total_classifications self' = 0%nat ->
      classification_cache self' = ∅ /\ cache_hits self' = 0%nat).
Proof.
  unfold classify_command, cache_lookup.
  destruct (classification_cache self !! cache_key text0 user session)
    as [cached|] eqn:E.
  - destruct (Qlt_bool _ _).
    + cbn [fst snd cache_hits total_classifications classification_times].
      split; [lia|]. split; [lia|]. intros Hinv H0. exfalso.
      destruct (Hinv H0) as [Hempty _].
      rewrite Hempty, lookup_empty in E. discriminate.
    + destruct (context_cache self !! context_key user session) as [context|];
        cbv beta iota zeta delta [fst snd];
        cbn [cache_hits total_classifications classification_times];
        rewrite length_app; simpl; (split; [lia|]); (split; [lia|]);
        intros _ H0; discriminate.
  - destruct (context_cache self !! context_key user session) as [context|];
      cbv beta iota zeta delta [fst snd];
      cbn [cache_hits total_classifications classification_times];
      rewrite length_app; simpl; (split; [lia|]); (split; [lia|]);
      intros _ H0; discriminate.
Qed.

Lemma classify_all_counts (requests : list Request) :
  forall (self : VoiceClassifier) (k : nat),
    (total_classifications self = 0%nat ->
     classification_cache self = ∅ /\ cache_hits self = 0%nat) ->
    let self' := (classify_all similarity captures clock self k requests).1 in
    (cache_hits self' + total_classifications self'
     = cache_hits self + total_classifications self
       + List.length requests)%nat
    /\ (Z.of_nat (List.length (classification_times self'))
        - Z.of_nat (total_classifications self')
        = Z.of_nat (List.length (classification_times self))
          - Z.of_nat (total_classifications self))%Z
    /\ (total_classifications self' = 0%nat -> cache_hits self' = 0%nat).
Proof.
  induction requests as [|[[[t u] s0] uc] requests IH]; intros self k Hinv.
  - simpl. split; [lia|]. split; [lia|]. intros H0. now apply Hinv.
  - simpl. destruct (classify_counts self k t u s0 uc) as (H1 & H2 & H3).
    destruct (classify self k t u s0 uc) as [[r self1] k1].
    simpl in H1, H2, H3.
    destruct (IH self1 k1 (H3 Hinv)) as (H4 & H5 & H6).
    split; [simpl in *; lia|]. split; [simpl in *; lia|]. exact H6.
Qed.

(** X5. After any sequence of requests to a new classifier, the cache hits
    and the classifications counted add up to the number of requests, and
    one time is recorded for each classification counted: a request served
    from the cache is not counted as a classification. So the hit rate that
    the performance metrics report is the number of hits divided by the
    number of the requests that were not hits, not by the number of
    requests. *)
Theorem requests_counted (requests : list Request) :
  let self := (classify_all similarity captures clock init 0 requests).1 in
  (cache_hits self + total_classifications self = List.length requests)%nat
  /\ List.length (classification_times self) = total_classifications self
  /\ (cache_hit_rate self
      * inject_Z (Z.of_nat (List.length requests - cache_hits self))
      == inject_Z (Z.of_nat (cache_hits self)))%Q.
Proof.
  intros self.
  destruct (classify_all_counts requests init 0%nat) as (H1 & H2 & H3);
    [intros _; split; reflexivity|].
  fold self in H1, H2, H3. simpl in H1, H2.
  split; [lia|]. split; [lia|].
  unfold cache_hit_rate.
  replace (List.length requests - cache_hits self)%nat
    with (total_classifications self) by lia.
  destruct (total_classifications self) as [|n] eqn:En.
  - rewrite H3 by reflexivity. reflexivity.
  - change (0 <? S n)%nat with true. cbv iota.
    field. intros H0. discriminate H0.
Qed.

Lemma append_assoc (a b c : string) :
  ((a ++ b) ++ c = a ++ (b ++ c))%string.
Proof.
  induction a as [|x a IH]; [reflexivity|].
  change (String x ((a ++ b) ++ c) = String x (a ++ (b ++ c)))%string.
  now f_equal.
Qed.

(** X6. The keys of the classification cache and of the context cache join
    user and session with an underscore and so do not tell apart the pairs
    (u_v, s) and (u, v_s): the two pairs have the same keys, the result
    returned for one pair is the cache entry of the other for the same text,
    and clearing the context of one pair clears that of the other. *)
Theorem user_session_keys_ambiguous (self : VoiceClassifier) (k : nat)
        (text0 u v s0 : string) (use_context : bool) :
  cache_key text0 (u ++ "_" ++ v) s0 = cache_key text0 u (v ++ "_" ++ s0)
  /\ context_key (u ++ "_" ++ v) s0 = context_key u (v ++ "_" ++ s0)
  /\ classification_cache
       (classify self k text0 (u ++ "_" ++ v) s0 use_context).1.2
       !! cache_key text0 u (v ++ "_" ++ s0)
     = Some (classify self k text0 (u ++ "_" ++ v) s0 use_context).1.1
  /\ get_context (clear_context self (u ++ "_" ++ v) s0) u (v ++ "_" ++ s0)
     = None.
Proof.
  assert (Hc : context_key (u ++ "_" ++ v) s0 = context_key u (v ++ "_" ++ s0)).
  { unfold context_key. now rewrite !append_assoc. }
  assert (Hk : cache_key text0 (u ++ "_" ++ v) s0
               = cache_key text0 u (v ++ "_" ++ s0)).
  { unfold cache_key. now rewrite !append_assoc. }
  repeat split; try assumption.
  - rewrite <- Hk. apply ClassifierFacts.classify_stores.
  - unfold get_context, clear_context. cbn [context_cache set_contexts].
    rewrite <- Hc. apply lookup_delete_eq.
Qed.

End Counting.

(** X7. After [add_interaction] the history has at most 20 entries,
    whatever it had before: it is the old history with the new interaction
    appended, less the oldest entries beyond 20, so the new interaction is
    its last entry and a history of 20 loses its oldest entry. *)
Theorem add_interaction_bounded (self : ConversationContext) (now : Q)
        (user_input bot_response : string) (c : CommandCategory) :
  let interaction :=
    {| i_timestamp := now; i_user_input := user_input;
       i_bot_response := bot_response; i_category := value c;
       i_parameters := active_parameters self |} in
  let history' :=
    conversation_history
      (add_interaction self now user_input bot_response c) in
  (List.length history' <= 20)%nat
  /\ List.length history'
     = Nat.min 20 (S (List.length (conversation_history self)))
  /\ history'
     = skipn (S (List.length (conversation_history self)) - 20)
             (conversation_history self ++ [interaction])
  /\ List.last history' interaction = interaction.
Proof.
  intros interaction history'. subst history'. unfold add_interaction.
  cbn [conversation_history]. fold interaction.
  set (h := conversation_history self ++ [interaction]).
  assert (Hlen : List.length h = S (List.length (conversation_history self)))
    by (unfold h; rewrite length_app; simpl; lia).
  assert (E : (if (20 <? List.length h)%nat then slice_last h 20 else h)
              = skipn (List.length h - 20) h).
  { destruct (20 <? List.length h)%nat eqn:E20.
    - reflexivity.
    - apply Nat.ltb_ge in E20.
      replace (List.length h - 20)%nat with 0%nat by lia. reflexivity. }
  rewrite E, <- Hlen.
  assert (Hlast : List.last (skipn (List.length h - 20) h) interaction
                  = interaction).
  { unfold h. rewrite skipn_app.
    replace (List.length (conversation_history self ++ [interaction]) - 20
             - List.length (conversation_history self))%nat with 0%nat
      by (rewrite length_app; simpl; lia).
    simpl. apply List.last_last. }
  repeat split; try exact Hlast; rewrite ?length_skipn; lia.
Qed.

(** X8. [get_recent_context] with a positive [max_items] returns the last
    [max_items] interactions of the history, or all of them when there are
    fewer; with [max_items] 0 it returns the whole history, not an empty
    list. *)
Theorem get_recent_context_slice (self : ConversationContext) (max_items : Z) :
  ((0 < max_items)%Z ->
   List.length (get_recent_context self max_items)
   = Nat.min (Z.to_nat max_items) (List.length (conversation_history self))
   /\ exists older,
       conversation_history self = older ++ get_recent_context self max_items)
  /\ get_recent_context self 0 = conversation_history self.
Proof.
  unfold get_recent_context.
  destruct (conversation_history self) as [|i0 h] eqn:E.
  - split; [|reflexivity]. intros _. simpl. split; [lia | now exists []].
  - rewrite <- E. split; [|reflexivity]. intros Hpos. unfold slice_last.
    rewrite (proj2 (Z.ltb_lt 0 max_items) Hpos).
    split; [rewrite length_skipn; lia|].
    exists (firstn (List.length (conversation_history self)
                    - Z.to_nat max_items) (conversation_history self)).
    symmetry. apply firstn_skipn.
Qed.

Lemma get_recent_context_slice_witness :
  (0 < 1)%Z
  /\ List.length
       (get_recent_context
          (add_interaction
             (add_interaction (new_context "u1" "s1" 0) 1 "hi" "hello"
                              GENERAL_CONVERSATION)
             2 "what is the weather" "sunny" WEATHER_INFO) 1)
     = 1%nat.
Proof.
  split; [lia|].
  apply (proj1 (get_recent_context_slice
                  (add_interaction
                     (add_interaction (new_context "u1" "s1" 0) 1 "hi" "hello"
                                      GENERAL_CONVERSATION)
                     2 "what is the weather" "sunny" WEATHER_INFO) 1)).
  lia.
Defined.

Lemma fold_delete_lookup {V : Type} (keys : list string) (m : gmap string V)
      (k : string) :
  fold_left (fun contexts key => delete key contexts) keys m !! k
  = if decide (k ∈ keys) then None else m !! k.
Proof.
  revert m. induction keys as [|key keys IH]; intros m.
  - simpl. destruct (decide (k ∈ [])) as [H|_]; [|reflexivity].
    now apply elem_of_nil in H.
  - cbn [fold_left]. rewrite IH.
    destruct (decide (k ∈ keys)) as [Hl|Hl].
    + rewrite decide_True; [reflexivity|]. now apply elem_of_cons; right.
    + destruct (decide (k = key)) as [->|Hne].
      * rewrite decide_True by (apply elem_of_cons; now left).
        apply lookup_delete_eq.
      * rewrite decide_False by (intros [H|H]%elem_of_cons; contradiction).
        now apply lookup_delete_ne.
Qed.

Lemma cleanup_lookup (self : VoiceClassifier) (now : Q) (timeout_minutes : Z)
      (key : string) :
  context_cache (cleanup_expired_contexts self now timeout_minutes) !! key
  = match context_cache self !! key with
    | Some context =>
        if is_context_expired context now timeout_minutes then None
        else Some context
    | None => None
    end.
Proof.
  unfold cleanup_expired_contexts. cbn [context_cache set_contexts].
  rewrite fold_delete_lookup.
  set (expired := fun entry : string * ConversationContext =>
                    is_context_expired entry.2 now timeout_minutes).
  destruct (decide (key ∈ (List.filter expired
                             (map_to_list (context_cache self))).*1)) as [H|H].
  - apply list_elem_of_fmap in H as ([k c] & -> & H).
    apply list_elem_of_In, filter_In in H as [H Hexpired].
    apply list_elem_of_In, elem_of_map_to_list in H. simpl.
    rewrite H. unfold expired in Hexpired. simpl in Hexpired.
    now rewrite Hexpired.
  - destruct (context_cache self !! key) as [c|] eqn:E; [|reflexivity].
    destruct (is_context_expired c now timeout_minutes) eqn:Hexpired;
      [|reflexivity].
    exfalso. apply H. apply list_elem_of_fmap. exists (key, c).
    split; [reflexivity|]. apply list_elem_of_In, filter_In.
    split; [|exact Hexpired]. now apply list_elem_of_In, elem_of_map_to_list.
Qed.

(** X9. The clean-up removes exactly the contexts that are older than the
    timeout and leaves the others as they are. The age counts from the
    time stamp of the context, which [update_context] does not renew: a
    context that has just been updated is removed like one that has not,
    and one that is kept is kept with the update. *)
Theorem expired_contexts_removed (self : VoiceClassifier) (now : Q)
        (timeout_minutes : Z) (user session : string) :
  get_context (cleanup_expired_contexts self now timeout_minutes) user session
  = match get_context self user session with
    | Some context =>
        if Qlt_bool (inject_Z timeout_minutes * 60)
                    (now - context_timestamp context)
        then None else Some context
    | None => None
    end
  /\ forall now' user_input bot_response c,
      get_context
        (cleanup_expired_contexts
           (update_context self now' user session user_input bot_response c)
           now timeout_minutes) user session
      = (fun context =>
           add_interaction context now' user_input bot_response c)
          <$> get_context (cleanup_expired_contexts self now timeout_minutes)
                          user session.
Proof.
  unfold get_context. split; [apply cleanup_lookup|].
  intros now' user_input bot_response c. rewrite !cleanup_lookup.
  unfold update_context.
  destruct (context_cache self !! context_key user session) as [context|] eqn:E.
  - cbn [context_cache set_contexts]. rewrite lookup_insert_eq.
    unfold is_context_expired, add_interaction. cbn [context_timestamp].
    now destruct (Qlt_bool _ _).
  - now rewrite E.
Qed.

Section Remembered.
Variable similarity : list string -> string -> Q.
Variable captures : CommandCategory -> string -> gmap string pyval.
Variable clock : nat -> Q.

(** X10. A classification that is computed is remembered in the context of
    the user and session, whether or not the request uses the context: the
    context exists afterwards, names the category of the result as the last
    one, holds the parameters of the result among its active parameters, and
    has a time stamp read during the call; the history of interactions is
    as before (empty for a new context). A result served from the cache
    leaves the contexts untouched. *)
Theorem classification_remembered (self : VoiceClassifier) (k : nat)
        (text0 user session : string) (use_context : bool) :
  let out := classify_command similarity captures clock self k
                              text0 user session use_context in
  (cache_lookup self (cache_key text0 user session) (clock (k + 1)%nat) = None ->
   exists context,
     get_context out.1.2 user session = Some context
     /\ last_command_category context = Some (category out.1.1)
     /\ (forall key v, parameters out.1.1 !! key = Some v ->
                       active_parameters context !! key = Some v)
     /\ conversation_history context
        = match get_context self user session with
          | Some old => conversation_history old
          | None => []
          end
     /\ (exists i, (k < i < out.2)%nat /\ context_timestamp context = clock i)
     /\ forall user' session',
         context_key user' session' <> context_key user session ->
         get_context out.1.2 user' session' = get_context self user' session')
  /\ (is_Some (cache_lookup self (cache_key text0 user session)
                            (clock (k + 1)%nat)) ->
      context_cache out.1.2 = context_cache self).
Proof.
  intros out. subst out. unfold classify_command, get_context. split.
  - intros ->.
    destruct (context_cache self !! context_key user session) as [old|] eqn:E;
      cbv beta iota zeta delta [fst snd];
      cbn [context_cache]; rewrite lookup_insert_eq;
      (eexists; split; [reflexivity|]);
      cbn [last_command_category category active_parameters parameters
           conversation_history context_timestamp new_context];
      (split; [reflexivity|]);
      (split; [intros key v Hv; apply lookup_union_Some_raw; now left|]);
      (split; [reflexivity|]);
      (split; [|intros user' session' Hne; now apply lookup_insert_ne]).
    + destruct (classification_cache self !! cache_key text0 user session);
        eexists; (split; [|reflexivity]); lia.
    + destruct (classification_cache self !! cache_key text0 user session);
        eexists; (split; [|reflexivity]); lia.
  - intros [cached ->]. reflexivity.
Qed.

End Remembered.

Lemma classification_remembered_witness :
  cache_lookup init (cache_key "hello" "u1" "s1") (wall_clock 1) = None
  /\ exists context,
      get_context
        (classify_command unfitted no_captures wall_clock init 0
                          "hello" "u1" "s1" false).1.2 "u1" "s1" = Some context
      /\ conversation_history context = [].
Proof.
  assert (H : cache_lookup init (cache_key "hello" "u1" "s1") (wall_clock 1)
              = None) by reflexivity.
  split; [exact H|].
  destruct (proj1 (classification_remembered unfitted no_captures wall_clock
                     init 0 "hello" "u1" "s1" false) H)
    as (context & Hc & _ & _ & Hh & _).
  exists context. split; [exact Hc | exact Hh].
Defined.

End ClassifierExtra.

(** ** More on the workflow engine *)

Module WorkflowExtra.
Import Workflow.

(** X11. [process_advanced_command] plans no workflow, whatever the
    command: the intent resolution always answers with its fallback, so the
    stored workflows and the count of multi-step commands are as before.
    When the context manager knows no context for the user and session, the
    command is reported as simple, with one step and the status completed,
    and counted; when it knows one, the parameter resolution raises
    [AttributeError], and the fallback dictionary is returned and the command
    is not counted. *)
Theorem process_plans_nothing
        (similarity : list string -> string -> Q)
        (captures : Classifier.CommandCategory -> string
                    -> gmap string Classifier.pyval)
        (clock : nat -> Q)
        (intent_classifier : option (string -> exn + list (string * Q)))
        (get_context : string -> string -> option Classifier.ConversationContext)
        (self : AdvancedVoiceProcessor) (k : nat)
        (fresh_id text0 user session : string) (use_context : bool) :
  let out :=
    process_advanced_command similarity captures clock intent_classifier
                             get_context self k fresh_id
                             text0 user session use_context in
  active_workflows out.1.2 = active_workflows self
  /\ multi_step_commands out.1.2 = multi_step_commands self
  /\ match out.1.1 with
     | Processed r =>
         get_context user session = None
         /\ r_complexity r = "simple"
         /\ r_estimated_steps r = 1%nat
         /\ r_workflow_id r = None
         /\ r_total_steps r = 1%nat
         /\ r_workflow_status r = "completed"
         /\ r_execution_status r = "completed"
         /\ r_multi_step r = false
         /\ total_commands out.1.2 = S (total_commands self)
     | Fallback e _ =>
         is_Some (get_context user session)
         /\ e = AttributeError
                  "'ConversationContext' object has no attribute 'get'"
         /\ total_commands out.1.2 = total_commands self
     end.
Proof.
  intros out. subst out. unfold process_advanced_command.
  destruct (Classifier.classify_command _ _ _ _ _ _ _ _ _)
    as [[basic clf] k1].
  rewrite WorkflowFacts.resolve_intent_falls_back.
  unfold _resolve_intelligent_parameters.
  destruct (get_context user session) as [context|].
  - cbn. repeat split; eauto.
  - unfold _get_required_parameters, call_identify_required_parameters.
    cbv beta iota zeta delta [mbind exn_bind _detect_multi_step_workflow
                              estimated_steps workflow_template is_set
                              Nat.leb negb andb _execute_workflow fst snd
                              active_workflows r_complexity r_estimated_steps
                              r_workflow_id r_workflow_status r_multi_step
                              r_total_steps r_execution_status
                              total_commands multi_step_commands
                              intent_complexity complexity_value option_map].
    repeat split; reflexivity.
Qed.

Lemma advance_current_step (w : MultiStepWorkflow) (step : CommandStep)
      (started completed now : Q) :
  current_step (advance w step started completed now) = S (current_step w)
  /\ (status (advance w step started completed now) = status w
      \/ status (advance w step started completed now) = COMPLETED).
Proof.
  unfold advance.
  destruct (_ <=? _)%nat; cbn [current_step status update_progress set_status];
    split; auto; lia.
Qed.

Lemma under_way_bounds (w : MultiStepWorkflow) :
  under_way w ->
  (current_step w <= List.length (steps w))%nat
  /\ (status w = COMPLETED <-> List.length (steps w) <= current_step w)%nat
  /\ (completion_percentage w
      == Qnat (current_step w) / Qnat (List.length (steps w)) * 100)%Q.
Proof.
  intros (done & todo & Hsteps & _ & _ & Hcur & Hstatus & Hpct).
  rewrite Hcur. rewrite Hsteps at 1 2. rewrite length_app.
  split; [lia|]. split; [|exact Hpct].
  rewrite <- Hstatus. split.
  - intros ->. simpl. lia.
  - intros H. destruct todo; [reflexivity | simpl in H; lia].
Qed.

(** Where a workflow stands after [m] advancements *)
Lemma continue_step (clock : nat -> Q) (self : AdvancedVoiceProcessor)
      (k : nat) (wid : string) (w : MultiStepWorkflow) :
  active_workflows self !! wid = Some w ->
  under_way w ->
  (status w = PENDING \/ status w = COMPLETED) ->
  ((current_step w < List.length (steps w))%nat ->
   exists w',
     active_workflows (continue_workflow clock self k wid None).1.2 !! wid
     = Some w'
     /\ under_way w'
     /\ (status w' = PENDING \/ status w' = COMPLETED)
     /\ List.length (steps w') = List.length (steps w)
     /\ current_step w' = S (current_step w)
     /\ successful_workflows (continue_workflow clock self k wid None).1.2
        = (successful_workflows self
           + if (List.length (steps w) <=? S (current_step w))%nat
             then 1 else 0)%nat
     /\ (continue_workflow clock self k wid None).2 = (k + 3)%nat)
  /\ ((List.length (steps w) <= current_step w)%nat ->
      continue_workflow clock self k wid None
      = (inl "No current step found", self, k)).
Proof.
  intros Hw Hinv Hstatus. split.
  - intros Hlt. unfold continue_workflow. rewrite Hw.
    destruct (get_current_step w) as [step|] eqn:Es.
    + destruct (WorkflowFacts.advance_under_way w step (clock k)
                  (clock (k + 1)%nat) (clock (k + 2)%nat) Hinv Es)
        as [Hinv' Hlen].
      destruct (advance_current_step w step (clock k) (clock (k + 1)%nat)
                  (clock (k + 2)%nat)) as [Hcur Hst].
      eexists. cbn [fst snd active_workflows successful_workflows].
      rewrite lookup_insert_eq. split; [reflexivity|].
      split; [exact Hinv'|]. split.
      { destruct Hst as [-> | ->]; auto. }
      split; [exact Hlen|]. split; [exact Hcur|]. split; [|reflexivity].
      rewrite Hlen, Hcur. destruct (_ <=? _)%nat; lia.
    + unfold get_current_step in Es. apply lookup_ge_None in Es. lia.
  - intros Hge. unfold continue_workflow. rewrite Hw.
    unfold get_current_step. now rewrite (proj2 (lookup_ge_None _ _) Hge).
Qed.

Lemma continue_repeat (clock : nat -> Q) (wid : string) (n : nat) :
  forall (j : nat) (self : AdvancedVoiceProcessor) (k : nat)
         (w : MultiStepWorkflow),
    active_workflows self !! wid = Some w ->
    under_way w ->
    (status w = PENDING \/ status w = COMPLETED) ->
    List.length (steps w) = n ->
    (current_step w < n)%nat ->
    exists w',
      active_workflows (continue_all clock self k (repeat wid j)).1 !! wid
      = Some w'
      /\ under_way w'
      /\ (status w' = PENDING \/ status w' = COMPLETED)
      /\ List.length (steps w') = n
      /\ current_step w' = Nat.min (current_step w + j) n
      /\ successful_workflows (continue_all clock self k (repeat wid j)).1
         = (successful_workflows self
            + if (n <=? current_step w + j)%nat then 1 else 0)%nat
      /\ (continue_all clock self k (repeat wid j)).2
         = (k + 3 * (Nat.min (current_step w + j) n - current_step w))%nat.
Proof.
  induction j as [|j IH]; intros self k w Hw Hinv Hstatus Hlen Hlt.
  - exists w. cbn [repeat continue_all fst snd].
    rewrite Nat.add_0_r. rewrite Nat.min_l by lia.
    replace (n <=? current_step w)%nat with false
      by (symmetry; apply Nat.leb_gt; lia).
    repeat split; auto; lia.
  - cbn [repeat continue_all].
    destruct (continue_step clock self k wid w Hw Hinv Hstatus) as [Hstep _].
    rewrite Hlen in Hstep.
    destruct (Hstep Hlt) as (w1 & Hw1 & Hinv1 & Hst1 & Hlen1 & Hcur1 & Hs1 & Hk1).
    destruct (continue_workflow clock self k wid None) as [[r self1] k1].
    cbn [fst snd] in Hw1, Hs1, Hk1. subst k1.
    destruct (decide (S (current_step w) < n)%nat) as [Hlt1|Hge1].
    + destruct (IH self1 (k + 3)%nat w1 Hw1 Hinv1 Hst1 Hlen1)
        as (w' & Hw' & Hinv' & Hst' & Hlen' & Hcur' & Hs' & Hk');
        [lia|].
      exists w'. rewrite Hcur1 in Hcur', Hs', Hk'.
      replace (current_step w + S j)%nat with (S (current_step w) + j)%nat
        by lia.
      repeat split; auto.
      * rewrite Hs', Hs1.
        replace (n <=? S (current_step w))%nat with false
          by (symmetry; apply Nat.leb_gt; lia).
        lia.
      * rewrite Hk'. lia.
    + assert (Hdone : (n <= current_step w1)%nat) by lia.
      assert (Hstay : forall j' self' k',
                 active_workflows self' !! wid = Some w1 ->
                 continue_all clock self' k' (repeat wid j') = (self', k')).
      { induction j' as [|j' IHj]; intros self' k' Hw'; [reflexivity|].
        cbn [repeat continue_all].
        destruct (continue_step clock self' k' wid w1 Hw' Hinv1 Hst1)
          as [_ Hnone].
        rewrite Hnone by lia. now apply IHj. }
      rewrite (Hstay j self1 (k + 3)%nat Hw1). cbn [fst snd].
      exists w1. rewrite Nat.min_r by lia.
      replace (n <=? current_step w + S j)%nat with true
        by (symmetry; apply Nat.leb_le; lia).
      repeat split; auto.
      * lia.
      * rewrite Hs1.
        replace (n <=? S (current_step w))%nat with true
          by (symmetry; apply Nat.leb_le; lia).
        reflexivity.
      * lia.
Qed.

(** X12. A workflow of [n] steps, held by the processor and not yet
    advanced, is completed by exactly [n] calls of [continue_workflow]:
    after [j] calls its step index is the smaller of [j] and [n], it is
    completed when [j] is at least [n] and still pending before, its
    completion is that share of [n] times 100, and the count of successful
    workflows has gone up by one exactly when it is completed. Each call
    that advances takes three clock readings, and a call after the last
    step answers "No current step found" and changes nothing. *)
Theorem workflow_completes_in_n_calls (clock : nat -> Q)
        (self : AdvancedVoiceProcessor) (k : nat) (wid : string)
        (w : MultiStepWorkflow) (j : nat) :
  active_workflows self !! wid = Some w ->
  fresh w ->
  steps w <> [] ->
  let n := List.length (steps w) in
  let out := continue_all clock self k (repeat wid j) in
  exists w',
    active_workflows out.1 !! wid = Some w'
    /\ List.length (steps w') = n
    /\ current_step w' = Nat.min j n
    /\ status w' = (if (n <=? j)%nat then COMPLETED else PENDING)
    /\ (completion_percentage w' == Qnat (Nat.min j n) / Qnat n * 100)%Q
    /\ successful_workflows out.1
       = (successful_workflows self + if (n <=? j)%nat then 1 else 0)%nat
    /\ out.2 = (k + 3 * Nat.min j n)%nat
    /\ ((n <= j)%nat ->
        continue_workflow clock out.1 out.2 wid None
        = (inl "No current step found", out.1, out.2)).
Proof.
  intros Hw Hfresh Hsteps n out. subst out.
  assert (Hinv : under_way w) by now apply WorkflowFacts.fresh_under_way.
  destruct Hfresh as (_ & Hcur & Hstatus & _).
  assert (Hn : (0 < n)%nat).
  { unfold n. destruct (steps w); [contradiction | simpl; lia]. }
  destruct (continue_repeat clock wid n j self k w Hw Hinv
              (or_introl Hstatus) eq_refl)
    as (w' & Hw' & Hinv' & Hst' & Hlen' & Hcur' & Hs' & Hk'); [lia|].
  rewrite Hcur in Hcur', Hs', Hk'. cbn [Nat.add] in Hcur', Hs', Hk'.
  rewrite Nat.sub_0_r in Hk'.
  exists w'. split; [exact Hw'|]. split; [exact Hlen'|].
  split; [exact Hcur'|].
  destruct (under_way_bounds w' Hinv') as (_ & Hdone & Hpct).
  rewrite Hlen', Hcur' in Hdone, Hpct.
  split.
  { destruct (n <=? j)%nat eqn:E.
    - apply Hdone. apply Nat.leb_le in E. lia.
    - destruct Hst' as [H|H]; [exact H|]. apply Hdone in H.
      apply Nat.leb_gt in E. lia. }
  split; [exact Hpct|]. split; [exact Hs'|]. split; [exact Hk'|].
  intros Hge.
  destruct (continue_step clock
              (continue_all clock self k (repeat wid j)).1
              (continue_all clock self k (repeat wid j)).2
              wid w' Hw' Hinv' Hst') as [_ Hnone].
  apply Hnone. rewrite Hlen', Hcur'. lia.
Qed.

Lemma workflow_completes_in_n_calls_witness :
  active_workflows two_step_processor !! "wf-1" = Some two_step_workflow
  /\ fresh two_step_workflow
  /\ steps two_step_workflow <> []
  /\ exists w',
      active_workflows
        (continue_all Classifier.wall_clock two_step_processor 0
                      (repeat "wf-1" 3)).1 !! "wf-1" = Some w'
      /\ status w' = COMPLETED.
Proof.
  assert (H1 : active_workflows two_step_processor !! "wf-1"
               = Some two_step_workflow) by (vm_compute; reflexivity).
  assert (H2 : fresh two_step_workflow).
  { repeat split; try reflexivity. repeat constructor. }
  assert (H3 : steps two_step_workflow <> []) by discriminate.
  split; [exact H1|]. split; [exact H2|]. split; [exact H3|].
  destruct (workflow_completes_in_n_calls Classifier.wall_clock
              two_step_processor 0 "wf-1" two_step_workflow 3 H1 H2 H3)
    as (w' & Hw' & _ & _ & Hstatus & _).
  exists w'. split; [exact Hw' | exact Hstatus].
Defined.

Lemma template_steps_spec (wid : string) (defs : list (string * string)) :
  Forall (fun d => is_Some (Classifier.of_value d.2)) defs ->
  forall i,
  exists l,
    template_steps wid i defs = inr l
    /\ List.length l = List.length defs
    /\ forall j step,
        l !! j = Some step ->
        step_id step = (wid ++ "_step_" ++ str_nat (i + j))%string
        /\ step_status step = PENDING.
Proof.
  induction 1 as [|[cmd cat] defs [c Hc] _ IH]; intros i.
  - exists []. split; [reflexivity|]. split; [reflexivity|].
    intros j step H. discriminate.
  - cbn [template_steps]. cbn [snd] in Hc. rewrite Hc.
    destruct (IH (S i)) as (l & -> & Hlen & Hsteps).
    eexists. split; [reflexivity|]. split; [simpl; now rewrite Hlen|].
    intros j step Hj. destruct j as [|j'].
    + injection Hj as <-. rewrite Nat.add_0_r. split; reflexivity.
    + replace (i + S j')%nat with (S i + j')%nat by lia. now apply Hsteps.
Qed.

Lemma workflow_templates_valid (t : string) (defs : list (string * string)) :
  workflow_templates t = Some defs ->
  List.length defs = 5%nat
  /\ Forall (fun d => is_Some (Classifier.of_value d.2)) defs.
Proof.
  unfold workflow_templates.
  repeat (destruct (String.eqb t _);
          [intros [= <-]; split; [reflexivity|];
           repeat constructor; vm_compute; eauto|]).
  discriminate.
Qed.

Lemma dynamic_steps_spec (wid intent0 : string) (n : nat)
      (params : list AdvancedParameter) :
  List.length (dynamic_steps wid intent0 n params) = n
  /\ forall j step,
      dynamic_steps wid intent0 n params !! j = Some step ->
      step_id step = (wid ++ "_step_" ++ str_nat j)%string
      /\ step_status step = PENDING.
Proof.
  unfold dynamic_steps. split; [now rewrite length_map, length_seq|].
  intros j step Hj. rewrite list_lookup_fmap in Hj.
  destruct (seq 0 n !! j) as [i|] eqn:E; [|discriminate].
  apply lookup_seq in E as [-> _]. injection Hj as <-. split; reflexivity.
Qed.

(** X13. [_detect_multi_step_workflow] raises nothing. It plans no workflow
    exactly when at most one step is estimated and no template is named.
    Otherwise it stores, under the new identifier and beside the workflows
    held before, a workflow that is not yet advanced: all steps pending,
    step index 0, completion 0. It has the five steps of the template when
    the template named is one of the four known ones, whatever the number of
    steps estimated, and as many steps as estimated otherwise; step [i] is
    identified by the workflow identifier followed by "_step_" and [i]; the
    estimated time is 30 seconds for each estimated step. *)
Theorem detect_plans_workflow (self : AdvancedVoiceProcessor)
        (fresh_id : string) (now : Q) (text0 : string)
        (intent_result : IntentResolutionResult)
        (params : list AdvancedParameter) (user session : string) :
  exists out,
    _detect_multi_step_workflow self fresh_id now text0 intent_result params
                                user session = inr out
    /\ match out.1 with
       | None =>
           (estimated_steps intent_result <= 1)%nat
           /\ is_set (workflow_template intent_result) = false
           /\ out.2 = self
       | Some w =>
           ((1 < estimated_steps intent_result)%nat
            \/ is_set (workflow_template intent_result) = true)
           /\ fresh w
           /\ workflow_id w = fresh_id
           /\ active_workflows out.2
              = <[fresh_id := w]> (active_workflows self)
           /\ List.length (steps w)
              = match workflow_template intent_result ≫= workflow_templates with
                | Some _ => 5%nat
                | None => estimated_steps intent_result
                end
           /\ (forall i step,
                  steps w !! i = Some step ->
                  step_id step = (fresh_id ++ "_step_" ++ str_nat i)%string)
           /\ total_estimated_time w
              = (Qnat (estimated_steps intent_result) * 30)%Q
       end.
Proof.
  unfold _detect_multi_step_workflow.
  destruct ((estimated_steps intent_result <=? 1)%nat
            && negb (is_set (workflow_template intent_result))) eqn:E.
  - apply andb_true_iff in E as [E1 E2]. apply Nat.leb_le in E1.
    apply negb_true_iff in E2. eexists. split; [reflexivity|]. now cbn.
  - assert (Hmulti : (1 < estimated_steps intent_result)%nat
                     \/ is_set (workflow_template intent_result) = true).
    { apply andb_false_iff in E as [E|E].
      - left. apply Nat.leb_gt in E. lia.
      - right. now apply negb_false_iff. }
    assert (Htemplate :
              (if is_set (workflow_template intent_result)
               then workflow_template intent_result else None)
                ≫= (fun t => workflow_templates t)
              = workflow_template intent_result ≫= workflow_templates).
    { destruct (workflow_template intent_result) as [t|]; [|reflexivity].
      cbn [is_set]. destruct (String.eqb_spec t "") as [->|Hne]; reflexivity. }
    rewrite Htemplate.
    assert (Hsteps :
              exists new_steps,
                match workflow_template intent_result ≫= workflow_templates with
                | Some defs => template_steps fresh_id 0 defs
                | None => inr (dynamic_steps fresh_id
                                 (primary_intent intent_result)
                                 (estimated_steps intent_result) params)
                end = inr new_steps
                /\ List.length new_steps
                   = match workflow_template intent_result
                           ≫= workflow_templates with
                     | Some _ => 5%nat
                     | None => estimated_steps intent_result
                     end
                /\ forall j step,
                    new_steps !! j = Some step ->
                    step_id step = (fresh_id ++ "_step_" ++ str_nat j)%string
                    /\ step_status step = PENDING).
    { destruct (workflow_template intent_result ≫= workflow_templates)
        as [defs|] eqn:Et.
      - assert (Hdefs : exists t, workflow_templates t = Some defs).
        { destruct (workflow_template intent_result) as [t|];
            [|discriminate]. now exists t. }
        destruct Hdefs as [t Ht].
        apply workflow_templates_valid in Ht as [Hlen Hvalid].
        destruct (template_steps_spec fresh_id defs Hvalid 0)
          as (l & Hl & Hlen' & Hsteps).
        exists l. split; [exact Hl|]. split; [congruence|]. exact Hsteps.
      - eexists. split; [reflexivity|]. apply dynamic_steps_spec. }
    destruct Hsteps as (new_steps & -> & Hlen & Hsteps).
    eexists. split; [reflexivity|].
    cbn [fst snd mbind exn_bind active_workflows set_workflows workflow_id
         steps total_estimated_time].
    split; [exact Hmulti|]. split.
    { repeat split; try reflexivity. cbn [steps].
      apply Forall_forall. intros step Hin.
      apply list_elem_of_lookup in Hin as [j Hj].
      now apply Hsteps in Hj. }
    repeat split; auto. intros i step Hi. now apply Hsteps in Hi.
Qed.

Lemma get_context_creates
      (redis_get : string -> Contexts.RedisData)
      (redis_write : string -> Classifier.ConversationContext -> exn + unit)
      (manager : Contexts.ContextManager) (now now' : Q)
      (user session : string) :
  is_Some (Contexts.get_context redis_get redis_write manager now now'
                                user session true).1.
Proof.
  unfold Contexts.get_context.
  destruct (Contexts.dict_get _ _) as [cached|].
  - destruct (negb _); [now eexists|].
    cbn [Contexts.redis_client Contexts.set_local_cache
         Contexts.count_cache_hit].
    destruct (Contexts.redis_client manager); [|now eexists].
    destruct (redis_get _); now eexists.
  - destruct (Contexts.redis_client manager); [|now eexists].
    destruct (redis_get _); now eexists.
Qed.

(** X14. With the context manager of the repository the parameter
    resolution always raises. [ContextManager.get_context], called as
    [_resolve_intelligent_parameters] calls it, answers with a context
    whatever the state of the manager and whatever Redis answers (no data,
    a pickled context, or an exception): with the cached context of the user
    and session when that has not expired, and with a new one when nothing
    is cached and no Redis client is connected; only with
    [create_if_missing=False] can it answer [None]. The context is a
    dataclass without a [get] method, so the resolution raises
    [AttributeError] for every text and classification, and
    [process_advanced_command] answers every command with the dictionary of
    its [except] branch. *)
Theorem resolution_raises_with_context_manager
        (redis_get : string -> Contexts.RedisData)
        (redis_write : string -> Classifier.ConversationContext -> exn + unit)
        (manager : Contexts.ContextManager) (now now' : Q)
        (text0 : string) (classification : Classifier.ClassificationResult)
        (user session : string) :
  let get_context :=
    fun user_id session_id =>
      (Contexts.get_context redis_get redis_write manager now now'
                            user_id session_id true).1 in
  is_Some (get_context user session)
  /\ (forall context,
         Contexts.dict_get (Contexts.local_cache manager)
                           (user ++ "_" ++ session)%string = Some context ->
         Classifier.is_context_expired context now 30 = false ->
         get_context user session = Some context)
  /\ (Contexts.redis_client manager = false ->
      Contexts.dict_get (Contexts.local_cache manager)
                        (user ++ "_" ++ session)%string = None ->
      get_context user session
      = Some (Classifier.new_context user session now'))
  /\ (Contexts.get_context redis_get redis_write Contexts.init now now'
                           user session false).1 = None
  /\ (exists message,
         _resolve_intelligent_parameters get_context text0 classification
                                         user session
         = inl (AttributeError message))
  /\ (forall similarity captures clock intent_classifier self k fresh_id
             use_context,
         exists message category,
           (process_advanced_command similarity captures clock
                                     intent_classifier get_context self k
                                     fresh_id text0 user session
                                     use_context).1.1
           = Fallback (AttributeError message) category).
Proof.
  intros get_context.
  pose proof (get_context_creates redis_get redis_write manager now now'
                                  user session) as Hsome.
  fold (get_context user session) in Hsome.
  split; [exact Hsome|]. split; [|split; [|split; [|split]]].
  - intros context Hcached Hfresh. unfold get_context, Contexts.get_context.
    now rewrite Hcached, Hfresh.
  - intros Hclient Hcached. unfold get_context, Contexts.get_context.
    now rewrite Hcached, Hclient.
  - reflexivity.
  - unfold _resolve_intelligent_parameters.
    destruct Hsome as [context ->]. eexists. reflexivity.
  - intros similarity captures clock intent_classifier self k fresh_id
           use_context.
    unfold process_advanced_command.
    destruct (Classifier.classify_command _ _ _ _ _ _ _ _ _)
      as [[basic clf] k1].
    unfold _resolve_intelligent_parameters.
    destruct Hsome as [context ->]. cbn. eauto.
Qed.

(** X15. The parameters inferred from the wording of a command, for any
    text and category, are at most four, have pairwise different names, are
    marked as inferred, carry a string value, and have a confidence between
    0.5 and 0.7, below the 0.9 of an extracted parameter. *)
Theorem inferred_parameters_are_modest (text0 : string)
        (c : Classifier.CommandCategory) :
  Forall (fun p => type p = INFERRED
                   /\ (5 # 10 <= confidence p)%Q /\ (confidence p <= 7 # 10)%Q
                   /\ exists v, value p = Some (Classifier.VStr v))
         (_infer_parameters text0 c)
  /\ NoDup (name <$> _infer_parameters text0 c)
  /\ (List.length (_infer_parameters text0 c) <= 4)%nat.
Proof.
  unfold _infer_parameters, _infer_time_parameters, _infer_document_format,
    _infer_priority, _infer_audience.
  cbn [flat_map fst snd].
  repeat match goal with
         | |- context [first_hint ?t text0] =>
             generalize (first_hint t text0); intros [?|]
         end;
    destruct c; cbn [option_map opt_list app fmap list_fmap];
    (split; [repeat constructor; cbn; try discriminate; eauto|]);
    (split; [|cbn; lia]);
    cbn [name inferred mk_parameter];
    apply (bool_decide_unpack _); vm_compute; exact I.
Qed.

End WorkflowExtra.

(** ** More on the search ranking *)

Module SearchExtra.
Import Search.

Lemma find_url (u : string) (results : list SearchResult) :
  u ∈ result_url <$> results ->
  exists r, find (fun x => String.eqb (result_url x) u) results = Some r
            /\ result_url r = u.
Proof.
  induction results as [|x rest IH]; simpl.
  - intros H. now apply elem_of_nil in H.
  - rewrite elem_of_cons.
    destruct (String.eqb_spec (result_url x) u) as [Heq|Hne].
    + eauto.
    + intros [H|H]; [congruence | now apply IH].
Qed.

(** X16. Deduplication loses no page and prefers the first answer: a result
    is in the ranked list exactly when its URL is not empty and it is the
    first of the collected results with that URL, so the URLs of the ranked
    list are the non-empty URLs of the collected results, and each result
    comes with a URL entry. *)
Theorem rank_and_deduplicate_keeps_first (results : list SearchResult)
        (query : string) :
  (forall r, r ∈ _rank_and_deduplicate results query
             <-> result_url r <> "" /\ first_with_url r results = Some r)
  /\ (forall u, u ∈ result_url <$> _rank_and_deduplicate results query
                <-> u <> "" /\ u ∈ result_url <$> results)
  /\ (forall r, r ∈ _rank_and_deduplicate results query ->
                exists u, url r = Some u /\ u <> "").
Proof.
  assert (H1 : forall r, r ∈ _rank_and_deduplicate results query
                         <-> result_url r <> ""
                             /\ first_with_url r results = Some r).
  { intros r. unfold _rank_and_deduplicate.
    rewrite (SearchFacts.sorted_desc_perm (rank_score query)).
    rewrite SearchFacts.unique_results_first. split.
    - intros (Ha & _ & Hb). now split.
    - intros (Ha & Hb). repeat split; auto. apply not_elem_of_nil. }
  split; [exact H1|]. split.
  - intros u. rewrite list_elem_of_fmap. split.
    + intros (r & -> & Hr). apply H1 in Hr as (Ha & Hb). split; [exact Ha|].
      apply list_elem_of_fmap. exists r. split; [reflexivity|].
      apply list_elem_of_In. unfold first_with_url in Hb.
      now apply find_some in Hb as [Hb _].
    + intros (Hu & Hin). apply find_url in Hin as (r & Hfind & Hr).
      exists r. split; [now symmetry|]. apply H1. subst u. now split.
  - intros r Hr. apply H1 in Hr as (Ha & _). unfold result_url, get in Ha.
    destruct (url r) as [u|]; [|now contradiction Ha]. now exists u.
Qed.

Section Stable.
Context {A : Type} (key : A -> Float.float) (q : Float.float).

Local Abbreviation same := (fun x : A => Float.eqb (key x) q).

Lemma insert_desc_filter (x : A) (l : list A) :
  List.filter same (insert_desc key x l) = List.filter same (x :: l).
Proof.
  induction l as [|y l IH]; [reflexivity|].
  cbn [insert_desc]. destruct (Float.ltb (key x) (key y)) eqn:E; [|reflexivity].
  cbn [List.filter] in *. rewrite IH.
  destruct (Float.eqb (key x) q) eqn:Ex; [|reflexivity].
  destruct (Float.eqb (key y) q) eqn:Ey; [|reflexivity].
  exfalso. rewrite (FloatFacts.eqb_not_ltb _ _ _ Ex Ey) in E. discriminate.
Qed.

Lemma sorted_desc_filter (l : list A) :
  List.filter same (sorted_desc key l) = List.filter same l.
Proof.
  induction l as [|x l IH]; [reflexivity|].
  unfold sorted_desc in *. cbn [fold_right]. rewrite insert_desc_filter.
  cbn [List.filter]. now rewrite IH.
Qed.

End Stable.

(** X17. The ranking is stable: when the composite score of every result
    is a number, the results of one composite score stand in the ranked
    list in the order in which the providers' answers listed them. The
    composite scores are sums of floats, compared as floats. *)
Theorem rank_and_deduplicate_stable (results : list SearchResult)
        (query : string) (q : Float.float) :
  Forall (fun r => Float.is_nan (rank_score query r) = false) results ->
  scoring query q (_rank_and_deduplicate results query)
  = scoring query q (unique_results [] results).
Proof.
  intros _. unfold scoring, _rank_and_deduplicate.
  apply (sorted_desc_filter (rank_score query) q).
Qed.

(** An encyclopedia page of score 1.0 and a page of score 0.9 on an
    authoritative domain with the query in its title: 1.0 + 0.2 is below
    0.9 + 0.2 + 0.1 as floats, so the second page is ranked first, and the
    first page is the one result of score 1.0 + 0.2. *)
Lemma rank_and_deduplicate_stable_witness :
  let results :=
    [ page "wikipedia" Float.f1_0 "Proof assistant"
           "https://en.wikipedia.org/wiki/Proof_assistant";
      page "bing" Float.f0_9 "The Rocq prover" "https://rocq.example.edu/" ] in
  Forall (fun r => Float.is_nan (rank_score "rocq" r) = false) results
  /\ _rank_and_deduplicate results "rocq" = rev results
  /\ scoring "rocq" (Float.add Float.f1_0 Float.f0_2)
             (_rank_and_deduplicate results "rocq")
     = [ page "wikipedia" Float.f1_0 "Proof assistant"
              "https://en.wikipedia.org/wiki/Proof_assistant" ].
Proof.
  intros results.
  assert (H : Forall (fun r => Float.is_nan (rank_score "rocq" r) = false)
                     results).
  { repeat constructor. }
  split; [exact H|]. split; [vm_compute; reflexivity|].
  rewrite (rank_and_deduplicate_stable results "rocq" _ H).
  vm_compute. reflexivity.
Defined.

Lemma Qnat_nonneg (n : nat) : (0 <= Workflow.Qnat n)%Q.
Proof.
  unfold Workflow.Qnat. change 0%Q with (inject_Z 0).
  rewrite <- Zle_Qle. lia.
Qed.

Lemma Qnat_pos (n : nat) : (0 < n)%nat -> (0 < Workflow.Qnat n)%Q.
Proof.
  intros H. unfold Workflow.Qnat. change 0%Q with (inject_Z 0).
  rewrite <- Zlt_Qlt. lia.
Qed.

Lemma pymin_cases (a b : Q) :
  ((b < a)%Q /\ pymin a b = b) \/ ((a <= b)%Q /\ pymin a b = a).
Proof.
  unfold pymin. destruct (Qlt_bool b a) eqn:E.
  - left. split; [now apply Qlt_bool_iff | reflexivity].
  - right. split; [now apply Qlt_bool_false_iff | reflexivity].
Qed.

(** X18. The confidence of a knowledge query is 0 for no results and
    otherwise lies between 0.3 and 1: it is 0.3 when no result is from an
    authoritative domain and 1 when every result is. *)
Theorem calculate_confidence_range (results : list SearchResult) :
  _calculate_confidence [] = 0%Q
  /\ (results <> [] ->
      (3 # 10 <= _calculate_confidence results)%Q
      /\ (_calculate_confidence results <= 1)%Q
      /\ (Forall (fun r => is_authoritative r = false) results ->
          (_calculate_confidence results == 3 # 10)%Q)
      /\ (Forall (fun r => is_authoritative r = true) results ->
          (_calculate_confidence results == 1)%Q)).
Proof.
  split; [reflexivity|]. intros Hne.
  destruct results as [|r0 rest]; [contradiction|].
  unfold _calculate_confidence.
  set (results := r0 :: rest) in *.
  set (k := List.length (List.filter is_authoritative results)).
  set (n := List.length results).
  assert (Hn : (0 < Workflow.Qnat n)%Q) by (apply Qnat_pos; unfold n, results; simpl; lia).
  assert (Hk : (0 <= Workflow.Qnat k)%Q) by apply Qnat_nonneg.
  assert (Hshare : (0 <= Workflow.Qnat k / Workflow.Qnat n)%Q).
  { apply Qle_shift_div_l; [exact Hn|]. now rewrite Qmult_0_l. }
  assert (Hnone : Forall (fun r => is_authoritative r = false) results ->
                  (Workflow.Qnat k / Workflow.Qnat n == 0)%Q).
  { intros Hnone.
    assert (Hk0 : k = 0%nat).
    { unfold k. clearbody results. clear -Hnone.
      induction Hnone as [|x l Hx _ IH]; [reflexivity|].
      cbn [List.filter]. now rewrite Hx. }
    rewrite Hk0. change (Workflow.Qnat 0) with 0%Q.
    unfold Qdiv. now rewrite Qmult_0_l. }
  assert (Hall : Forall (fun r => is_authoritative r = true) results ->
                 (Workflow.Qnat k / Workflow.Qnat n == 1)%Q).
  { intros Hall.
    assert (Hkn : k = n).
    { unfold k, n. clearbody results. clear -Hall.
      induction Hall as [|x l Hx _ IH]; [reflexivity|].
      cbn [List.filter]. rewrite Hx. simpl. now rewrite IH. }
    rewrite Hkn. unfold Qdiv. apply Qmult_inv_r. intros H0. rewrite H0 in Hn.
    now apply Qlt_irrefl in Hn. }
  set (share := (Workflow.Qnat k / Workflow.Qnat n)%Q) in *.
  destruct (pymin_cases 1 (share + (3 # 10))) as [[Hlt ->] | [Hle ->]].
  - repeat split; try lra.
    + intros H. apply Hnone in H. lra.
    + intros H. apply Hall in H. lra.
  - repeat split; try lra.
    intros H. apply Hnone in H. lra.
Qed.

Lemma calculate_confidence_range_witness :
  [ {| title := Some "Rocq"; url := Some "https://en.wikipedia.org/wiki/Rocq";
       snippet := None; source := Some "wikipedia";
       relevance_score := None |} ] <> []
  /\ (_calculate_confidence
        [ {| title := Some "Rocq"; url := Some "https://en.wikipedia.org/wiki/Rocq";
             snippet := None; source := Some "wikipedia";
             relevance_score := None |} ] <= 1)%Q.
Proof.
  assert (Hne : [ {| title := Some "Rocq";
                     url := Some "https://en.wikipedia.org/wiki/Rocq";
                     snippet := None; source := Some "wikipedia";
                     relevance_score := None |} ] <> []) by discriminate.
  split; [exact Hne|].
  apply (proj2 (calculate_confidence_range _) Hne).
Defined.

End SearchExtra.

(** ** More on the tokens *)

Module AuthExtra.
Import Auth.

Lemma find_is_Some {A : Type} (f : A -> bool) (l : list A) (x : A) :
  In x l -> f x = true -> exists y, find f l = Some y.
Proof.
  intros Hin Hx. destruct (find f l) as [y|] eqn:E; [eauto|].
  rewrite (find_none f l E x Hin) in Hx. discriminate.
Qed.

Section Keys.
Variable sha256_hexdigest : string -> string.
Variable getenv : string -> option string.

Lemma getenv_set_Some (env_key value : string) :
  getenv_set getenv env_key = Some value
  <-> getenv env_key = Some value /\ value <> "".
Proof.
  unfold getenv_set. destruct (getenv env_key) as [v|].
  - destruct (String.eqb_spec v "") as [->|Hne].
    + split; [discriminate|]. intros [[= <-] H]. contradiction.
    + split; [intros [= <-]; auto | intros [[= <-] _]; reflexivity].
  - split; [discriminate | intros [H _]; discriminate].
Qed.

Lemma fold_keys_dom (l : list (string * string)) (m : gmap string string)
      (k : string) :
  is_Some
    (fold_left
       (fun valid_keys entry =>
          match getenv_set getenv (fst entry) with
          | Some api_key =>
              let key_identifier :=
                (prefix 8 api_key ++ "_"
                 ++ prefix 8 (hash_api_key sha256_hexdigest api_key))%string in
              <[key_identifier := snd entry]> valid_keys
          | None => valid_keys
          end) l m !! k)
  <-> is_Some (m !! k)
      \/ exists entry value,
           In entry l /\ getenv_set getenv (fst entry) = Some value
           /\ k = key_identifier sha256_hexdigest value.
Proof.
  revert m. induction l as [|e l IH]; intros m.
  - simpl. split; [auto | intros [H | (e & v & [] & _)]; exact H].
  - cbn [fold_left]. rewrite IH. clear IH.
    destruct (getenv_set getenv (fst e)) as [v|] eqn:E.
    + cbv zeta. fold (key_identifier sha256_hexdigest v).
      destruct (decide (key_identifier sha256_hexdigest v = k)) as [<-|Hne].
      * rewrite lookup_insert_eq. split.
        -- intros _. right. exists e, v. repeat split; auto. now left.
        -- intros _. left. eauto.
      * rewrite lookup_insert_ne by exact Hne. split.
        -- intros [H | (e' & v' & Hin & He' & Hk)]; [now left|].
           right. exists e', v'. repeat split; auto. now right.
        -- intros [H | (e' & v' & [<-|Hin] & He' & Hk)]; [now left| |].
           ++ exfalso. rewrite E in He'. injection He' as <-. now apply Hne.
           ++ right. eauto.
    + split.
      * intros [H | (e' & v' & Hin & He' & Hk)]; [now left|].
        right. exists e', v'. repeat split; auto. now right.
      * intros [H | (e' & v' & [<-|Hin] & He' & Hk)]; [now left| |].
        -- rewrite E in He'. discriminate.
        -- right. eauto.
Qed.

Lemma fold_keys_values (l : list (string * string)) (m : gmap string string) :
  (forall k u, m !! k = Some u -> u <> "") ->
  Forall (fun entry => snd entry <> "") l ->
  forall k u,
    fold_left
      (fun valid_keys entry =>
         match getenv_set getenv (fst entry) with
         | Some api_key =>
             let key_identifier :=
               (prefix 8 api_key ++ "_"
                ++ prefix 8 (hash_api_key sha256_hexdigest api_key))%string in
             <[key_identifier := snd entry]> valid_keys
         | None => valid_keys
         end) l m !! k = Some u ->
    u <> "".
Proof.
  intros Hm Hl. revert m Hm.
  induction Hl as [|e l He _ IH]; intros m Hm k u; [apply Hm|].
  cbn [fold_left]. apply IH. clear IH k u.
  destruct (getenv_set getenv (fst e)) as [v|]; [|exact Hm].
  cbv zeta. intros k u.
  destruct (decide ((prefix 8 v ++ "_"
                     ++ prefix 8 (hash_api_key sha256_hexdigest v))%string = k))
    as [<-|Hne].
  - rewrite lookup_insert_eq. intros [= <-]. exact He.
  - rewrite lookup_insert_ne by exact Hne. apply Hm.
Qed.

Lemma builtin_keys (k : string) :
  is_Some (VALID_API_KEYS !! k) <-> k = "demo_key_123" \/ k = "test_key_456".
Proof.
  unfold VALID_API_KEYS.
  destruct (decide ("test_key_456" = k)) as [<-|H1].
  { rewrite lookup_insert_eq. split; eauto. }
  rewrite lookup_insert_ne by exact H1.
  destruct (decide ("demo_key_123" = k)) as [<-|H2].
  { rewrite lookup_insert_eq. split; eauto. }
  rewrite lookup_insert_ne by exact H2. rewrite lookup_empty.
  split; [intros [x Hx]; discriminate | intros [H|H]; congruence].
Qed.

Lemma builtin_values (k u : string) : VALID_API_KEYS !! k = Some u -> u <> "".
Proof.
  unfold VALID_API_KEYS.
  destruct (decide ("test_key_456" = k)) as [<-|H1].
  { rewrite lookup_insert_eq. intros [= <-]. discriminate. }
  rewrite lookup_insert_ne by exact H1.
  destruct (decide ("demo_key_123" = k)) as [<-|H2].
  { rewrite lookup_insert_eq. intros [= <-]. discriminate. }
  rewrite lookup_insert_ne by exact H2. rewrite lookup_empty. discriminate.
Qed.

Lemma listed_keys (k : string) :
  is_Some (get_valid_api_keys sha256_hexdigest getenv !! k)
  <-> k = "demo_key_123" \/ k = "test_key_456"
      \/ exists env_key value,
           In env_key env_keys /\ getenv env_key = Some value /\ value <> ""
           /\ k = key_identifier sha256_hexdigest value.
Proof.
  unfold get_valid_api_keys. rewrite fold_keys_dom, builtin_keys. split.
  - intros [[H|H] | (e & v & Hin & He & Hk)]; [auto | auto |].
    right. right. exists (fst e), v. apply getenv_set_Some in He as [He Hv].
    repeat split; auto.
    change env_keys with (map fst env_api_keys). now apply in_map.
  - intros [H | [H | (e & v & Hin & He & Hv & Hk)]]; [auto | auto |].
    right. change env_keys with (map fst env_api_keys) in Hin.
    apply in_map_iff in Hin as (entry & <- & Hin).
    exists entry, v. repeat split; auto. now apply getenv_set_Some.
Qed.

Lemma listed_values (k u : string) :
  get_valid_api_keys sha256_hexdigest getenv !! k = Some u -> u <> "".
Proof.
  unfold get_valid_api_keys. apply fold_keys_values; [apply builtin_values|].
  unfold env_api_keys. repeat constructor; discriminate.
Qed.

Lemma environment_user_Some (k : string) :
  (exists u, environment_user getenv k = Some u)
  <-> exists env_key,
        In env_key env_keys /\ getenv env_key = Some k /\ k <> "".
Proof.
  unfold environment_user. split.
  - intros [u Hu]. destruct (find _ env_keys) as [e|] eqn:E; [|discriminate].
    apply find_some in E as [Hin He]. exists e. split; [exact Hin|].
    destruct (getenv_set getenv e) as [v|] eqn:Ev; [|discriminate].
    apply String.eqb_eq in He. subst v. now apply getenv_set_Some.
  - intros (e & Hin & He & Hk).
    destruct (find_is_Some
                (fun env_key =>
                   match getenv_set getenv env_key with
                   | Some env_value => String.eqb k env_value
                   | None => false
                   end) env_keys e Hin) as [y Hy].
    + rewrite (proj2 (getenv_set_Some e k)) by auto. apply String.eqb_refl.
    + rewrite Hy. simpl. eauto.
Qed.

Lemma validate_api_key_accepted (k : string) :
  (exists u, validate_api_key sha256_hexdigest getenv k = Some u)
  <-> accepted_key sha256_hexdigest getenv k.
Proof.
  unfold accepted_key. split.
  - intros [u Hu].
    assert (H : is_Some (get_valid_api_keys sha256_hexdigest getenv !! k)
                \/ exists u, environment_user getenv k = Some u).
    { unfold validate_api_key in Hu.
      destruct (get_valid_api_keys sha256_hexdigest getenv !! k) as [u'|];
        [left; eauto | right; eauto]. }
    destruct H as [H|H].
    + apply listed_keys in H as [H | [H | (e & v & Hin & He & Hv & Hk)]];
        [auto | auto |].
      right. right. exists e, v. repeat split; auto.
    + apply environment_user_Some in H as (e & Hin & He & Hk).
      right. right. exists e, k. repeat split; auto.
  - intros H.
    assert (Hlisted : is_Some (get_valid_api_keys sha256_hexdigest getenv !! k)
                      -> exists u, validate_api_key sha256_hexdigest getenv k
                                   = Some u).
    { intros [u Hu]. unfold validate_api_key. rewrite Hu.
      pose proof (listed_values k u Hu) as Hne.
      apply String.eqb_neq in Hne. rewrite Hne. simpl. eauto. }
    destruct H as [H | [H | (e & v & Hin & He & Hv & [Hk | Hk])]].
    + apply Hlisted, listed_keys. auto.
    + apply Hlisted, listed_keys. auto.
    + subst v.
      destruct (get_valid_api_keys sha256_hexdigest getenv !! k) as [u|] eqn:E.
      * apply Hlisted. eauto.
      * unfold validate_api_key. rewrite E.
        apply environment_user_Some. eauto.
    + apply Hlisted, listed_keys. right. right. exists e, v. auto.
Qed.

End Keys.

Section Tokens.
Variable Token : Type.
Variable jwt_encode : Payload -> Token.
Variable jwt_decode : Token -> Z -> JwtError + Payload.
Variable sha256_hexdigest : string -> string.
Variable getenv : string -> option string.

(** X19. Which API keys obtain a token: the two built-in keys and, for each
    of the four provider keys that the environment sets to a value that is
    not empty, that value itself and its identifier (its first 8 characters,
    an underscore, the first 8 characters of its hash). Any other key is
    answered with status 401 and the detail "Invalid API key". *)
Theorem api_key_acceptance (now1 now2 : Z) (api_key : string)
        (user_agent : option string) :
  (accepted_key sha256_hexdigest getenv api_key ->
   exists response,
     generate_token Token jwt_encode sha256_hexdigest getenv
                    now1 now2 api_key user_agent = inr response
     /\ token_type response = "bearer")
  /\ (~ accepted_key sha256_hexdigest getenv api_key ->
      generate_token Token jwt_encode sha256_hexdigest getenv
                     now1 now2 api_key user_agent
      = inl {| status_code := 401; detail := "Invalid API key" |}).
Proof.
  split.
  - intros H. apply validate_api_key_accepted in H as [u Hu].
    unfold generate_token. rewrite Hu.
    rewrite (AuthFacts.validate_api_key_not_empty _ _ _ _ Hu).
    eexists. split; reflexivity.
  - intros H. unfold generate_token.
    destruct (validate_api_key sha256_hexdigest getenv api_key) as [u|] eqn:E;
      [|reflexivity].
    exfalso. apply H, validate_api_key_accepted. eauto.
Qed.

(** The contract of the JWT library that is used: a token decodes to the
    payload it was encoded from at every clock reading from its issue time
    on that is before its expiry, and decoding raises
    [ExpiredSignatureError] from the expiry on. *)
Hypothesis jwt_valid :
  forall payload now,
    (iat payload <= now < exp payload)%Z ->
    jwt_decode (jwt_encode payload) now = inr payload.
Hypothesis jwt_expiry :
  forall payload now,
    (exp payload <= now)%Z ->
    jwt_decode (jwt_encode payload) now = inl ExpiredSignatureError.

Lemma generate_token_response (now1 now2 : Z) (api_key user_id : string)
      (user_agent : option string) :
  validate_api_key sha256_hexdigest getenv api_key = Some user_id ->
  generate_token Token jwt_encode sha256_hexdigest getenv
                 now1 now2 api_key user_agent
  = inr {| access_token :=
             jwt_encode
               {| sub := Some user_id;
                  exp := (timestamp now1
                          + (if mentions_ios user_agent then 24 else 1) * 3600)%Z;
                  iat := timestamp now2; type := "access" |};
           token_type := "bearer";
           expires_in := ((if mentions_ios user_agent then 24 else 1) * 3600)%Z |}.
Proof.
  intros Hvalid. unfold generate_token. rewrite Hvalid.
  rewrite (AuthFacts.validate_api_key_not_empty _ _ _ _ Hvalid).
  rewrite AuthFacts.expiration_hours_cases.
  set (h := (if mentions_ios user_agent then 24 else 1)%Z).
  assert (Hh : (h = 24 \/ h = 1)%Z)
    by (unfold h; destruct (mentions_ios user_agent); auto).
  unfold create_access_token.
  assert (Hdelta : (hours h =? 0)%Z = false).
  { apply Z.eqb_neq. unfold hours, microseconds_per_second. lia. }
  now rewrite Hdelta, AuthFacts.timestamp_after.
Qed.

(** X20. A token is refused from its expiry on: for a valid API key, the
    token that [generate_token] issues is answered by [verify_token] with
    status 401 and the detail "Token has expired" at any time that is not
    before the whole seconds of the issue instant plus the declared
    lifetime. *)
Theorem expired_token_refused (now1 now2 : Z) (api_key user_id : string)
        (user_agent : option string) :
  validate_api_key sha256_hexdigest getenv api_key = Some user_id ->
  exists response,
    generate_token Token jwt_encode sha256_hexdigest getenv
                   now1 now2 api_key user_agent = inr response
    /\ forall now,
        (timestamp now1 + expires_in response <= now)%Z ->
        verify_token Token jwt_decode (access_token response) now
        = inl {| status_code := 401; detail := "Token has expired" |}.
Proof.
  intros Hvalid. eexists. split; [exact (generate_token_response _ _ _ _ _ Hvalid)|].
  cbn [expires_in access_token]. intros now Hnow.
  unfold verify_token. now rewrite jwt_expiry.
Qed.

(** X21. Refreshing does not keep the lifetime of the token presented: for
    a token that [generate_token] issued, with a lifetime of one hour or of
    24 hours, [refresh_token] at a time from its issue on and before its
    expiry answers with a token for the same subject that lasts 24 hours
    from the refresh, and declares 86400 seconds; the new token is verified
    from its own issue on and before its expiry. From the expiry of the
    token presented on, [refresh_token] answers 401 "Token has expired". *)
Theorem refresh_grants_a_day (now1 now2 : Z) (api_key user_id : string)
        (user_agent : option string) (now r1 r2 : Z) :
  validate_api_key sha256_hexdigest getenv api_key = Some user_id ->
  exists response,
    generate_token Token jwt_encode sha256_hexdigest getenv
                   now1 now2 api_key user_agent = inr response
    /\ ((timestamp now2 <= now < timestamp now1 + expires_in response)%Z ->
        exists refreshed,
          refresh_token Token jwt_encode jwt_decode
                        (access_token response) now r1 r2 = inr refreshed
          /\ token_type refreshed = "bearer"
          /\ expires_in refreshed = 86400%Z
          /\ forall now',
              (timestamp r2 <= now' < timestamp r1 + 86400)%Z ->
              exists payload,
                verify_token Token jwt_decode (access_token refreshed) now'
                = inr payload
                /\ sub payload = Some user_id
                /\ exp payload = (timestamp r1 + 86400)%Z)
    /\ ((timestamp now1 + expires_in response <= now)%Z ->
        refresh_token Token jwt_encode jwt_decode
                      (access_token response) now r1 r2
        = inl {| status_code := 401; detail := "Token has expired" |}).
Proof.
  intros Hvalid. eexists. split; [exact (generate_token_response _ _ _ _ _ Hvalid)|].
  cbn [expires_in access_token].
  pose proof (AuthFacts.validate_api_key_not_empty _ _ _ _ Hvalid) as Hne.
  split.
  - intros Hnow. unfold refresh_token, get_current_user, verify_token.
    rewrite jwt_valid by exact Hnow. cbn [sub]. rewrite Hne.
    eexists. split; [reflexivity|]. cbn [token_type expires_in access_token].
    split; [reflexivity|]. split; [reflexivity|].
    intros now' Hnow'. unfold create_access_token.
    rewrite (AuthFacts.timestamp_after r1 JWT_EXPIRATION_HOURS).
    change (JWT_EXPIRATION_HOURS * 3600)%Z with 86400%Z.
    rewrite jwt_valid by exact Hnow'. cbn [sub].
    eexists. split; [reflexivity|]. split; reflexivity.
  - intros Hnow. unfold refresh_token, get_current_user, verify_token.
    now rewrite jwt_expiry.
Qed.

End Tokens.

Lemma plain_expiry (payload : Payload) (now : Z) :
  (exp payload <= now)%Z ->
  plain_decode (plain_encode payload) now = inl ExpiredSignatureError.
Proof.
  intros H. unfold plain_decode, plain_encode.
  apply Z.leb_le in H. now rewrite H.
Qed.

(** The key of a provider that the environment sets obtains a token. *)
Lemma api_key_acceptance_witness :
  accepted_key no_hash openai_environment "sk-test-0123456789"
  /\ exists response,
      generate_token Payload plain_encode no_hash openai_environment
                     1700000000123456 1700000000123999 "sk-test-0123456789"
                     None = inr response
      /\ token_type response = "bearer".
Proof.
  assert (H : accepted_key no_hash openai_environment "sk-test-0123456789").
  { right. right. exists "OPENAI_API_KEY", "sk-test-0123456789".
    split; [simpl; auto|]. split; [reflexivity|]. split; [discriminate|].
    now left. }
  split; [exact H|].
  exact (proj1 (api_key_acceptance Payload plain_encode no_hash
                  openai_environment 1700000000123456 1700000000123999
                  "sk-test-0123456789" None) H).
Defined.

(** The demo key, presented by a client that is not an iOS client: the
    token is refused an hour after the issue. *)
Lemma expired_token_refused_witness :
  validate_api_key no_hash no_environment "demo_key_123" = Some "demo_user"
  /\ exists response,
      generate_token Payload plain_encode no_hash no_environment
                     1700000000123456 1700000000123999 "demo_key_123" None
      = inr response
      /\ verify_token Payload plain_decode (access_token response) 1700003600
         = inl {| status_code := 401; detail := "Token has expired" |}.
Proof.
  assert (Hkey : validate_api_key no_hash no_environment "demo_key_123"
                 = Some "demo_user") by (vm_compute; reflexivity).
  split; [exact Hkey|].
  destruct (expired_token_refused Payload plain_encode plain_decode no_hash
              no_environment plain_expiry
              1700000000123456 1700000000123999 "demo_key_123" "demo_user"
              None Hkey)
    as (response & Hresponse & Hrefused).
  exists response. split; [exact Hresponse|].
  apply Hrefused. injection Hresponse as <-. vm_compute. discriminate.
Defined.

(** The one-hour token of the demo key, refreshed after half an hour *)
Lemma refresh_grants_a_day_witness :
  validate_api_key no_hash no_environment "demo_key_123" = Some "demo_user"
  /\ exists response,
      generate_token Payload plain_encode no_hash no_environment
                     1700000000123456 1700000000123999 "demo_key_123" None
      = inr response
      /\ expires_in response = 3600%Z
      /\ exists refreshed,
          refresh_token Payload plain_encode plain_decode
                        (access_token response) 1700001800
                        1700001800000000 1700001800000500 = inr refreshed
          /\ expires_in refreshed = 86400%Z
          /\ exists payload,
              verify_token Payload plain_decode (access_token refreshed)
                           1700088199 = inr payload
              /\ sub payload = Some "demo_user"
              /\ exp payload = 1700088200%Z.
Proof.
  assert (Hkey : validate_api_key no_hash no_environment "demo_key_123"
                 = Some "demo_user") by (vm_compute; reflexivity).
  split; [exact Hkey|].
  destruct (refresh_grants_a_day Payload plain_encode plain_decode no_hash
              no_environment AuthFacts.plain_round_trip plain_expiry
              1700000000123456 1700000000123999 "demo_key_123" "demo_user"
              None 1700001800 1700001800000000 1700001800000500 Hkey)
    as (response & Hresponse & Hrefresh & _).
  exists response. split; [exact Hresponse|].
  assert (Hlife : expires_in response = 3600%Z)
    by (injection Hresponse as <-; reflexivity).
  split; [exact Hlife|].
  destruct Hrefresh as (refreshed & Hrefreshed & _ & Hday & Hverify).
  { rewrite Hlife. vm_compute. split; [discriminate | reflexivity]. }
  exists refreshed. split; [exact Hrefreshed|]. split; [exact Hday|].
  apply Hverify. vm_compute. split; [discriminate | reflexivity].
Defined.

End AuthExtra.

(** ** More on the sessions *)

Module SessionExtra.
Import Sessions.

Lemma connected_is_Some (self : WebSocketManager) (client : string) :
  connected self client = true <-> is_Some (active_connections self !! client).
Proof. unfold connected. apply bool_decide_eq_true. Qed.

Lemma disconnect_lookup (self : WebSocketManager) (client k : string) :
  active_connections (disconnect self client) !! k
  = if decide (k = client) then None else active_connections self !! k.
Proof.
  unfold disconnect. destruct (connected self client) eqn:E.
  - cbn [active_connections]. destruct (decide (k = client)) as [->|Hne].
    + apply lookup_delete_eq.
    + now apply lookup_delete_ne.
  - destruct (decide (k = client)) as [->|Hne]; [|reflexivity].
    apply eq_None_not_Some. intros H. apply connected_is_Some in H. congruence.
Qed.

Lemma disconnect_group_names (self : WebSocketManager) (client g : string) :
  is_Some (connection_groups (disconnect self client) !! g)
  <-> is_Some (connection_groups self !! g).
Proof.
  unfold disconnect. destruct (connected self client); [|reflexivity].
  cbn [connection_groups]. rewrite lookup_fmap. apply fmap_is_Some.
Qed.

Lemma send_result (self : WebSocketManager) (now : Q) (delivered : bool)
      (client : string) (connection : WebSocketConnection) :
  active_connections self !! client = Some connection ->
  send_personal_message self now delivered client
  = (delivered,
     if delivered then
       {| active_connections :=
            <[client := sent connection now]> (active_connections self);
          connection_groups := connection_groups self |}
     else disconnect self client).
Proof.
  intros H. unfold send_personal_message. rewrite H. now destruct delivered.
Qed.

Lemma send_lookup_ne (self : WebSocketManager) (now : Q) (delivered : bool)
      (client k : string) :
  k <> client ->
  active_connections (send_personal_message self now delivered client).2 !! k
  = active_connections self !! k.
Proof.
  intros Hne. unfold send_personal_message.
  destruct (active_connections self !! client) as [connection|]; [|reflexivity].
  destruct delivered; cbn [snd active_connections].
  - now apply lookup_insert_ne.
  - rewrite disconnect_lookup. now destruct (decide (k = client)).
Qed.

Lemma send_group_names (self : WebSocketManager) (now : Q) (delivered : bool)
      (client g : string) :
  is_Some (connection_groups
             (send_personal_message self now delivered client).2 !! g)
  <-> is_Some (connection_groups self !! g).
Proof.
  unfold send_personal_message.
  destruct (active_connections self !! client) as [connection|]; [|reflexivity].
  destruct delivered; [reflexivity|]. apply disconnect_group_names.
Qed.

Lemma client_ids_spec (self : WebSocketManager) (k : string) :
  k ∈ client_ids self <-> is_Some (active_connections self !! k).
Proof.
  unfold client_ids. rewrite list_elem_of_fmap. split.
  - intros ([k' c] & -> & H). apply elem_of_map_to_list in H. simpl. eauto.
  - intros [c H]. exists (k, c). split; [reflexivity|].
    now apply elem_of_map_to_list.
Qed.

Lemma fold_disconnect_lookup (clients : list string) (self : WebSocketManager)
      (k : string) :
  active_connections (fold_left disconnect clients self) !! k
  = if decide (k ∈ clients) then None else active_connections self !! k.
Proof.
  revert self. induction clients as [|c l IH]; intros self.
  - simpl. destruct (decide (k ∈ [])) as [H|_]; [|reflexivity].
    now apply elem_of_nil in H.
  - cbn [fold_left]. rewrite IH, disconnect_lookup.
    destruct (decide (k ∈ l)) as [Hl|Hl].
    + rewrite decide_True; [reflexivity|]. now apply elem_of_cons; right.
    + destruct (decide (k = c)) as [->|Hne].
      * rewrite decide_True; [reflexivity|]. now apply elem_of_cons; left.
      * rewrite decide_False; [reflexivity|].
        intros [H|H]%elem_of_cons; contradiction.
Qed.

Lemma fold_shutdown (now : Q) (delivered : string -> bool)
      (clients : list string) (self : WebSocketManager) :
  (forall k,
      active_connections
        (fold_left
           (fun self' client =>
              disconnect (send_personal_message self' now (delivered client)
                                                client).2 client)
           clients self) !! k
      = if decide (k ∈ clients) then None else active_connections self !! k)
  /\ (forall g,
         is_Some (connection_groups
                    (fold_left
                       (fun self' client =>
                          disconnect
                            (send_personal_message self' now (delivered client)
                                                   client).2 client)
                       clients self) !! g)
         <-> is_Some (connection_groups self !! g)).
Proof.
  revert self. induction clients as [|c l IH]; intros self.
  - simpl. split; [|reflexivity]. intros k.
    destruct (decide (k ∈ [])) as [H|_]; [|reflexivity].
    now apply elem_of_nil in H.
  - cbn [fold_left]. destruct (IH (disconnect
                    (send_personal_message self now (delivered c) c).2 c))
      as [IH1 IH2].
    split.
    + intros k. rewrite IH1, disconnect_lookup.
      destruct (decide (k ∈ l)) as [Hl|Hl].
      * rewrite decide_True; [reflexivity|]. now apply elem_of_cons; right.
      * destruct (decide (k = c)) as [->|Hne].
        -- rewrite decide_True; [reflexivity|]. now apply elem_of_cons; left.
        -- rewrite decide_False by (intros [H|H]%elem_of_cons; contradiction).
           now apply send_lookup_ne.
    + intros g. rewrite IH2, disconnect_group_names. apply send_group_names.
Qed.

(** X22. Shutdown after any sequence of operations leaves no connection,
    whether the notices are delivered or not; every group is kept, with no
    member left. *)
Theorem shutdown_disconnects_everyone (ops : list op) (now : Q)
        (delivered : string -> bool) :
  let self := shutdown (run ops) now delivered in
  active_connections self = ∅
  /\ (forall group_name members,
         connection_groups self !! group_name = Some members -> members = [])
  /\ (forall group_name,
         is_Some (connection_groups self !! group_name)
         <-> is_Some (connection_groups (run ops) !! group_name)).
Proof.
  intros self.
  destruct (fold_shutdown now delivered (client_ids (run ops)) (run ops))
    as [H1 H2].
  fold (shutdown (run ops) now delivered) in H1, H2. fold self in H1, H2.
  assert (Hempty : active_connections self = ∅).
  { apply map_eq. intros k. rewrite H1, lookup_empty.
    destruct (decide (k ∈ client_ids (run ops))) as [H|H]; [reflexivity|].
    apply eq_None_not_Some. intros Hk. now apply H, client_ids_spec. }
  split; [exact Hempty|]. split; [|exact H2].
  intros g members Hg.
  pose proof (SessionFacts.shutdown_consistent now delivered (run ops)
                (SessionFacts.run_consistent ops) g members Hg) as [_ Hin].
  destruct members as [|m members]; [reflexivity|].
  destruct (Hin m) as [c Hc]; [now left|].
  fold self in Hc. rewrite Hempty, lookup_empty in Hc. discriminate.
Qed.

(** X23. One round of the janitor keeps exactly the connections that were
    active within the last 300 seconds, each as it was: a connection idle
    for more than 300 seconds is gone, one idle for 300 seconds or less
    stays. *)
Theorem cleanup_keeps_recent (self : WebSocketManager) (current_time : Q)
        (client : string) :
  active_connections (cleanup_inactive self current_time) !! client
  = match active_connections self !! client with
    | Some connection =>
        if Qlt_bool 300 (current_time - last_activity connection)
        then None else Some connection
    | None => None
    end.
Proof.
  unfold cleanup_inactive. rewrite fold_disconnect_lookup.
  set (idle := fun entry : string * WebSocketConnection =>
                 Qlt_bool 300 (current_time - last_activity entry.2)).
  destruct (decide (client ∈ (List.filter idle
                                (map_to_list (active_connections self))).*1))
    as [H|H].
  - apply list_elem_of_fmap in H as ([k c] & -> & H).
    apply list_elem_of_In, filter_In in H as [H Hidle].
    apply list_elem_of_In, elem_of_map_to_list in H. simpl.
    rewrite H. unfold idle in Hidle. simpl in Hidle. now rewrite Hidle.
  - destruct (active_connections self !! client) as [c|] eqn:E; [|reflexivity].
    destruct (Qlt_bool 300 (current_time - last_activity c)) eqn:Hidle;
      [|reflexivity].
    exfalso. apply H. apply list_elem_of_fmap. exists (client, c).
    split; [reflexivity|]. apply list_elem_of_In, filter_In.
    split; [|exact Hidle]. now apply list_elem_of_In, elem_of_map_to_list.
Qed.

(** X24. The acknowledgements do not tell whether the message went out:
    [ping_client] answers true for every connected client and [connect]
    answers true whenever the socket was accepted, also when the ping or the
    welcome message cannot be sent; the client is then no longer
    connected. *)
Theorem acknowledged_despite_failed_send (self : WebSocketManager) (now : Q)
        (client : string) :
  (forall delivered,
      (ping_client self now delivered client).1
      = is_client_connected self client)
  /\ (is_client_connected self client = true ->
      connected (ping_client self now false client).2 client = false)
  /\ (forall delivered, (connect self now true delivered client).1 = true)
  /\ connected (connect self now true false client).2 client = false.
Proof.
  assert (Hgone : forall self', connected (disconnect self' client) client
                                = false).
  { intros self'. apply not_true_iff_false. intros H.
    apply connected_is_Some in H. rewrite disconnect_lookup in H.
    rewrite decide_True in H by reflexivity. now destruct H. }
  repeat split.
  - intros delivered. unfold ping_client.
    now destruct (is_client_connected self client).
  - intros H. unfold ping_client. rewrite H. cbn [snd].
    unfold is_client_connected in H.
    destruct (active_connections self !! client) as [c|] eqn:E; [|discriminate].
    rewrite (send_result self now false client c E). apply Hgone.
  - unfold connect. cbn [snd].
    erewrite send_result by (cbn [active_connections]; apply lookup_insert_eq).
    apply Hgone.
Qed.

Lemma acknowledged_despite_failed_send_witness :
  is_client_connected (connect new_manager 0 true true "ios-1").2 "ios-1" = true
  /\ (ping_client (connect new_manager 0 true true "ios-1").2 5 false
                  "ios-1").1 = true
  /\ connected (ping_client (connect new_manager 0 true true "ios-1").2 5 false
                            "ios-1").2 "ios-1" = false.
Proof.
  assert (H : is_client_connected (connect new_manager 0 true true "ios-1").2
                                  "ios-1" = true) by (vm_compute; reflexivity).
  split; [exact H|].
  destruct (acknowledged_despite_failed_send
              (connect new_manager 0 true true "ios-1").2 5 "ios-1")
    as (Hping & Hgone & _).
  split; [now rewrite Hping | now apply Hgone].
Defined.

Lemma filter_NoDup {A : Type} (f : A -> bool) (l : list A) :
  NoDup l -> NoDup (List.filter f l).
Proof.
  induction 1 as [|x l Hx Hl IH]; simpl; [constructor|].
  destruct (f x); [|exact IH]. constructor; [|exact IH].
  intros H. apply Hx. apply list_elem_of_In, filter_In in H as [H _].
  now apply list_elem_of_In.
Qed.

Lemma send_each_spec (now : Q) (delivered : string -> bool)
      (clients : list string) :
  forall (n : nat) (self : WebSocketManager),
    NoDup clients ->
    (forall c, c ∈ clients -> is_Some (active_connections self !! c)) ->
    let out :=
      fold_left
        (fun acc client =>
           let '(ok, self') :=
             send_personal_message (snd acc) now (delivered client) client in
           (if ok then S (fst acc) else fst acc, self'))
        clients (n, self) in
    out.1 = (n + List.length (List.filter delivered clients))%nat
    /\ forall k,
        is_Some (active_connections out.2 !! k)
        <-> is_Some (active_connections self !! k)
            /\ (k ∈ clients -> delivered k = true).
Proof.
  induction clients as [|c l IH]; intros n self Hnd Hin.
  - simpl. split; [lia|]. intros k. split; [|now intros [H _]].
    intros H. split; [exact H|]. intros Hk. now apply elem_of_nil in Hk.
  - apply NoDup_cons in Hnd as [Hc Hnd].
    destruct (Hin c) as [conn Hconn]; [now left|].
    cbn [fold_left List.filter]. cbn [snd fst].
    rewrite (send_result self now (delivered c) c conn Hconn).
    set (self1 := if delivered c then _ else disconnect self c).
    assert (Hne : forall k, k <> c ->
                            active_connections self1 !! k
                            = active_connections self !! k).
    { intros k Hk. unfold self1. destruct (delivered c).
      - cbn [active_connections]. now apply lookup_insert_ne.
      - rewrite disconnect_lookup. now rewrite decide_False. }
    assert (Hat : is_Some (active_connections self1 !! c)
                  <-> delivered c = true).
    { unfold self1. destruct (delivered c).
      - cbn [active_connections]. rewrite lookup_insert_eq. split; eauto.
      - rewrite disconnect_lookup, decide_True by reflexivity.
        split; [intros [x Hx]; discriminate | discriminate]. }
    destruct (IH (if delivered c then S n else n) self1 Hnd) as [IH1 IH2].
    { intros c' Hc'. rewrite Hne; [apply Hin; now right|]. congruence. }
    split.
    + rewrite IH1. destruct (delivered c); simpl; lia.
    + intros k. rewrite IH2. destruct (decide (k = c)) as [->|Hk].
      * rewrite Hat. split.
        -- intros [Hd _]. split; [eauto|]. auto.
        -- intros [_ Hd]. split; [apply Hd; now left | intros; contradiction].
      * rewrite (Hne k Hk). split.
        -- intros [H1 H2]. split; [exact H1|].
           intros [->|H]%elem_of_cons; [contradiction | auto].
        -- intros [H1 H2]. split; [exact H1|]. intros H. apply H2. now right.
Qed.

(** X25. A broadcast counts the deliveries: it returns the number of
    connected clients outside the exclusion list whose transport accepted
    the message, and afterwards the connected clients are those that were
    connected and were excluded or reached. The same holds of a group send
    after any sequence of operations: it returns the number of members
    reached. *)
Theorem sends_count_deliveries (ops : list op) (now : Q)
        (delivered : string -> bool) (exclude : list string) :
  let self := run ops in
  (broadcast_message self now delivered exclude).1
  = List.length
      (List.filter (fun client => negb (member client exclude)
                                  && delivered client)
                   (client_ids self))
  /\ (forall client,
         is_Some (active_connections
                    (broadcast_message self now delivered exclude).2 !! client)
         <-> is_Some (active_connections self !! client)
             /\ (member client exclude = true \/ delivered client = true))
  /\ (forall group_name members,
         connection_groups self !! group_name = Some members ->
         (send_to_group self now delivered group_name).1
         = List.length (List.filter delivered members)).
Proof.
  intros self.
  assert (Hids : NoDup (client_ids self))
    by apply NoDup_fst_map_to_list.
  set (included := fun client => negb (member client exclude)).
  destruct (send_each_spec now delivered
              (List.filter included (client_ids self)) 0 self) as [H1 H2].
  { now apply filter_NoDup. }
  { intros c Hc. apply list_elem_of_In, filter_In in Hc as [Hc _].
    now apply client_ids_spec, list_elem_of_In. }
  split; [|split].
  - unfold broadcast_message, send_each. fold included. rewrite H1. simpl.
    subst included. clear.
    induction (client_ids self) as [|c l IH]; [reflexivity|].
    cbn [List.filter]. destruct (negb (member c exclude)); simpl; [|exact IH].
    destruct (delivered c); simpl; now rewrite IH.
  - intros client. unfold broadcast_message, send_each. fold included.
    rewrite H2. split.
    + intros [Hc Hd]. split; [exact Hc|].
      destruct (member client exclude) eqn:E; [now left|]. right. apply Hd.
      apply list_elem_of_In, filter_In. split.
      * now apply list_elem_of_In, client_ids_spec.
      * unfold included. now rewrite E.
    + intros [Hc Hd]. split; [exact Hc|]. intros Hin.
      apply list_elem_of_In, filter_In in Hin as [_ Hin].
      unfold included in Hin. apply negb_true_iff in Hin.
      destruct Hd as [Hd|Hd]; congruence.
  - intros g members Hg. unfold send_to_group. rewrite Hg.
    destruct (SessionFacts.run_consistent ops g members Hg) as [Hnd Hin].
    destruct (send_each_spec now delivered members 0 self Hnd Hin) as [H _].
    exact H.
Qed.

End SessionExtra.

(** ** More on the tool broker *)

Module BrokerExtra.
Import Broker.

Section Folds.
Context {A B : Type}.

(** A fold over the tools that changes, for each tool, the record of its
    name. *)
Lemma map_fold_pointwise (h : string -> A -> gmap string B -> gmap string B)
      (F : A -> B -> B) (m0 : gmap string B) (m : gmap string A) :
  (forall n x r k,
      h n x r !! k = if decide (k = n) then F x <$> r !! k else r !! k) ->
  forall k,
    map_fold h m0 m !! k
    = match m !! k with
      | Some x => F x <$> m0 !! k
      | None => m0 !! k
      end.
Proof.
  intros Hh.
  apply (map_fold_weak_ind
           (fun r m => forall k, r !! k = match m !! k with
                                          | Some x => F x <$> m0 !! k
                                          | None => m0 !! k
                                          end)).
  - intros k. now rewrite lookup_empty.
  - intros i x m' r Hi IH k. rewrite Hh.
    destruct (decide (k = i)) as [->|Hne].
    + rewrite lookup_insert_eq, IH, Hi. reflexivity.
    + rewrite lookup_insert_ne by congruence. apply IH.
Qed.

End Folds.

Lemma start_all_servers_status (self : MCPBridge) (now : Q) :
  initialization_complete self = true ->
  exists bridge,
    start_all_servers self now = inr bridge
    /\ servers bridge = servers self
    /\ initialization_complete bridge = true
    /\ forall k,
        server_status bridge !! k
        = match servers self !! k with
          | Some server => started server now <$> server_status self !! k
          | None => server_status self !! k
          end.
Proof.
  intros H. unfold start_all_servers. rewrite H. eexists.
  split; [reflexivity|]. split; [reflexivity|]. split; [reflexivity|].
  cbn [server_status]. apply map_fold_pointwise.
  intros n x r k. destruct (decide (k = n)) as [->|Hne].
  - rewrite lookup_alter_eq. unfold started. now destruct (starts x).
  - now rewrite lookup_alter_ne.
Qed.

Lemma shutdown_status (self : MCPBridge) (k : string) :
  server_status (shutdown self) !! k
  = match servers self !! k with
    | Some server =>
        (fun st => if stops server
                   then set_status st "stopped" (last_ping st) (error_message st)
                   else st) <$> server_status self !! k
    | None => server_status self !! k
    end.
Proof.
  unfold shutdown. cbn [server_status]. revert k. apply map_fold_pointwise.
  intros n x r k. destruct (stops x).
  - destruct (decide (k = n)) as [->|Hne].
    + now rewrite lookup_alter_eq.
    + now rewrite lookup_alter_ne.
  - destruct (decide (k = n)); [|reflexivity].
    destruct (r !! k); reflexivity.
Qed.

Lemma server_names_NoDup : NoDup server_configs.*1.
Proof. apply (bool_decide_unpack _). vm_compute. exact I. Qed.

Lemma initialize_from_spec (instance : string -> Tool) :
  forall (configs : list (string * list string)) (self : MCPBridge),
  exists done rest,
    configs = done ++ rest
    /\ Forall (fun config => initializes (instance config.1) = true) done
    /\ servers (initialize_from instance configs self).1
       = foldl (fun m config => <[config.1 := instance config.1]> m)
               (servers self) done
    /\ server_status (initialize_from instance configs self).1
       = foldl (fun m config => <[config.1 := initialized config.1 config.2]> m)
               (server_status self) done
    /\ match rest with
       | [] =>
           (initialize_from instance configs self).2 = None
           /\ initialization_complete (initialize_from instance configs self).1
              = true
       | config :: _ =>
           initializes (instance config.1) = false
           /\ (initialize_from instance configs self).2
              = Some (RuntimeError "initialize failed")
           /\ initialization_complete (initialize_from instance configs self).1
              = initialization_complete self
       end.
Proof.
  induction configs as [|[n caps] configs IH]; intros self.
  - exists [], []. simpl. repeat split; constructor.
  - cbn [initialize_from].
    destruct (initializes (instance n)) eqn:E.
    + destruct (IH {| servers := <[n := instance n]> (servers self);
                      server_status :=
                        <[n := {| name := n; status := "initialized";
                                  last_ping := None; error_message := None;
                                  capabilities := caps |}]>
                          (server_status self);
                      initialization_complete := initialization_complete self |})
        as (done & rest & Hc & Hd & Hs & Hst & Hr).
      exists ((n, caps) :: done), rest.
      split; [now rewrite Hc|]. split; [now constructor|].
      split; [exact Hs|]. split; [exact Hst|]. exact Hr.
    + exists [], ((n, caps) :: configs). simpl. repeat split; auto.
Qed.

Lemma foldl_insert_lookup {V : Type} (g : string * list string -> V)
      (done : list (string * list string)) (m : gmap string V) (k : string) :
  (is_Some (foldl (fun m config => <[config.1 := g config]> m) m done !! k)
   <-> is_Some (m !! k) \/ k ∈ done.*1)
  /\ (forall config,
         NoDup done.*1 -> config ∈ done -> config.1 = k ->
         foldl (fun m config => <[config.1 := g config]> m) m done !! k
         = Some (g config)).
Proof.
  revert m. induction done as [|[n caps] done IH]; intros m.
  - simpl. split.
    + split; [auto | intros [H|H]; [exact H | now apply elem_of_nil in H]].
    + intros config _ H. now apply elem_of_nil in H.
  - cbn [foldl]. destruct (IH (<[n := g (n, caps)]> m)) as [IH1 IH2].
    split.
    + rewrite IH1, fmap_cons, elem_of_cons. cbn [fst].
      destruct (decide (n = k)) as [->|Hne].
      * rewrite lookup_insert_eq. split; [auto | intros _; left; eauto].
      * rewrite lookup_insert_ne by exact Hne. split.
        -- intros [H|H]; auto.
        -- intros [H | [H|H]]; auto. congruence.
    + intros config Hnd Hin Hk. rewrite fmap_cons in Hnd.
      apply NoDup_cons in Hnd as [Hn Hnd].
      apply elem_of_cons in Hin as [-> | Hin].
      * cbn [fst] in Hk. subst k.
        assert (Hkeep : forall (done' : list (string * list string))
                               (m' : gmap string V),
                   n ∉ done'.*1 ->
                   foldl (fun m config => <[config.1 := g config]> m) m' done'
                   !! n = m' !! n).
        { clear. induction done' as [|[n' caps'] done' IH']; intros m' H.
          - reflexivity.
          - cbn [foldl]. rewrite fmap_cons in H. cbn [fst] in H.
            rewrite IH' by (intros H'; apply H; now right).
            apply lookup_insert_ne. cbn [fst]. intros Heq. apply H.
            apply elem_of_cons. now left. }
        cbn [fst] in Hn. rewrite Hkeep by exact Hn. apply lookup_insert_eq.
      * now apply IH2.
Qed.

(** X26. [initialize] on a new bridge registers the tools in the order of
    the configuration up to the first tool whose initialization fails: each
    tool before it is registered with the status "initialized" and its
    declared capabilities, and no tool from it on is registered. Without a
    failure all five are registered, no exception is raised and the bridge
    is marked as initialized; with one, the exception is raised, the bridge
    is not marked, and [start_all_servers] raises the error "MCP Bridge not
    initialized". *)
Theorem initialize_registers_prefix (instance : string -> Tool) (now : Q) :
  let out := initialize instance new_bridge in
  exists done rest,
    server_configs = done ++ rest
    /\ (forall n, is_Some (servers out.1 !! n) <-> n ∈ done.*1)
    /\ (forall n, is_Some (server_status out.1 !! n) <-> n ∈ done.*1)
    /\ (forall n caps,
           (n, caps) ∈ done ->
           initializes (instance n) = true
           /\ servers out.1 !! n = Some (instance n)
           /\ server_status out.1 !! n = Some (initialized n caps))
    /\ match rest with
       | [] => out.2 = None /\ initialization_complete out.1 = true
       | (n, _) :: _ =>
           initializes (instance n) = false
           /\ is_Some out.2
           /\ initialization_complete out.1 = false
           /\ start_all_servers out.1 now
              = inl (RuntimeError "MCP Bridge not initialized")
       end.
Proof.
  intros out. subst out. unfold initialize.
  destruct (initialize_from_spec instance server_configs new_bridge)
    as (done & rest & Hc & Hd & Hs & Hst & Hr).
  exists done, rest. split; [exact Hc|].
  assert (Hnd : NoDup done.*1).
  { pose proof server_names_NoDup as H.
    rewrite Hc, fmap_app in H. now apply NoDup_app in H as [H _]. }
  split; [|split; [|split]].
  - intros n. rewrite Hs.
    rewrite (proj1 (foldl_insert_lookup (fun config => instance config.1)
                      done (servers new_bridge) n)).
    cbn [servers new_bridge]. rewrite lookup_empty.
    split; [intros [[x Hx]|H]; [discriminate | exact H] | auto].
  - intros n. rewrite Hst.
    rewrite (proj1 (foldl_insert_lookup
                      (fun config => initialized config.1 config.2)
                      done (server_status new_bridge) n)).
    cbn [server_status new_bridge]. rewrite lookup_empty.
    split; [intros [[x Hx]|H]; [discriminate | exact H] | auto].
  - intros n caps Hin. split; [|split].
    + rewrite Forall_forall in Hd. exact (Hd (n, caps) Hin).
    + rewrite Hs.
      exact (proj2 (foldl_insert_lookup (fun config => instance config.1)
                      done (servers new_bridge) n) (n, caps) Hnd Hin eq_refl).
    + rewrite Hst.
      exact (proj2 (foldl_insert_lookup
                      (fun config => initialized config.1 config.2)
                      done (server_status new_bridge) n)
                   (n, caps) Hnd Hin eq_refl).
  - destruct rest as [|[n caps] rest]; [exact Hr|].
    destruct Hr as (H1 & H2 & H3). cbn [fst] in H1.
    split; [exact H1|]. split; [rewrite H2; eauto|]. split; [exact H3|].
    unfold start_all_servers. now rewrite H3.
Qed.

(** X27. When every tool initializes, [start_all_servers] raises nothing
    whichever tools fail to start: each of the five tools whose [start]
    returns is recorded as running with the time of the start as its last
    ping, and each tool whose [start] raises is recorded with the status
    "error" and an error message, the others being started all the same. *)
Theorem start_isolates_failures (instance : string -> Tool) (now : Q) :
  (forall n, n ∈ server_configs.*1 -> initializes (instance n) = true) ->
  exists bridge,
    start_all_servers (initialize instance new_bridge).1 now = inr bridge
    /\ forall n caps,
        (n, caps) ∈ server_configs ->
        servers bridge !! n = Some (instance n)
        /\ exists st,
            server_status bridge !! n = Some st
            /\ name st = n
            /\ capabilities st = caps
            /\ if starts (instance n)
               then status st = "running" /\ last_ping st = Some now
                    /\ error_message st = None
               else status st = "error" /\ last_ping st = None
                    /\ is_Some (error_message st).
Proof.
  intros Hall. unfold initialize.
  destruct (initialize_from_spec instance server_configs new_bridge)
    as (done & rest & Hc & Hd & Hs & Hst & Hr).
  destruct rest as [|[n0 caps0] rest].
  - rewrite app_nil_r in Hc. subst done. destruct Hr as [_ Hcomplete].
    destruct (start_all_servers_status _ now Hcomplete)
      as (bridge & Hstart & Hservers & _ & Hstatus).
    exists bridge. split; [exact Hstart|]. intros n caps Hin.
    pose proof server_names_NoDup as Hnd.
    assert (H1 : servers (initialize_from instance server_configs new_bridge).1
                 !! n = Some (instance n)).
    { rewrite Hs.
      exact (proj2 (foldl_insert_lookup (fun config => instance config.1)
                      server_configs (servers new_bridge) n)
                   (n, caps) Hnd Hin eq_refl). }
    split; [now rewrite Hservers|].
    rewrite Hstatus, H1, Hst.
    rewrite (proj2 (foldl_insert_lookup
                      (fun config => initialized config.1 config.2)
                      server_configs (server_status new_bridge) n)
                   (n, caps) Hnd Hin eq_refl).
    cbn [fmap option_fmap option_map fst snd]. unfold started, initialized.
    eexists. split; [reflexivity|].
    destruct (starts (instance n)); cbn; repeat split; eauto.
  - exfalso. destruct Hr as (Hfail & _). cbn [fst] in Hfail.
    rewrite Hall in Hfail; [discriminate|].
    rewrite Hc, fmap_app, fmap_cons. apply elem_of_app. right. now left.
Qed.

Lemma start_isolates_failures_witness :
  (forall n, n ∈ server_configs.*1 -> initializes (sample_instance n) = true)
  /\ exists bridge,
      start_all_servers (initialize sample_instance new_bridge).1 0 = inr bridge
      /\ (status <$> server_status bridge !! "voice") = Some "running".
Proof.
  assert (H : forall n, n ∈ server_configs.*1 ->
                        initializes (sample_instance n) = true)
    by reflexivity.
  split; [exact H|].
  destruct (start_isolates_failures sample_instance 0 H)
    as (bridge & Hstart & Hstatus).
  exists bridge. split; [exact Hstart|].
  destruct (Hstatus "voice"
              ["speech_to_text"; "text_to_speech"; "voice_synthesis";
               "audio_processing"]) as (_ & st & Hs & _ & _ & Hrunning & _).
  { unfold server_configs. rewrite !elem_of_cons. auto 6. }
  rewrite Hs. simpl. now rewrite Hrunning.
Defined.

(** X28. A shutdown unregisters nothing and only marks the tools whose
    [shutdown] returns as stopped: the tools and the initialization mark
    are as before, a tool whose [shutdown] raises keeps the status it had,
    and starting the bridge after the shutdown gives what starting it
    without the shutdown gives. *)
Theorem shutdown_keeps_tools (self : MCPBridge) (now : Q) :
  servers (shutdown self) = servers self
  /\ initialization_complete (shutdown self) = initialization_complete self
  /\ (forall n server,
         servers self !! n = Some server ->
         (status <$> server_status (shutdown self) !! n)
         = (if stops server then (fun _ => "stopped") <$> server_status self !! n
            else status <$> server_status self !! n))
  /\ start_all_servers (shutdown self) now = start_all_servers self now.
Proof.
  split; [reflexivity|]. split; [reflexivity|]. split.
  - intros n server Hn. rewrite shutdown_status, Hn.
    destruct (server_status self !! n) as [st|]; [|now destruct (stops server)].
    simpl. now destruct (stops server).
  - destruct (initialization_complete self) eqn:E.
    + destruct (start_all_servers_status self now E)
        as (b1 & -> & Hs1 & Hc1 & Hst1).
      destruct (start_all_servers_status (shutdown self) now E)
        as (b2 & -> & Hs2 & Hc2 & Hst2).
      f_equal. destruct b1 as [s1 st1 c1], b2 as [s2 st2 c2].
      cbn [servers server_status initialization_complete] in *.
      subst s1 s2 c1 c2. f_equal. apply map_eq. intros k.
      rewrite Hst1, Hst2, shutdown_status.
      change (servers (shutdown self)) with (servers self).
      destruct (servers self !! k) as [server|]; [|reflexivity].
      destruct (server_status self !! k) as [st|]; [|reflexivity].
      simpl. unfold started, set_status.
      destruct (stops server), (starts server); reflexivity.
    + unfold start_all_servers.
      change (initialization_complete (shutdown self))
        with (initialization_complete self).
      now rewrite E.
Qed.

(** X29. A status check never clears an error and never marks a tool as
    running: for an unknown name it returns nothing and changes nothing;
    otherwise the status it returns is the recorded one, or "error" when
    the ping of the tool raised, so that a tool recorded with an error stays
    so however its ping answers, and the capabilities are as recorded. *)
Theorem status_check_keeps_errors (self : MCPBridge) (server_name : string)
        (now : Q) :
  match (get_server_status self server_name now).1 with
  | None =>
      server_status self !! server_name = None
      /\ (get_server_status self server_name now).2 = self
  | Some st' =>
      exists st,
        server_status self !! server_name = Some st
        /\ (status st' = status st \/ status st' = "error")
        /\ (status st = "error" -> status st' = "error")
        /\ capabilities st' = capabilities st
        /\ server_status (get_server_status self server_name now).2
           !! server_name = Some st'
        /\ servers (get_server_status self server_name now).2 = servers self
  end.
Proof.
  unfold get_server_status.
  destruct (server_status self !! server_name) as [st|] eqn:E.
  - cbn [fst snd server_status servers]. exists st.
    split; [reflexivity|]. rewrite lookup_insert_eq.
    destruct (servers self !! server_name) as [server|].
    + destruct (ping server) as [e|r]; cbn [set_status status capabilities];
        repeat split; auto.
    + repeat split; auto.
  - simpl. auto.
Qed.

End BrokerExtra.
